(** * CoolProp.Plots.Common: unit systems, isolines and plot limits

    A shallow embedding of [wrappers/Python/CoolProp/Plots/Common.py].

    Conventions of the embedding.
    - A Python [float] is a rational number or not-a-number ([float] below);
      rounding is not modelled, so arithmetic is exact.
    - A Python [int] is a [Z].
    - A [dict] is a [gmap]; a dict display [{k1: v1, k2: v2}] inserts its items
      from left to right, so a repeated key keeps the last value ([pydict]).
    - A numpy array is the flat sequence of its elements ([ndarray]); dtypes
      are not modelled. The arrays that callers supply have dimension 1.
      Where the code brings an array of dimension 0 together with an array of
      dimension 1 (the held value and the sweep of [calc_range]), an array
      carries its shape as well ([nparray]).
    - Methods that touch the equation-of-state handle, the matplotlib axes or
      the warnings machinery run in the monad [M] over a [World].
    - The CoolProp extension module, numpy's uninitialised memory and the
      matplotlib axes are interfaces ([CoolPropLib], [NumPy], [Matplotlib]). *)

From Stdlib Require Import ZArith QArith Qcanon String List Lia.
From stdpp Require Import base option list numbers gmap strings.

Open Scope string_scope.
Open Scope Z_scope.

(** ** Python floats *)

Inductive float : Type :=
| Fin (q : Qc)
| NaN.

Definition dec (n : Z) (d : positive) : float := Fin (Q2Qc (n # d)).

Definition is_nan (a : float) : bool :=
  match a with NaN => true | Fin _ => false end.

Definition fadd (a b : float) : float :=
  match a, b with
  | Fin x, Fin y => Fin (x + y)%Qc
  | _, _ => NaN
  end.

Definition fsub (a b : float) : float :=
  match a, b with
  | Fin x, Fin y => Fin (x - y)%Qc
  | _, _ => NaN
  end.

Definition fmul (a b : float) : float :=
  match a, b with
  | Fin x, Fin y => Fin (x * y)%Qc
  | _, _ => NaN
  end.

(** [a < b]: every comparison with not-a-number is false. *)
Definition flt (a b : float) : bool :=
  match a, b with
  | Fin x, Fin y => if Qclt_le_dec x y then true else false
  | _, _ => false
  end.

(** [a == b] on floats. *)
Definition feqb (a b : float) : bool :=
  match a, b with
  | Fin x, Fin y => if Qc_eq_dec x y then true else false
  | _, _ => false
  end.

(** The builtin [max] and [min] on a non-empty list: the first element is
    kept unless a later one compares strictly greater (smaller). *)
Definition py_max (a : float) (l : list float) : float :=
  foldl (fun m v => if flt m v then v else m) a l.

Definition py_min (a : float) (l : list float) : float :=
  foldl (fun m v => if flt v m then v else m) a l.

(** ** Exceptions and results

    A message keeps the constant text of the source; the values that the
    source formats into it are left out. *)

Inductive exn : Type :=
| ValueError (msg : string)
| KeyError (key : Z)
| TypeError (msg : string)
| AttributeError (msg : string)
| IndexError (msg : string)
| ZeroDivisionError (msg : string).

Inductive result (A : Type) : Type :=
| Ok (a : A)
| Raise (e : exn).
Arguments Ok {A} a.
Arguments Raise {A} e.

Definition is_ok {A} (r : result A) : bool :=
  match r with Ok _ => true | Raise _ => false end.

(** [a / b] on floats: a zero divisor raises, whatever the dividend is. *)
Definition fdiv (a b : float) : result float :=
  match b with
  | Fin y =>
      if Qc_eq_dec y 0%Qc then Raise (ZeroDivisionError "float division by zero")
      else match a with
           | Fin x => Ok (Fin (x / y)%Qc)
           | NaN => Ok NaN
           end
  | NaN => Ok NaN
  end.

(** ** BaseQuantity and BaseDimension *)

Record BaseQuantity : Type := mkBaseQuantity {
  add_SI : float;
  mul_SI : float;
  off_SI : float
}.

Definition from_SI (self : BaseQuantity) (value : float) : float :=
  fadd (fmul (fadd value (off_SI self)) (mul_SI self)) (add_SI self).

Definition to_SI (self : BaseQuantity) (value : float) : result float :=
  match fdiv (fsub value (add_SI self)) (mul_SI self) with
  | Ok q => Ok (fsub q (off_SI self))
  | Raise e => Raise e
  end.

Record BaseDimension : Type := mkBaseDimension {
  quantity :> BaseQuantity;
  label : string;
  symbol : string;
  unit : string
}.

Definition new_BaseDimension (add mul off : float) (l s u : string) : BaseDimension :=
  mkBaseDimension (mkBaseQuantity add mul off) l s u.

Definition set_mul_SI (v : float) (d : BaseDimension) : BaseDimension :=
  mkBaseDimension (mkBaseQuantity (add_SI d) v (off_SI d)) (label d) (symbol d) (unit d).

Definition set_add_SI (v : float) (d : BaseDimension) : BaseDimension :=
  mkBaseDimension (mkBaseQuantity v (mul_SI d) (off_SI d)) (label d) (symbol d) (unit d).

Definition set_unit (u : string) (d : BaseDimension) : BaseDimension :=
  mkBaseDimension (quantity d) (label d) (symbol d) u.

(** ** Unit systems *)

(** The properties [D], [H], [P], [S], [T], [U] and [Q] of a unit system
    live in the name space [Units]. *)
Module Units.
Record UnitSystem : Type := mkUnitSystem {
  D : BaseDimension;
  H : BaseDimension;
  P : BaseDimension;
  S : BaseDimension;
  T : BaseDimension;
  U : BaseDimension;
  Q : BaseDimension
}.
End Units.
Abbreviation UnitSystem := Units.UnitSystem.

Definition zero : float := dec 0 1.
Definition one : float := dec 1 1.

Definition SIunits : UnitSystem := {|
  Units.D := new_BaseDimension zero one zero "Density" "\rho" "kg/m$^3$";
  Units.H := new_BaseDimension zero one zero "Specific Enthalpy" "h" "J/kg";
  Units.P := new_BaseDimension zero one zero "Pressure" "p" "Pa";
  Units.S := new_BaseDimension zero one zero "Specific Entropy" "s" "J/kg/K";
  Units.T := new_BaseDimension zero one zero "Temperature" "T" "K";
  Units.U := new_BaseDimension zero one zero "Specific Internal Energy" "u" "J/kg";
  Units.Q := new_BaseDimension zero one zero "Vapour Quality" "x" ""
|}.

Definition KSIunits : UnitSystem :=
  let s := SIunits in
  {| Units.D := Units.D s;
     Units.H := set_unit "kJ/kg" (set_mul_SI (dec 1 1000) (Units.H s));
     Units.P := set_unit "kPa" (set_mul_SI (dec 1 1000) (Units.P s));
     Units.S := set_unit "kJ/kg/K" (set_mul_SI (dec 1 1000) (Units.S s));
     Units.T := Units.T s;
     Units.U := set_unit "kJ/kg" (set_mul_SI (dec 1 1000) (Units.U s));
     Units.Q := Units.Q s |}.

Definition EURunits : UnitSystem :=
  let s := KSIunits in
  {| Units.D := Units.D s;
     Units.H := Units.H s;
     Units.P := set_unit "bar" (set_mul_SI (dec 1 100000) (Units.P s));
     Units.S := Units.S s;
     Units.T := set_unit "° C" (set_add_SI (dec (-27315) 100) (Units.T s));
     Units.U := Units.U s;
     Units.Q := Units.Q s |}.

(** The seven dimensions of a unit system and the three systems of
    [BasePlot.UNIT_SYSTEMS]. *)
Definition all_dimensions (s : UnitSystem) : list BaseDimension :=
  [Units.D s; Units.H s; Units.P s; Units.S s; Units.T s; Units.U s; Units.Q s].

Definition UNIT_SYSTEMS : list (string * UnitSystem) :=
  [("SI", SIunits); ("KSI", KSIunits); ("EUR", EURunits)].

(** ** Dictionaries, arrays and the result monad *)

(** A dict display: items are inserted from left to right. *)
Definition pydict {K V : Type} `{Countable K} (items : list (K * V)) : gmap K V :=
  foldl (fun m kv => <[kv.1 := kv.2]> m) ∅ items.

(** [d[k]] for an integer key. *)
Definition getitem_dict {V : Type} (d : gmap Z V) (k : Z) : result V :=
  match d !! k with
  | Some v => Ok v
  | None => Raise (KeyError k)
  end.

#[global] Instance result_ret : MRet result := fun A a => Ok a.
#[global] Instance result_bind : MBind result := fun A B f r =>
  match r with
  | Ok a => f a
  | Raise e => Raise e
  end.

#[global] Instance result_fmap : FMap result := fun A B f r =>
  match r with
  | Ok a => Ok (f a)
  | Raise e => Raise e
  end.

Abbreviation ndarray := (list float).

(** [a[index]] on an array. *)
Definition getitem (a : ndarray) (index : nat) : result float :=
  match a !! index with
  | Some v => Ok v
  | None => Raise (IndexError "index out of bounds")
  end.

(** [numpy.resize(a, n)] for a flat array: an empty source gives zeros,
    otherwise enough whole copies of [a] are concatenated and the surplus is
    cut from the end. *)
Definition np_resize (a : ndarray) (new_size : nat) : ndarray :=
  let Na := length a in
  if (Na =? 0)%nat then replicate new_size zero
  else
    let n_copies := (new_size / Na)%nat in
    let extra := (new_size mod Na)%nat in
    let n_copies := if (extra =? 0)%nat then n_copies else S n_copies in
    let extra := if (extra =? 0)%nat then 0%nat else (Na - extra)%nat in
    let a' := mjoin (replicate n_copies a) in
    if (0 <? extra)%nat then take (length a' - extra) a' else a'.

(** An array of dimension 0 or 1: its shape is [()] or [(n,)]. The data of
    an array of shape [()] has one cell. *)
Inductive shape : Type :=
| Shape0
| Shape1.

Record nparray : Type := mkArray {
  shape_of : shape;
  data : ndarray
}.

(** The indices that [numpy.ndenumerate] yields: the empty tuple for an
    array of dimension 0, [(k,)] for an array of dimension 1. *)
Inductive nd_index : Type :=
| Idx0
| Idx1 (k : nat).

Definition nd_index_of (s : shape) (k : nat) : nd_index :=
  match s with
  | Shape0 => Idx0
  | Shape1 => Idx1 k
  end.

(** What [a[index]] gives: an element, or the array itself when an array
    of dimension 1 is subscripted with the empty tuple. *)
Inductive item : Type :=
| Scalar (v : float)
| Whole (a : ndarray).

(** [a[index]] for an index tuple: an array of dimension 0 has no element
    [(k,)]. *)
Definition getitem_nd (a : nparray) (index : nd_index) : result item :=
  match shape_of a, index with
  | Shape0, Idx0 => Scalar <$> getitem (data a) 0
  | Shape1, Idx1 k => Scalar <$> getitem (data a) k
  | Shape0, Idx1 _ => Raise (IndexError "too many indices for array")
  | Shape1, Idx0 => Ok (Whole (data a))
  end.

(** An argument of the extension module that is declared [double]: an
    array with one element converts as its element does. *)
Definition as_double (x : item) : result float :=
  match x with
  | Scalar v => Ok v
  | Whole [v] => Ok v
  | Whole _ => Raise (TypeError "only size-1 arrays can be converted to Python scalars")
  end.

(** The value formatted by ["{:f}".format(x)]: an array of dimension 1 has
    no such format, and the call raises ([TypeError] under Python 3). *)
Definition format_f (x : item) : result float :=
  match x with
  | Scalar v => Ok v
  | Whole _ => Raise (TypeError "unsupported format string passed to numpy.ndarray.__format__")
  end.

(** [numpy.resize(a, b.shape)]. *)
Definition resize_like (a b : nparray) : nparray :=
  mkArray (shape_of b) (np_resize (data a) (length (data b))).

(** [numpy.linspace(start, stop, num)] with the end point included. *)
Definition np_linspace (start stop : float) (num : Z) : result ndarray :=
  if num <? 0 then Raise (ValueError "Number of samples must be non-negative")
  else if num =? 0 then Ok []
  else if num =? 1 then Ok [start]
  else
    match fdiv (fsub stop start) (Fin (Q2Qc (inject_Z (num - 1)))) with
    | Raise e => Raise e
    | Ok step =>
        let n := Z.to_nat (num - 1) in
        Ok (map (fun k => fadd (fmul (Fin (Q2Qc (inject_Z (Z.of_nat k)))) step) start) (seq 0 n)
            ++ [stop])%list
    end.

(** [sorted(zip(order, items))] followed by the projection on the items. The
    keys are compared first; the callers only pass pairwise distinct keys, so
    the items themselves are never compared. *)
Fixpoint insert_by_key {A : Type} (kv : Z * A) (l : list (Z * A)) : list (Z * A) :=
  match l with
  | [] => [kv]
  | kv' :: l' => if kv.1 <=? kv'.1 then kv :: l else kv' :: insert_by_key kv l'
  end.

Definition sorted_zip {A : Type} (order : list Z) (items : list A) : list A :=
  map snd (foldr insert_by_key [] (zip order items)).

(** ** External interfaces *)

(** A property identifier or fluid property passed by the caller: a string,
    an int, or an object of another type (kept as its [str]). *)
Inductive pyobj : Type :=
| PyStr (s : string)
| PyInt (z : Z)
| PyOther (repr : string).

(** The CoolProp extension module: the parameter and input-pair constants,
    the two module functions used here, and one [AbstractState] handle.
    [generate_update_pair key1 value1 key2 value2] returns the input pair
    with the two values in the pair's order. [update] changes the handle and
    may raise; [keyed_output] reads the current state and may raise;
    [trivial_keyed_output] reads a constant of the fluid. *)
Class CoolPropLib : Type := {
  iDmass : Z; iHmass : Z; iP : Z; iSmass : Z; iT : Z; iUmass : Z; iQ : Z;
  iT_critical : Z; iP_critical : Z; iT_triple : Z; iT_min : Z; iT_max : Z;
  QT_INPUTS : Z; PQ_INPUTS : Z; PT_INPUTS : Z;
  get_parameter_index : string -> result Z;
  generate_update_pair : Z -> float -> Z -> float -> Z * float * float;
  AbstractState : Type;
  update : Z -> float -> float -> AbstractState -> result () * AbstractState;
  keyed_output : Z -> AbstractState -> result float;
  trivial_keyed_output : Z -> result float
}.

(** The cells of a freshly allocated [numpy.empty_like] array. *)
Class NumPy : Type := {
  uninitialised : nat -> float
}.

(** The matplotlib axes object of a plot. *)
Class Matplotlib : Type := {
  Axes : Type;
  get_xlim : Axes -> float * float;
  get_ylim : Axes -> float * float;
  set_xlim : float * float -> Axes -> Axes;
  set_ylim : float * float -> Axes -> Axes;
  get_autoscalex_on : Axes -> bool;
  get_autoscaley_on : Axes -> bool
}.

Inductive pyclass : Type :=
| Base2DObject_cls
| IsoLine_cls
| BasePlot_cls.

(** The warnings issued through [warnings.warn], with the values that are
    formatted into each message. *)
Inductive Warning : Type :=
| MinimumIgnored (name : string) (smin fluid_min fluid_max : float)
| MaximumIgnored (name : string) (smax fluid_min fluid_max : float)
| SampleError (input0 input1 : float) (index : nat) (e : exn)
| UseCalcSatRange
| DeprecatedSatBounds.

Section Plots.
Context `{CP : CoolPropLib} `{NP : NumPy} `{MPL : Matplotlib}.

Definition np_empty_like (a : ndarray) : ndarray :=
  map uninitialised (seq 0 (length a)).

(** ** The world and its monad *)

(** The mutable surroundings of a call: the state of the handle, the axes,
    the warnings issued so far and the [update] calls made so far. *)
Record World : Type := mkWorld {
  eos : AbstractState;
  axis : Axes;
  warned : list Warning;
  updates : list (Z * float * float)
}.

Definition M (A : Type) : Type := World -> result A * World.

#[global] Instance M_ret : MRet M := fun A a w => (Ok a, w).
#[global] Instance M_bind : MBind M := fun A B f m w =>
  match m w with
  | (Ok a, w') => f a w'
  | (Raise e, w') => (Raise e, w')
  end.

Definition lift {A : Type} (r : result A) : M A := fun w => (r, w).
Definition raise {A : Type} (e : exn) : M A := fun w => (Raise e, w).

Definition warn (x : Warning) : M () := fun w =>
  (Ok (), mkWorld (eos w) (axis w) (warned w ++ [x])%list (updates w)).

Definition state_update (pair : Z) (v1 v2 : float) : M () := fun w =>
  let '(r, s) := update pair v1 v2 (eos w) in
  (r, mkWorld s (axis w) (warned w) (updates w ++ [(pair, v1, v2)])%list).

Definition state_keyed_output (key : Z) : M float := fun w =>
  (keyed_output key (eos w), w).

Definition with_axis (f : Axes -> Axes) : M () := fun w =>
  (Ok (), mkWorld (eos w) (f (axis w)) (warned w) (updates w)).

Definition read_axis {A : Type} (f : Axes -> A) : M A := fun w =>
  (Ok (f (axis w)), w).

(** [try: body except Exception as e: handler e]. *)
Definition try_except {A : Type} (body : M A) (handler : exn -> M A) : M A := fun w =>
  match body w with
  | (Ok a, w') => (Ok a, w')
  | (Raise e, w') => handler e w'
  end.

(** ** Base2DObject *)

Definition TS : Z := iT * 10 + iSmass.
Definition PH : Z := iP * 10 + iHmass.
Definition HS : Z := iHmass * 10 + iSmass.
Definition PS : Z := iP * 10 + iSmass.
Definition PD : Z := iP * 10 + iDmass.
Definition TD : Z := iT * 10 + iDmass.
Definition PT : Z := iP * 10 + iT.
Definition PU : Z := iP * 10 + iUmass.

Definition PLOTS : gmap string Z :=
  pydict [("TS", TS); ("PH", PH); ("HS", HS); ("PS", PS); ("PD", PD); ("TD", TD); ("PT", PT)].

(** An instance of [Base2DObject] or of one of its subclasses, with a state
    attached ([_T_small] and [_P_small] are set by the [state] setter). *)
Record Base2DObject : Type := mkBase2DObject {
  class_of : pyclass;
  _x_index : Z;
  _y_index : Z;
  _small : float;
  _T_small : float;
  _P_small : float
}.

Definition _get_index (prop : pyobj) : result Z :=
  match prop with
  | PyStr s => get_parameter_index s
  | PyInt z => Ok z
  | PyOther r => Raise (ValueError ("Invalid input, expected a string or an int, not " ++ r ++ ".")%string)
  end.

Definition Base2DObject__init__ (c : pyclass) (x_type y_type : pyobj) (small : option float)
    : result Base2DObject :=
  xi ← _get_index x_type;
  yi ← _get_index y_type;
  let sm := match small with Some s => s | None => dec 1 100000 end in
  Tc ← trivial_keyed_output iT_critical;
  Pc ← trivial_keyed_output iP_critical;
  Ok (mkBase2DObject c xi yi sm (fmul Tc sm) (fmul Pc sm)).

(** [BasePlot.PROPERTIES]; the other two classes have no such attribute. *)
Definition PROPERTIES : gmap Z string :=
  pydict [(iDmass, "density"); (iHmass, "specific enthalpy"); (iP, "pressure");
          (iSmass, "specific entropy"); (iT, "temperature");
          (iUmass, "specific internal energy")].

Definition getattr_PROPERTIES (c : pyclass) : result (gmap Z string) :=
  match c with
  | BasePlot_cls => Ok PROPERTIES
  | IsoLine_cls => Raise (AttributeError "'IsoLine' object has no attribute 'PROPERTIES'")
  | Base2DObject_cls => Raise (AttributeError "'Base2DObject' object has no attribute 'PROPERTIES'")
  end.

(** The limits of the fluid in the property [kind], read after the handle
    was put on the saturated liquid line just above the triple point. *)
Definition fluid_bounds (self : Base2DObject) (kind : Z) : M (float * float) :=
  if kind =? iP then
    fluid_min ← state_keyed_output iP;
    Pc ← lift (trivial_keyed_output iP_critical);
    mret (fluid_min, fsub Pc (_P_small self))
  else if kind =? iT then
    fluid_min ← state_keyed_output iT;
    Tc ← lift (trivial_keyed_output iT_critical);
    mret (fluid_min, fsub Tc (_T_small self))
  else
    raise (ValueError "Saturation boundaries have to be defined in T or P").

(** The statements of [_get_sat_bounds] before the hints are looked at:
    the index of [kind] and the limits of the fluid. *)
Definition fluid_limits (self : Base2DObject) (kind : pyobj) : M (Z * float * float) :=
  T_triple ← lift (trivial_keyed_output iT_triple);
  T_min ← lift (trivial_keyed_output iT_min);
  state_update QT_INPUTS zero (fadd (py_max T_triple [T_min]) (_T_small self));;
  kind ← lift (_get_index kind);
  '(fluid_min, fluid_max) ← fluid_bounds self kind;
  mret (kind, fluid_min, fluid_max).

(** [self.PROPERTIES[kind]], the first argument of the two warnings. *)
Definition property_name (self : Base2DObject) (kind : Z) : result string :=
  props ← getattr_PROPERTIES (class_of self);
  getitem_dict props kind.

Definition _get_sat_bounds (self : Base2DObject) (kind : pyobj) (smin smax : option float)
    : M (float * float) :=
  '(kind, fluid_min, fluid_max) ← fluid_limits self kind;
  sat_min ←
    match smin with
    | Some smin =>
        if flt fluid_min smin && flt smin fluid_max then mret smin
        else
          name ← lift (property_name self kind);
          warn (MinimumIgnored name smin fluid_min fluid_max);;
          mret fluid_min
    | None => mret fluid_min
    end;
  sat_max ←
    match smax with
    | Some smax =>
        if flt fluid_min smax && flt smax fluid_max then mret smax
        else
          name ← lift (property_name self kind);
          warn (MaximumIgnored name smax fluid_min fluid_max);;
          mret fluid_max
    | None => mret fluid_max
    end;
  mret (sat_min, sat_max).

(** ** IsoLine *)

(** Normally a sweep runs over the x dimension, but sometimes a sweep over
    the y dimension is better; [None] marks an isoline that cannot be drawn. *)
Definition XY_SWITCH : gmap Z (gmap Z (option bool)) :=
  pydict [
    (iDmass, pydict [(TS, Some true); (PH, Some true); (HS, Some false); (PS, Some true);
                     (PD, None); (TD, None); (PT, Some false)]);
    (iHmass, pydict [(TS, Some false); (PH, None); (HS, None); (PS, Some true);
                     (PD, Some true); (TD, Some false); (PT, Some false)]);
    (iP,     pydict [(TS, Some false); (PH, None); (HS, Some false); (PS, None);
                     (PD, None); (TD, Some false); (PT, None)]);
    (iSmass, pydict [(TS, None); (PH, Some true); (HS, None); (PS, None);
                     (PD, Some true); (TD, Some false); (PT, Some true)]);
    (iT,     pydict [(TS, None); (PH, Some true); (HS, Some false); (PS, Some false);
                     (PD, Some false); (TD, None); (PT, None)]);
    (iQ,     pydict [(TS, Some true); (PH, Some true); (HS, Some true); (PS, Some true);
                     (PD, Some true); (TD, Some true); (PT, Some false)])
  ].

Record IsoLine : Type := mkIsoLine {
  base :> Base2DObject;
  _i_index : Z;
  _value : float;
  _x : option ndarray;
  _y : option ndarray
}.

Definition IsoLine__init__ (i_index x_index y_index : pyobj) (value : float)
    : result IsoLine :=
  b ← Base2DObject__init__ IsoLine_cls x_index y_index None;
  ii ← _get_index i_index;
  Ok (mkIsoLine b ii value None None).

Definition set_x (value : ndarray) (self : IsoLine) : IsoLine :=
  mkIsoLine (base self) (_i_index self) (_value self) (Some value) (_y self).

Definition set_y (value : ndarray) (self : IsoLine) : IsoLine :=
  mkIsoLine (base self) (_i_index self) (_value self) (_x self) (Some value).

(** The entry of [XY_SWITCH] for an isoline: the two subscriptions. *)
Definition switch_entry (i_index x_index y_index : Z) : result (option bool) :=
  row ← getitem_dict XY_SWITCH i_index;
  getitem_dict row (y_index * 10 + x_index).

Definition _get_update_pair (self : IsoLine) : result (Z * Z * Z * Z) :=
  switch ← switch_entry (_i_index self) (_x_index self) (_y_index self);
  match switch : option bool with
  | None => Raise (ValueError "This isoline cannot be calculated!")
  | Some switch =>
      let '(ipair, out1, _) :=
        if switch then generate_update_pair (_i_index self) zero (_y_index self) one
        else generate_update_pair (_i_index self) zero (_x_index self) one in
      let swap := negb (feqb out1 zero) in
      if negb switch && negb swap then Ok (0, 1, 2, ipair)
      else if switch && negb swap then Ok (0, 2, 1, ipair)
      else if negb switch && swap then Ok (1, 0, 2, ipair)
      else if switch && swap then Ok (1, 2, 0, ipair)
      else Raise (ValueError "Check the code, this should not happen!")
  end.

(** One pass of the loop of [calc_sat_range]. The handler starts from the
    arrays as the [try] block left them. *)
Definition sat_sample (self : IsoLine) (ipair : Z) (one two : ndarray)
    (XY : ndarray * ndarray) (index : nat) : M (ndarray * ndarray) := fun w =>
  let '(X, Y) := XY in
  let handler (X Y : ndarray) (e : exn) : M (ndarray * ndarray) :=
    a ← lift (getitem one index);
    b ← lift (getitem two index);
    warn (SampleError a b index e);;
    mret (<[index := NaN]> X, <[index := NaN]> Y) in
  match (a ← lift (getitem one index); b ← lift (getitem two index);
         state_update ipair a b) w with
  | (Raise e, w1) => handler X Y e w1
  | (Ok _, w1) =>
      match state_keyed_output (_x_index self) w1 with
      | (Raise e, w2) => handler X Y e w2
      | (Ok vx, w2) =>
          let X1 := <[index := vx]> X in
          match state_keyed_output (_y_index self) w2 with
          | (Raise e, w3) => handler X1 Y e w3
          | (Ok vy, w3) => (Ok (X1, <[index := vy]> Y), w3)
          end
      end
  end.

(** [for index in ...: acc = body acc index]. *)
Fixpoint for_each {A : Type} (body : A -> nat -> M A) (indices : list nat) (acc : A) : M A :=
  match indices with
  | [] => mret acc
  | index :: rest => acc' ← body acc index; for_each body rest acc'
  end.

(** The first statement of [calc_sat_range]: the two input arrays and the
    input pair. *)
Definition sat_inputs (self : IsoLine) (Trange Prange : option ndarray) (num : Z)
    : M (ndarray * ndarray * Z) :=
  match Trange, Prange with
  | Some Trange, _ =>
      let two := Trange in
      mret (np_resize [_value self] (length two), two, QT_INPUTS)
  | None, Some Prange =>
      let one := Prange in
      mret (one, np_resize [_value self] (length one), PQ_INPUTS)
  | None, None =>
      '(T_lo, T_hi) ← _get_sat_bounds self (PyInt iT) None None;
      two ← lift (np_linspace T_lo T_hi num);
      mret (np_resize [_value self] (length two), two, QT_INPUTS)
  end.

Definition calc_sat_range (self : IsoLine) (Trange Prange : option ndarray) (num : Z)
    : M IsoLine :=
  '(one, two, ipair) ← sat_inputs self Trange Prange num;
  let X := np_empty_like one in
  let Y := np_empty_like one in
  '(X, Y) ← for_each (sat_sample self ipair one two) (seq 0 (length one)) (X, Y);
  mret (set_y Y (set_x X self)).

(** [seq[i]] on a Python list. *)
Definition getitem_list {A : Type} (l : list A) (i : nat) : result A :=
  match l !! i with
  | Some v => Ok v
  | None => Raise (IndexError "list index out of range")
  end.

(** One pass of the loop of [calc_range], at the position [k] of the
    enumeration of [vals0]; [vals2] has the shape of [vals0]. The two inputs
    are subscripted with the index of [vals0], converted to [double] for
    [update] and formatted for the warning. *)
Definition range_sample (ipair : Z) (idxs : list Z) (vals0 vals1 : nparray)
    (vals2 : ndarray) (k : nat) : M ndarray :=
  let index := nd_index_of (shape_of vals0) k in
  try_except
    (a ← lift (getitem_nd vals0 index);
     b ← lift (getitem_nd vals1 index);
     a ← lift (as_double a);
     b ← lift (as_double b);
     state_update ipair a b;;
     out_index ← lift (getitem_list idxs 2);
     v ← state_keyed_output out_index;
     mret (<[k := v]> vals2))
    (fun e =>
     a ← lift (getitem_nd vals0 index);
     b ← lift (getitem_nd vals1 index);
     a ← lift (format_f a);
     b ← lift (format_f b);
     warn (SampleError a b k e);;
     mret (<[k := NaN]> vals2)).

(** The last loop of [calc_range]: the arrays go to [x] and [y] by the
    property they belong to. *)
Definition assign_xy (self : IsoLine) (idxs : list Z) (vals : list ndarray) : IsoLine :=
  foldl (fun (self : IsoLine) (iv : Z * ndarray) =>
           let self := if iv.1 =? _x_index self then set_x iv.2 self else self in
           if iv.1 =? _y_index self then set_y iv.2 self else self)
        self (zip idxs vals).

(** The two input arrays brought to one size: the smaller one is resized
    to the shape of the larger one. Arrays of the same size are left as they
    are, whatever their shapes. *)
Definition match_sizes (vals0 vals1 : nparray) : nparray * nparray :=
  if (length (data vals1) <? length (data vals0))%nat then (vals0, resize_like vals1 vals0)
  else if (length (data vals0) <? length (data vals1))%nat then (resize_like vals0 vals1, vals1)
  else (vals0, vals1).

(** The statements of [calc_range] before its loop: the input pair, the
    property indices by slot, and the two input arrays brought to one size.
    [np.array(self.value)] has dimension 0; the supplied arrays have
    dimension 1. *)
Definition range_inputs (self : IsoLine) (xvals yvals : option ndarray)
    : result (Z * list Z * nparray * nparray) :=
  '(ipos, xpos, ypos, ipair) ← _get_update_pair self;
  let order := [ipos; xpos; ypos] in
  let idxs := sorted_zip order [_i_index self; _x_index self; _y_index self] in
  let vals := sorted_zip order [Some (mkArray Shape0 [_value self]);
                                mkArray Shape1 <$> xvals; mkArray Shape1 <$> yvals] in
  vals0 ← getitem_list vals 0;
  vals1 ← getitem_list vals 1;
  match vals0 : option nparray, vals1 : option nparray with
  | Some vals0, Some vals1 =>
      let '(vals0, vals1) := match_sizes vals0 vals1 in
      Ok (ipair, idxs, vals0, vals1)
  | _, _ =>
      Raise (ValueError "One required input is missing, make sure to supply the correct xvals or yvals.")
  end.

Definition calc_range (self : IsoLine) (xvals yvals : option ndarray) : M IsoLine :=
  if _i_index self =? iQ then
    warn UseCalcSatRange;;
    match xvals, yvals with
    | Some xvals, _ => calc_sat_range self None None (Z.of_nat (length xvals))
    | None, Some yvals => calc_sat_range self None None (Z.of_nat (length yvals))
    | None, None => calc_sat_range self None None 200
    end
  else
    '(ipair, idxs, vals0, vals1) ← lift (range_inputs self xvals yvals);
    let vals2 := np_empty_like (data vals0) in
    vals2 ← for_each (range_sample ipair idxs vals0 vals1)
                     (seq 0 (length (data vals0))) vals2;
    mret (assign_xy self idxs [data vals0; data vals1; vals2]).

(** ** BasePlot *)

Record BasePlot : Type := mkBasePlot {
  plot_base :> Base2DObject;
  _system : UnitSystem
}.

Definition dimensions (s : UnitSystem) : gmap Z BaseDimension :=
  pydict [(iDmass, Units.D s); (iHmass, Units.H s); (iP, Units.P s);
          (iSmass, Units.S s); (iT, Units.T s); (iUmass, Units.U s); (iQ, Units.Q s)].

(** [BasePlot.__sat_bounds], the deprecated alias. *)
Definition BasePlot__sat_bounds (self : BasePlot) (kind : pyobj) (smin smax : option float)
    : M (float * float) :=
  warn DeprecatedSatBounds;;
  _get_sat_bounds self kind smin smax.

(** The body of the two nested loops of [get_axis_limits]: the state is set
    at one corner and the two axis properties are written to slot [i]. *)
Definition corner (x_index y_index : Z) (XY : list float * list float)
    (iPT : nat * (float * float)) : M (list float * list float) :=
  let '(X, Y) := XY in
  let '(i, (P, T)) := iPT in
  state_update PT_INPUTS P T;;
  vx ← state_keyed_output x_index;
  vy ← state_keyed_output y_index;
  mret (<[i := vx]> X, <[i := vy]> Y).

Fixpoint for_corners (x_index y_index : Z) (corners : list (nat * (float * float)))
    (XY : list float * list float) : M (list float * list float) :=
  match corners with
  | [] => mret XY
  | c :: rest => XY' ← corner x_index y_index XY c; for_corners x_index y_index rest XY'
  end.

(** [min(X)] and [max(X)] on a list; the empty list raises. *)
Definition list_min (X : list float) : result float :=
  match X with
  | [] => Raise (ValueError "min() arg is an empty sequence")
  | v :: rest => Ok (py_min v rest)
  end.

Definition list_max (X : list float) : result float :=
  match X with
  | [] => Raise (ValueError "max() arg is an empty sequence")
  | v :: rest => Ok (py_max v rest)
  end.

(** The pairs visited by [for T in Ts: for P in Ps: i += 1], with [i]. *)
Definition enumerate_corners (Ts Ps : list float) : list (nat * (float * float)) :=
  imap (fun (i : nat) (PT : float * float) => (i, PT))
       (flat_map (fun T : float => map (fun P : float => (P, T)) Ps) Ts).

Definition hi_factor : float := dec 2 1.
Definition lo_factor : float := dec 11 10.

(** The limits that [get_axis_limits] computes from the saturation bounds,
    in the units of the plot. *)
Definition corner_limits (self : BasePlot) (x_index y_index : Z)
    : M ((float * float) * (float * float)) :=
  '(T_lo, T_hi) ← _get_sat_bounds self (PyInt iT) None None;
  '(P_lo, P_hi) ← _get_sat_bounds self (PyInt iP) None None;
  let X := replicate 4 zero in
  let Y := replicate 4 zero in
  T_max ← lift (trivial_keyed_output iT_max);
  let Ts := [fmul lo_factor T_lo; py_min (fmul hi_factor T_hi) [T_max]] in
  let Ps := [fmul lo_factor P_lo; fmul hi_factor P_hi] in
  '(X, Y) ← for_corners x_index y_index (enumerate_corners Ts Ps) (X, Y);
  dim ← lift (getitem_dict (dimensions (_system self)) x_index);
  minX ← lift (list_min X);
  maxX ← lift (list_max X);
  let x_lim := (from_SI (quantity dim) minX, from_SI (quantity dim) maxX) in
  dim ← lift (getitem_dict (dimensions (_system self)) y_index);
  minY ← lift (list_min Y);
  maxY ← lift (list_max Y);
  let y_lim := (from_SI (quantity dim) minY, from_SI (quantity dim) maxY) in
  mret (x_lim, y_lim).

(** Either update the limits of an axis of the plot or get them. *)
Definition update_or_get_xlim (self : BasePlot) (x_index : Z) (x_lim : float * float)
    : M (float * float) :=
  if x_index =? _x_index self then
    autox ← read_axis get_autoscalex_on;
    if (autox : bool) then with_axis (set_xlim x_lim);; mret x_lim
    else read_axis get_xlim
  else mret x_lim.

Definition update_or_get_ylim (self : BasePlot) (y_index : Z) (y_lim : float * float)
    : M (float * float) :=
  if y_index =? _y_index self then
    autoy ← read_axis get_autoscaley_on;
    if (autoy : bool) then with_axis (set_ylim y_lim);; mret y_lim
    else read_axis get_ylim
  else mret y_lim.

Definition get_axis_limits (self : BasePlot) (x_index y_index : option Z) : M (list float) :=
  let x_index := match x_index with Some i => i | None => _x_index self end in
  let y_index := match y_index with Some i => i | None => _y_index self end in
  autox ← read_axis get_autoscalex_on;
  autoy ← read_axis get_autoscaley_on;
  '(x_lim, y_lim) ←
    (if negb (x_index =? _x_index self) || negb (y_index =? _y_index self) || autox || autoy
     then
       '(x_lim, y_lim) ← corner_limits self x_index y_index;
       x_lim ← update_or_get_xlim self x_index x_lim;
       y_lim ← update_or_get_ylim self y_index y_lim;
       mret (x_lim, y_lim)
     else
       x_lim ← read_axis get_xlim;
       y_lim ← read_axis get_ylim;
       mret (x_lim, y_lim));
  mret [x_lim.1; x_lim.2; y_lim.1; y_lim.2].

(** ** Notions used in the statements *)

(** The swap flag and the input pair of an isoline with a given switch:
    whether the held property comes second in the input pair, and the pair. *)
Definition swap_of (self : IsoLine) (switch : bool) : bool :=
  let other := if switch then _y_index self else _x_index self in
  negb (feqb (generate_update_pair (_i_index self) zero other one).1.2 zero).

Definition pair_of (self : IsoLine) (switch : bool) : Z :=
  let other := if switch then _y_index self else _x_index self in
  (generate_update_pair (_i_index self) zero other one).1.1.

(** The property that is swept, the property that is computed, the
    properties by slot and the two input arrays of [calc_range], for an
    isoline with a given switch and a given sweep array. *)
Definition sweep_index (self : IsoLine) (switch : bool) : Z :=
  if switch then _y_index self else _x_index self.

Definition output_index (self : IsoLine) (switch : bool) : Z :=
  if switch then _x_index self else _y_index self.

Definition slot_indices (self : IsoLine) (switch : bool) : list Z :=
  if swap_of self switch
  then [sweep_index self switch; _i_index self; output_index self switch]
  else [_i_index self; sweep_index self switch; output_index self switch].

Definition slot_arrays (self : IsoLine) (switch : bool) (sweep : ndarray)
    : nparray * nparray :=
  if swap_of self switch
  then match_sizes (mkArray Shape1 sweep) (mkArray Shape0 [_value self])
  else match_sizes (mkArray Shape0 [_value self]) (mkArray Shape1 sweep).

(** The data of the two input arrays. *)
Definition slot_inputs (self : IsoLine) (switch : bool) (sweep : ndarray)
    : ndarray * ndarray :=
  (data (slot_arrays self switch sweep).1, data (slot_arrays self switch sweep).2).

(** The sweep array as [calc_range] stores it: the slot that does not hold
    the value of the held property. *)
Definition stored_sweep (self : IsoLine) (switch : bool) (sweep : ndarray) : ndarray :=
  if swap_of self switch then (slot_inputs self switch sweep).1
  else (slot_inputs self switch sweep).2.

Definition missing_input : exn :=
  ValueError "One required input is missing, make sure to supply the correct xvals or yvals.".

(** The two errors of a sweep of one element: the held value, of dimension
    0, subscripted with [(0,)], and an array of dimension 1 formatted with
    ["{:f}"]. *)
Definition too_many_indices : exn := IndexError "too many indices for array".

Definition no_array_format : exn :=
  TypeError "unsupported format string passed to numpy.ndarray.__format__".

(** A computation [m] keeps the relation [R] between the world before and
    the world after it, whatever it returns. *)
Definition steps {A : Type} (R : World -> World -> Prop) (m : M A) : Prop :=
  forall w r w', m w = (r, w') -> R w w'.

(** No warning was issued and the axes were left alone. *)
Definition quiet (w w' : World) : Prop :=
  warned w' = warned w /\ axis w' = axis w.

(** Warnings and [update] calls were only added, and every added call
    satisfies [P]. *)
Definition grows (P : Z * float * float -> Prop) (w w' : World) : Prop :=
  exists lw lu,
    warned w' = (warned w ++ lw)%list /\
    updates w' = (updates w ++ lu)%list /\
    Forall P lu.

(** A hint of [_get_sat_bounds] is ignored when it is supplied and does
    not lie strictly between the limits of the fluid; the bound that is
    returned is the hint, or the limit of the fluid in its place. *)
Definition ignored_hint (fluid_min fluid_max : float) (hint : option float) : bool :=
  match hint with
  | Some v => negb (flt fluid_min v && flt v fluid_max)
  | None => false
  end.

Definition chosen_bound (fluid_min fluid_max : float) (hint : option float) (limit : float)
    : float :=
  match hint with
  | Some v => if flt fluid_min v && flt v fluid_max then v else limit
  | None => limit
  end.

Definition hint_warnings (name : string) (fluid_min fluid_max : float)
    (smin smax : option float) : list Warning :=
  (match smin with
   | Some v => if ignored_hint fluid_min fluid_max smin
               then [MinimumIgnored name v fluid_min fluid_max] else []
   | None => []
   end ++
   match smax with
   | Some v => if ignored_hint fluid_min fluid_max smax
               then [MaximumIgnored name v fluid_min fluid_max] else []
   | None => []
   end)%list.

(** The default value of [small]. *)
Definition default_small : Qc := Q2Qc (1 # 100000).

(** The handle is set to each corner [(P, T)] in turn and answers both
    axis properties: the readings, and the state that is left. *)
Inductive reads_corners (x_index y_index : Z)
    : AbstractState -> list (float * float) -> list (float * float) -> AbstractState -> Prop :=
| reads_nil (s : AbstractState) :
    reads_corners x_index y_index s [] [] s
| reads_cons (s s1 s' : AbstractState) (P T vx vy : float)
      (corners readings : list (float * float)) :
    update PT_INPUTS P T s = (Ok (), s1) ->
    keyed_output x_index s1 = Ok vx ->
    keyed_output y_index s1 = Ok vy ->
    reads_corners x_index y_index s1 corners readings s' ->
    reads_corners x_index y_index s ((P, T) :: corners) ((vx, vy) :: readings) s'.

(** The limits of one axis as [get_axis_limits] returns them, and the axes
    it leaves: an axis of the plot itself takes the computed limits when it
    autoscales and keeps its own limits when it does not; any other axis gets
    the computed limits. *)
Definition returned_xlim (self : BasePlot) (x_index : Z) (computed : float * float)
    (ax : Axes) : (float * float) * Axes :=
  if x_index =? _x_index self then
    if get_autoscalex_on ax then (computed, set_xlim computed ax)
    else (get_xlim ax, ax)
  else (computed, ax).

Definition returned_ylim (self : BasePlot) (y_index : Z) (computed : float * float)
    (ax : Axes) : (float * float) * Axes :=
  if y_index =? _y_index self then
    if get_autoscaley_on ax then (computed, set_ylim computed ax)
    else (get_ylim ax, ax)
  else (computed, ax).

(** Whether [get_axis_limits] computes limits at all. *)
Definition limits_not_set (self : BasePlot) (x_index y_index : Z) (ax : Axes) : bool :=
  negb (x_index =? _x_index self) || negb (y_index =? _y_index self)
  || get_autoscalex_on ax || get_autoscaley_on ax.

(** The state of the handle when a sweep over the inputs [vals0], [vals1]
    reaches [index]: every earlier sample has called [update] once. *)
Fixpoint state_before (ipair : Z) (vals0 vals1 : ndarray) (s : AbstractState)
    (index : nat) : AbstractState :=
  match index with
  | O => s
  | S j =>
      let s' := state_before ipair vals0 vals1 s j in
      match vals0 !! j, vals1 !! j with
      | Some a, Some b => (update ipair a b s').2
      | _, _ => s'
      end
  end.

(** What the handle answers for the sample [index] of a sweep of
    [calc_range]: the output property, or the exception of [update] or of
    [keyed_output]. *)
Definition range_outcome (ipair out_index : Z) (vals0 vals1 : ndarray)
    (s : AbstractState) (index : nat) : result float :=
  match vals0 !! index, vals1 !! index with
  | Some a, Some b =>
      let '(r, s') := update ipair a b (state_before ipair vals0 vals1 s index) in
      match r with
      | Ok _ => keyed_output out_index s'
      | Raise e => Raise e
      end
  | _, _ => Raise (IndexError "index out of bounds")
  end.

(** The same for a sweep of [calc_sat_range], which reads both axis
    properties. *)
Definition sat_outcome (ipair x_index y_index : Z) (one two : ndarray)
    (s : AbstractState) (index : nat) : result (float * float) :=
  match one !! index, two !! index with
  | Some a, Some b =>
      let '(r, s') := update ipair a b (state_before ipair one two s index) in
      match r with
      | Ok _ =>
          match keyed_output x_index s', keyed_output y_index s' with
          | Ok vx, Ok vy => Ok (vx, vy)
          | Raise e, _ => Raise e
          | Ok _, Raise e => Raise e
          end
      | Raise e => Raise e
      end
  | _, _ => Raise (IndexError "index out of bounds")
  end.

(** The cell, the warning and the [update] call that the sample [index]
    leaves behind. *)
Definition cell_of (r : result float) : float :=
  match r with
  | Ok v => v
  | Raise _ => NaN
  end.

Definition sample_warning {A : Type} (vals0 vals1 : ndarray) (index : nat) (r : result A)
    : list Warning :=
  match vals0 !! index, vals1 !! index, r with
  | Some a, Some b, Raise e => [SampleError a b index e]
  | _, _, _ => []
  end.

Definition sample_call (ipair : Z) (vals0 vals1 : ndarray) (index : nat)
    : list (Z * float * float) :=
  match vals0 !! index, vals1 !! index with
  | Some a, Some b => [(ipair, a, b)]
  | _, _ => []
  end.

(** The number of samples that [calc_range] asks of [calc_sat_range] for a
    quality isoline. *)
Definition sample_count (xvals yvals : option ndarray) : Z :=
  match xvals, yvals with
  | Some xvals, _ => Z.of_nat (length xvals)
  | None, Some yvals => Z.of_nat (length yvals)
  | None, None => 200
  end.

(** ** More of BasePlot *)

(** [set_axis_limits]: the limits are in the units of the plot. *)
Definition set_axis_limits (self : BasePlot) (limits : list float) : M () :=
  l0 ← lift (getitem_list limits 0);
  l1 ← lift (getitem_list limits 1);
  with_axis (set_xlim (l0, l1));;
  l2 ← lift (getitem_list limits 2);
  l3 ← lift (getitem_list limits 3);
  with_axis (set_ylim (l2, l3)).

(** [_set_axis_limits]: the limits are in SI units. *)
Definition _set_axis_limits (self : BasePlot) (limits : list float) : M () :=
  dim ← lift (getitem_dict (dimensions (_system self)) (_x_index self));
  l0 ← lift (getitem_list limits 0);
  l1 ← lift (getitem_list limits 1);
  with_axis (set_xlim (from_SI (quantity dim) l0, from_SI (quantity dim) l1));;
  dim ← lift (getitem_dict (dimensions (_system self)) (_y_index self));
  l2 ← lift (getitem_list limits 2);
  l3 ← lift (getitem_list limits 3);
  with_axis (set_ylim (from_SI (quantity dim) l2, from_SI (quantity dim) l3)).

(** [_get_axis_limits]: the limits of [get_axis_limits], back in SI units. *)
Definition _get_axis_limits (self : BasePlot) (x_index y_index : option Z) : M (list float) :=
  let x_index := match x_index with Some i => i | None => _x_index self end in
  let y_index := match y_index with Some i => i | None => _y_index self end in
  limits ← get_axis_limits self (Some x_index) (Some y_index);
  dim ← lift (getitem_dict (dimensions (_system self)) x_index);
  l0 ← lift (getitem_list limits 0);
  v0 ← lift (to_SI (quantity dim) l0);
  let limits := <[0%nat := v0]> limits in
  l1 ← lift (getitem_list limits 1);
  v1 ← lift (to_SI (quantity dim) l1);
  let limits := <[1%nat := v1]> limits in
  dim ← lift (getitem_dict (dimensions (_system self)) y_index);
  l2 ← lift (getitem_list limits 2);
  v2 ← lift (to_SI (quantity dim) l2);
  let limits := <[2%nat := v2]> limits in
  l3 ← lift (getitem_list limits 3);
  v3 ← lift (to_SI (quantity dim) l3);
  let limits := <[3%nat := v3]> limits in
  mret limits.

(** ** More notions used in the statements *)

(** The diagrams of [PLOTS], each as its y and x property, and the
    properties that have a row in [XY_SWITCH]. *)
Definition catalog : list (Z * Z) :=
  [(iT, iSmass); (iP, iHmass); (iHmass, iSmass); (iP, iSmass); (iP, iDmass);
   (iT, iDmass); (iP, iT)].

Definition held_properties : list Z := [iDmass; iHmass; iP; iSmass; iT; iQ].

Definition plot_key (yx : Z * Z) : Z := yx.1 * 10 + yx.2.

(** The seven properties that have a dimension in a unit system. *)
Definition dimension_keys : list Z := [iDmass; iHmass; iP; iSmass; iT; iUmass; iQ].

(** The axes keep the limits [x_lim] and [y_lim] that they are set to,
    first in x and then in y: reading the limits gives them back, and both
    directions have stopped autoscaling. *)
Definition limits_kept (x_lim y_lim : float * float) (ax : Axes) : Prop :=
  let ax' := set_ylim y_lim (set_xlim x_lim ax) in
  get_xlim ax' = x_lim /\ get_ylim ax' = y_lim /\
  get_autoscalex_on ax' = false /\ get_autoscaley_on ax' = false.

(** A computation [m] does not look at the warnings issued so far: run
    after any other list of warnings, it returns the same result, leaves the
    same handle, axes and calls, and adds the same warnings. *)
Definition warning_frame {A : Type} (m : M A) : Prop :=
  forall (w : World) (r : result A) (w' : World),
    m w = (r, w') ->
    exists lw : list Warning,
      warned w' = (warned w ++ lw)%list /\
      forall pre : list Warning,
        m (mkWorld (eos w) (axis w) pre (updates w)) =
          (r, mkWorld (eos w') (axis w') (pre ++ lw)%list (updates w')).

End Plots.

(** ** A small instance of the interfaces

    The constants are numbered in the order of CoolProp's enumerations.
    [generate_update_pair] orders the two keys increasingly. The handle
    remembers the last accepted inputs; [update] refuses a negative or
    not-a-number input; temperature reads the second input, pressure the
    first one, any other property their sum. *)
Module Toy.

Definition negative_or_nan (a : float) : bool := is_nan a || flt a zero.

Definition toy_generate_update_pair (key1 : Z) (value1 : float) (key2 : Z) (value2 : float)
    : Z * float * float :=
  if key1 <? key2 then (key1 * 100 + key2, value1, value2)
  else (key2 * 100 + key1, value2, value1).

Definition toy_update (ipair : Z) (v1 v2 : float) (s : option (Z * float * float))
    : result () * option (Z * float * float) :=
  if negative_or_nan v1 || negative_or_nan v2
  then (Raise (ValueError "input out of range"), None)
  else (Ok (), Some (ipair, v1, v2)).

Definition toy_keyed_output (key : Z) (s : option (Z * float * float)) : result float :=
  match s with
  | None => Raise (ValueError "the state has not been set")
  | Some (_, v1, v2) =>
      if key =? 16 then Ok v2
      else if key =? 17 then Ok v1
      else Ok (fadd v1 v2)
  end.

Definition toy_trivial_keyed_output (key : Z) : result float :=
  if key =? 6 then Ok (dec 600 1)
  else if key =? 9 then Ok (dec 20000000 1)
  else if key =? 10 then Ok (dec 270 1)
  else if key =? 12 then Ok (dec 273 1)
  else if key =? 13 then Ok (dec 1000 1)
  else Raise (ValueError "not a trivial parameter").

Definition toy_get_parameter_index (name : string) : result Z :=
  if String.eqb name "T" then Ok 16
  else if String.eqb name "P" then Ok 17
  else if String.eqb name "Q" then Ok 18
  else if String.eqb name "D" then Ok 29
  else if String.eqb name "H" then Ok 30
  else if String.eqb name "S" then Ok 31
  else if String.eqb name "U" then Ok 35
  else Raise (ValueError "unknown parameter").

Definition coolprop : CoolPropLib := {|
  iDmass := 29; iHmass := 30; iP := 17; iSmass := 31; iT := 16; iUmass := 35; iQ := 18;
  iT_critical := 6; iP_critical := 9; iT_triple := 10; iT_min := 12; iT_max := 13;
  QT_INPUTS := 1; PQ_INPUTS := 2; PT_INPUTS := 7;
  get_parameter_index := toy_get_parameter_index;
  generate_update_pair := toy_generate_update_pair;
  AbstractState := option (Z * float * float);
  update := toy_update;
  keyed_output := toy_keyed_output;
  trivial_keyed_output := toy_trivial_keyed_output
|}.

Definition numpy : NumPy := {| uninitialised := fun _ => dec 12345 1 |}.

Record toy_axes : Type := mkAxes {
  xlim : float * float;
  ylim : float * float;
  autoscalex : bool;
  autoscaley : bool
}.

Definition matplotlib : Matplotlib := {|
  Axes := toy_axes;
  get_xlim := xlim;
  get_ylim := ylim;
  set_xlim := fun l a => mkAxes l (ylim a) false (autoscaley a);
  set_ylim := fun l a => mkAxes (xlim a) l (autoscalex a) false;
  get_autoscalex_on := autoscalex;
  get_autoscaley_on := autoscaley
|}.

Definition fresh_axes : toy_axes := mkAxes (zero, one) (zero, one) true true.

Definition world0 : @World coolprop matplotlib :=
  @mkWorld coolprop matplotlib None fresh_axes [] [].

(** Objects on this handle: [T_small] and [P_small] are the critical values
    times the default [small]. *)
Definition base (c : pyclass) (x_index y_index : Z) : Base2DObject :=
  mkBase2DObject c x_index y_index (dec 1 100000)
    (fmul (dec 600 1) (dec 1 100000)) (fmul (dec 20000000 1) (dec 1 100000)).

(** An isobar at 1 bar on a T-s diagram, an isotherm at 300 K on a p-u
    diagram and on a p-h diagram, the saturated liquid line on a p-h
    diagram, an isentrope on a p-h diagram (its sweep comes first in the
    input pair), and a p-h plot in kSI units. *)
Definition isobar_TS : IsoLine := mkIsoLine (base IsoLine_cls 31 16) 17 (dec 100000 1) None None.
Definition isotherm_PU : IsoLine := mkIsoLine (base IsoLine_cls 35 17) 16 (dec 300 1) None None.
Definition isotherm_PH : IsoLine := mkIsoLine (base IsoLine_cls 30 17) 16 (dec 300 1) None None.
Definition quality_PH : IsoLine := mkIsoLine (base IsoLine_cls 30 17) 18 zero None None.
Definition isentrope_PH : IsoLine := mkIsoLine (base IsoLine_cls 30 17) 31 (dec 1000 1) None None.
Definition plot_PH : BasePlot := mkBasePlot (base BasePlot_cls 30 17) KSIunits.



End Toy.

(** * Properties *)

(** ** Round trip of the unit conversion *)

Lemma Qc_neq_by_num (n : Z) (d : positive) :
  Qnum (Qred (n # d)) <> 0%Z -> Q2Qc (n # d) <> 0%Qc.
Proof.
  intros Hn Heq. apply Hn.
  apply (f_equal this) in Heq. simpl in Heq. rewrite Heq. reflexivity.
Qed.

Lemma to_SI_from_SI_affine (q : BaseQuantity) (a m o x : Qc) :
  add_SI q = Fin a -> mul_SI q = Fin m -> off_SI q = Fin o -> m <> 0%Qc ->
  to_SI q (from_SI q (Fin x)) = Ok (Fin x).
Proof.
  intros Ha Hm Ho Hnz. unfold to_SI, from_SI. rewrite Ha, Hm, Ho. simpl.
  destruct (Qc_eq_dec m 0%Qc) as [E|_]; [contradiction|].
  simpl. do 2 f_equal. field. exact Hnz.
Qed.

Lemma from_SI_to_SI_affine (q : BaseQuantity) (a m o x : Qc) :
  add_SI q = Fin a -> mul_SI q = Fin m -> off_SI q = Fin o -> m <> 0%Qc ->
  exists y, to_SI q (Fin x) = Ok (Fin y) /\ from_SI q (Fin y) = Fin x.
Proof.
  intros Ha Hm Ho Hnz. unfold to_SI, from_SI. rewrite Ha, Hm, Ho. simpl.
  destruct (Qc_eq_dec m 0%Qc) as [E|_]; [contradiction|].
  eexists. split; [reflexivity|]. simpl. f_equal. field. exact Hnz.
Qed.

(** Every dimension of the three systems is affine with a non-zero slope. *)
Lemma unit_system_dimension_affine (name : string) (s : UnitSystem) (d : BaseDimension) :
  In (name, s) UNIT_SYSTEMS -> In d (all_dimensions s) ->
  exists a m o, add_SI d = Fin a /\ mul_SI d = Fin m /\ off_SI d = Fin o /\ m <> 0%Qc.
Proof.
  intros Hs Hd.
  assert (H1 : Q2Qc (1 # 1) <> 0%Qc) by (apply Qc_neq_by_num; vm_compute; discriminate).
  assert (H2 : Q2Qc (1 # 1000) <> 0%Qc) by (apply Qc_neq_by_num; vm_compute; discriminate).
  assert (H3 : Q2Qc (1 # 100000) <> 0%Qc) by (apply Qc_neq_by_num; vm_compute; discriminate).
  simpl in Hs.
  destruct Hs as [E|[E|[E|[]]]]; inversion E; subst; clear E;
    simpl in Hd; repeat (destruct Hd as [Hd|Hd]; [subst d; simpl; eauto 10|]);
    destruct Hd.
Qed.

(** C4: in each of the unit systems SI, KSI and EUR, and for each of its
    dimensions, [to_SI] and [from_SI] are inverse to each other on every finite
    value: [to_SI (from_SI x)] returns [x], and [to_SI x] returns a value that
    [from_SI] maps back to [x]. Arithmetic is exact (rounding is not part of
    the model). *)
Theorem unit_conversion_round_trip
    (name : string) (s : UnitSystem) (d : BaseDimension) (x : Qc) :
  In (name, s) UNIT_SYSTEMS -> In d (all_dimensions s) ->
  to_SI d (from_SI d (Fin x)) = Ok (Fin x) /\
  exists y, to_SI d (Fin x) = Ok (Fin y) /\ from_SI d (Fin y) = Fin x.
Proof.
  intros Hs Hd.
  destruct (unit_system_dimension_affine name s d Hs Hd) as (a & m & o & Ha & Hm & Ho & Hnz).
  split.
  - eapply to_SI_from_SI_affine; eauto.
  - eapply from_SI_to_SI_affine; eauto.
Qed.

Lemma unit_conversion_round_trip_witness :
  In ("EUR", EURunits) UNIT_SYSTEMS /\ In (Units.T EURunits) (all_dimensions EURunits) /\
  (to_SI (Units.T EURunits) (from_SI (Units.T EURunits) (Fin (Q2Qc (300 # 1)))) = Ok (Fin (Q2Qc (300 # 1))) /\
   exists y, to_SI (Units.T EURunits) (Fin (Q2Qc (300 # 1))) = Ok (Fin y) /\
             from_SI (Units.T EURunits) (Fin y) = Fin (Q2Qc (300 # 1))).
Proof.
  assert (Hs : In ("EUR", EURunits) UNIT_SYSTEMS) by (simpl; tauto).
  assert (Hd : In (Units.T EURunits) (all_dimensions EURunits)) by (simpl; tauto).
  split; [exact Hs|]. split; [exact Hd|].
  exact (unit_conversion_round_trip "EUR" EURunits (Units.T EURunits) (Q2Qc (300 # 1)) Hs Hd).
Defined.

(** ** Running computations in the world *)

Ltac perm3 :=
  solve [ reflexivity
        | apply perm_swap
        | apply perm_skip; apply perm_swap
        | etransitivity; [apply perm_swap|]; apply perm_skip; apply perm_swap
        | etransitivity; [apply perm_skip; apply perm_swap|]; apply perm_swap ].

Section Run.
Context `{CP : CoolPropLib} `{NP : NumPy} `{MPL : Matplotlib}.

Lemma bind_ok {A B : Type} (m : M A) (f : A -> M B) (w w' : World) (a : A) :
  m w = (Ok a, w') -> (m ≫= f) w = f a w'.
Proof. intros E. unfold mbind, M_bind. rewrite E. reflexivity. Qed.

Lemma bind_raise {A B : Type} (m : M A) (f : A -> M B) (w w' : World) (e : exn) :
  m w = (Raise e, w') -> (m ≫= f) w = (Raise e, w').
Proof. intros E. unfold mbind, M_bind. rewrite E. reflexivity. Qed.

Lemma lift_bind {A B : Type} (r : result A) (f : A -> M B) (w : World) :
  (lift r ≫= f) w = match r with Ok a => f a w | Raise e => (Raise e, w) end.
Proof. by destruct r. Qed.

Lemma lift_bind_ok {A B : Type} (r : result A) (f : A -> M B) (w : World) (a : A) :
  r = Ok a -> (lift r ≫= f) w = f a w.
Proof. intros ->. reflexivity. Qed.

Lemma lift_bind_raise {A B : Type} (r : result A) (f : A -> M B) (w : World) (e : exn) :
  r = Raise e -> (lift r ≫= f) w = (Raise e, w).
Proof. intros ->. reflexivity. Qed.

(** ** The case table of [_get_update_pair] *)

Lemma get_update_pair_eq (self : IsoLine) (switch : bool) :
  switch_entry (_i_index self) (_x_index self) (_y_index self) = Ok (Some switch) ->
  _get_update_pair self =
    Ok (match switch, swap_of self switch with
        | false, false => (0, 1, 2, pair_of self switch)
        | true, false => (0, 2, 1, pair_of self switch)
        | false, true => (1, 0, 2, pair_of self switch)
        | true, true => (1, 2, 0, pair_of self switch)
        end).
Proof.
  intros E. unfold _get_update_pair, swap_of, pair_of. rewrite E. simpl.
  destruct switch; simpl.
  - destruct (generate_update_pair _ _ (_y_index self) _) as [[p o1] o2]; simpl.
    destruct (feqb o1 zero); reflexivity.
  - destruct (generate_update_pair _ _ (_x_index self) _) as [[p o1] o2]; simpl.
    destruct (feqb o1 zero); reflexivity.
Qed.

(** C1: when the entry of [XY_SWITCH] for the held property and the diagram
    is [True] or [False], [_get_update_pair] returns the slots by the table
    (not switch, not swap) -> (0,1,2); (switch, not swap) -> (0,2,1);
    (not switch, swap) -> (1,0,2); (switch, swap) -> (1,2,0). The three slots
    are a permutation of 0, 1, 2, so exactly one of them is the output slot 2:
    the slot of y when switch is [False], the slot of x when it is [True].
    The result depends on the three property indices only, and resolving the
    pair inside a computation leaves the world as it was. *)
Theorem get_update_pair_case_table (self : IsoLine) (switch : bool) :
  switch_entry (_i_index self) (_x_index self) (_y_index self) = Ok (Some switch) ->
  exists ipos xpos ypos ipair,
    _get_update_pair self = Ok (ipos, xpos, ypos, ipair) /\
    (ipos, xpos, ypos) =
      (match switch, swap_of self switch with
       | false, false => (0, 1, 2)
       | true, false => (0, 2, 1)
       | false, true => (1, 0, 2)
       | true, true => (1, 2, 0)
       end) /\
    [ipos; xpos; ypos] ≡ₚ [0; 1; 2] /\
    length (filter (fun pos => pos = 2) [ipos; xpos; ypos]) = 1%nat /\
    (switch = false -> ypos = 2) /\
    (switch = true -> xpos = 2) /\
    (forall self' : IsoLine,
        _i_index self' = _i_index self -> _x_index self' = _x_index self ->
        _y_index self' = _y_index self ->
        _get_update_pair self' = _get_update_pair self) /\
    (forall w : World,
        lift (_get_update_pair self) w = (Ok (ipos, xpos, ypos, ipair), w)).
Proof.
  intros E. pose proof (get_update_pair_eq self switch E) as Hp.
  assert (Hdet : forall self' : IsoLine,
             _i_index self' = _i_index self -> _x_index self' = _x_index self ->
             _y_index self' = _y_index self ->
             _get_update_pair self' = _get_update_pair self).
  { intros self' Hi Hx Hy. unfold _get_update_pair. rewrite Hi, Hx, Hy. reflexivity. }
  destruct switch, (swap_of self _) eqn:Hs;
    do 4 eexists; (split; [exact Hp|]);
    (split; [reflexivity|]);
    (split; [|split; [reflexivity|split; [|split; [|split; [exact Hdet|]]]]]).
  all: try (intros; congruence).
  all: try (intros w; unfold lift; rewrite Hp; reflexivity).
  all: perm3.
Qed.

(** ** Unsupported isolines *)

Lemma switch_entry_raise (i x y : Z) (e : exn) :
  switch_entry i x y = Raise e -> e = KeyError i \/ e = KeyError (y * 10 + x).
Proof.
  unfold switch_entry, getitem_dict. simpl.
  destruct (XY_SWITCH !! i) as [row|]; simpl.
  - destruct (row !! (y * 10 + x)); [discriminate|]. intros [= <-]. by right.
  - intros [= <-]. by left.
Qed.

Lemma calc_range_not_quality (self : IsoLine) (xvals yvals : option ndarray) (w : World) :
  _i_index self <> iQ ->
  calc_range self xvals yvals w =
    ('(ipair, idxs, vals0, vals1) ← lift (range_inputs self xvals yvals);
     vals2 ← for_each (range_sample ipair idxs vals0 vals1)
                      (seq 0 (length (data vals0))) (np_empty_like (data vals0));
     mret (assign_xy self idxs [data vals0; data vals1; vals2])) w.
Proof.
  intros Hq. unfold calc_range.
  destruct (_i_index self =? iQ) eqn:E; [apply Z.eqb_eq in E; contradiction|reflexivity].
Qed.

Lemma calc_range_config_error (self : IsoLine) (xvals yvals : option ndarray)
    (w : World) (e : exn) :
  _i_index self <> iQ ->
  range_inputs self xvals yvals = Raise e ->
  calc_range self xvals yvals w = (Raise e, w).
Proof.
  intros Hq E. rewrite calc_range_not_quality by done.
  by apply lift_bind_raise.
Qed.

Lemma range_inputs_switch_raise (self : IsoLine) (xvals yvals : option ndarray) (e : exn) :
  switch_entry (_i_index self) (_x_index self) (_y_index self) = Raise e ->
  range_inputs self xvals yvals = Raise e.
Proof.
  intros E. unfold range_inputs, _get_update_pair. rewrite E. reflexivity.
Qed.

Lemma range_inputs_switch_none (self : IsoLine) (xvals yvals : option ndarray) :
  switch_entry (_i_index self) (_x_index self) (_y_index self) = Ok None ->
  range_inputs self xvals yvals = Raise (ValueError "This isoline cannot be calculated!").
Proof.
  intros E. unfold range_inputs, _get_update_pair. rewrite E. reflexivity.
Qed.

(** C2, as amended: for a held property other than quality, [calc_range]
    fails before any sample is evaluated when the entry of [XY_SWITCH] is
    [None] or absent; the world (the handle, the warnings, the list of
    [update] calls) is left as it was. An entry [None] raises the
    [ValueError] "This isoline cannot be calculated!"; an absent entry raises
    the [KeyError] of the failed subscription, on the held property when it
    has no row and on the diagram key when the row has no such column. *)
Theorem calc_range_unsupported_isoline
    (self : IsoLine) (xvals yvals : option ndarray) (w : World) :
  _i_index self <> iQ ->
  let key := _y_index self * 10 + _x_index self in
  (forall row, XY_SWITCH !! _i_index self = Some row -> row !! key = Some None ->
     calc_range self xvals yvals w =
       (Raise (ValueError "This isoline cannot be calculated!"), w)) /\
  (forall row, XY_SWITCH !! _i_index self = Some row -> row !! key = None ->
     calc_range self xvals yvals w = (Raise (KeyError key), w)) /\
  (XY_SWITCH !! _i_index self = None ->
     calc_range self xvals yvals w = (Raise (KeyError (_i_index self)), w)).
Proof.
  intros Hq key. repeat split.
  - intros row Hrow Hcol. apply calc_range_config_error; [done|].
    apply range_inputs_switch_none. unfold switch_entry, getitem_dict.
    rewrite Hrow. simpl. fold key. rewrite Hcol. reflexivity.
  - intros row Hrow Hcol. apply calc_range_config_error; [done|].
    apply range_inputs_switch_raise. unfold switch_entry, getitem_dict.
    rewrite Hrow. simpl. fold key. rewrite Hcol. reflexivity.
  - intros Hrow. apply calc_range_config_error; [done|].
    apply range_inputs_switch_raise. unfold switch_entry, getitem_dict.
    rewrite Hrow. reflexivity.
Qed.

(** ** Arrays *)

Lemma length_join_replicate {A : Type} (k : nat) (a : list A) :
  length (mjoin (replicate k a)) = (k * length a)%nat.
Proof.
  induction k as [|k IH]; simpl; [reflexivity|].
  rewrite length_app, IH. reflexivity.
Qed.

Lemma length_np_resize (a : ndarray) (n : nat) : length (np_resize a n) = n.
Proof.
  unfold np_resize.
  destruct (length a =? 0)%nat eqn:E0; [apply length_replicate|].
  apply Nat.eqb_neq in E0.
  pose proof (Nat.div_mod n (length a) E0) as Hdm.
  pose proof (Nat.mod_upper_bound n (length a) E0) as Hlt.
  destruct (n mod length a =? 0)%nat eqn:Er.
  - apply Nat.eqb_eq in Er. rewrite Nat.ltb_irrefl, length_join_replicate. lia.
  - apply Nat.eqb_neq in Er.
    destruct (0 <? length a - n mod length a)%nat eqn:Ex.
    + rewrite length_take, length_join_replicate. nia.
    + apply Nat.ltb_ge in Ex. lia.
Qed.

Lemma length_match_sizes (vals0 vals1 : nparray) :
  length (data (match_sizes vals0 vals1).1) = length (data (match_sizes vals0 vals1).2).
Proof.
  unfold match_sizes, resize_like.
  destruct (length (data vals1) <? length (data vals0))%nat eqn:E1; simpl.
  - by rewrite length_np_resize.
  - destruct (length (data vals0) <? length (data vals1))%nat eqn:E2; simpl.
    + by rewrite length_np_resize.
    + apply Nat.ltb_ge in E1, E2. lia.
Qed.

Lemma length_match_sizes_max (vals0 vals1 : nparray) :
  length (data (match_sizes vals0 vals1).1)
  = (length (data vals0) `max` length (data vals1))%nat.
Proof.
  unfold match_sizes, resize_like.
  destruct (length (data vals1) <? length (data vals0))%nat eqn:E1; simpl.
  - apply Nat.ltb_lt in E1. lia.
  - destruct (length (data vals0) <? length (data vals1))%nat eqn:E2; simpl.
    + rewrite length_np_resize. apply Nat.ltb_lt in E2. lia.
    + apply Nat.ltb_ge in E1, E2. lia.
Qed.

(** Arrays of different sizes get the same shape; so do arrays of the same
    shape. *)
Lemma shape_match_sizes (vals0 vals1 : nparray) :
  length (data vals0) <> length (data vals1) \/ shape_of vals0 = shape_of vals1 ->
  shape_of (match_sizes vals0 vals1).1 = shape_of (match_sizes vals0 vals1).2.
Proof.
  intros H. unfold match_sizes, resize_like.
  destruct (length (data vals1) <? length (data vals0))%nat eqn:E1; [reflexivity|].
  destruct (length (data vals0) <? length (data vals1))%nat eqn:E2; [reflexivity|].
  apply Nat.ltb_ge in E1, E2. destruct H as [H|H]; [lia|exact H].
Qed.

Lemma length_np_empty_like (a : ndarray) : length (np_empty_like a) = length a.
Proof. unfold np_empty_like. by rewrite length_map, length_seq. Qed.

(** ** The loop of [calc_range] *)

Section RangeLoop.
Variables (ipair out_index : Z) (idxs : list Z) (vals0 vals1 : nparray).
Variable s0 : AbstractState.
Hypothesis Hout : idxs !! 2%nat = Some out_index.
Hypothesis Hlen : length (data vals0) = length (data vals1).
Hypothesis Hshape : shape_of vals0 = shape_of vals1.
Hypothesis Hwf : shape_of vals0 = Shape0 -> length (data vals0) = 1%nat.

Let outcome := range_outcome ipair out_index (data vals0) (data vals1) s0.
Let before := state_before ipair (data vals0) (data vals1) s0.

(** Two arrays of the same shape are subscripted element by element. *)
Lemma getitem_nd_same_shape (a : nparray) (k : nat) :
  shape_of a = shape_of vals0 -> (k < length (data vals0))%nat ->
  getitem_nd a (nd_index_of (shape_of vals0) k) = Scalar <$> getitem (data a) k.
Proof.
  intros Ha Hk. unfold getitem_nd. rewrite Ha.
  destruct (shape_of vals0) eqn:Es; simpl; [|reflexivity].
  assert (k = 0%nat) as -> by (specialize (Hwf eq_refl); lia). reflexivity.
Qed.

Lemma range_sample_step (acc : ndarray) (k : nat) (w : World) :
  (k < length (data vals0))%nat ->
  eos w = before k ->
  exists w',
    range_sample ipair idxs vals0 vals1 acc k w = (Ok (<[k := cell_of (outcome k)]> acc), w') /\
    eos w' = before (S k) /\
    axis w' = axis w /\
    warned w' = (warned w ++ sample_warning (data vals0) (data vals1) k (outcome k))%list /\
    updates w' = (updates w ++ sample_call ipair (data vals0) (data vals1) k)%list.
Proof.
  intros Hk Hs.
  destruct (lookup_lt_is_Some_2 (data vals0) k Hk) as [a Ha].
  destruct (lookup_lt_is_Some_2 (data vals1) k ltac:(lia)) as [b Hb].
  unfold outcome, range_outcome, sample_warning, sample_call, before.
  simpl. rewrite Ha, Hb. fold before. rewrite <- Hs.
  unfold range_sample.
  rewrite (getitem_nd_same_shape vals0 k eq_refl Hk).
  rewrite (getitem_nd_same_shape vals1 k (eq_sym Hshape) Hk).
  unfold try_except, mbind, M_bind, lift, getitem, getitem_list,
    state_update, state_keyed_output, warn, mret, M_ret.
  rewrite Ha, Hb, Hout. simpl.
  destruct (update ipair a b (eos w)) as [[[]|e] s'] eqn:Eu; simpl.
  - destruct (keyed_output out_index s') as [v|e] eqn:Ek; simpl.
    + eexists. repeat split; simpl; try reflexivity. by rewrite app_nil_r.
    + eexists. repeat split; simpl; reflexivity.
  - eexists. repeat split; simpl; reflexivity.
Qed.

Lemma range_loop (m k : nat) (acc : ndarray) (w : World) :
  (k + m <= length (data vals0))%nat ->
  eos w = before k ->
  exists out w',
    for_each (range_sample ipair idxs vals0 vals1) (seq k m) acc w = (Ok out, w') /\
    length out = length acc /\
    (forall j, (k <= j < k + m)%nat -> (j < length acc)%nat ->
               out !! j = Some (cell_of (outcome j))) /\
    (forall j, ~ (k <= j < k + m)%nat -> out !! j = acc !! j) /\
    eos w' = before (k + m) /\
    axis w' = axis w /\
    warned w' = (warned w ++ flat_map (fun j => sample_warning (data vals0) (data vals1) j (outcome j)) (seq k m))%list /\
    updates w' = (updates w ++ flat_map (sample_call ipair (data vals0) (data vals1)) (seq k m))%list.
Proof.
  revert k acc w. induction m as [|m IH]; intros k acc w Hkm Hs.
  - exists acc, w. simpl. rewrite Nat.add_0_r, !app_nil_r.
    repeat split; try done. intros j Hj. lia.
  - destruct (range_sample_step acc k w ltac:(lia) Hs) as (w1 & E1 & Hs1 & Hax1 & Hw1 & Hu1).
    destruct (IH (S k) (<[k := cell_of (outcome k)]> acc) w1 ltac:(lia) Hs1)
      as (out & w2 & E2 & Hl2 & Hin2 & Hout2 & Hs2 & Hax2 & Hw2 & Hu2).
    exists out, w2. simpl. rewrite (bind_ok _ _ _ _ _ E1). split; [exact E2|].
    rewrite length_insert in Hl2, Hin2.
    split; [exact Hl2|]. split; [|split; [|split; [|split; [|split]]]].
    + intros j Hj Hjl. destruct (decide (j = k)) as [->|Hne].
      * rewrite Hout2 by lia. by apply list_lookup_insert_eq.
      * apply Hin2; lia.
    + intros j Hj. rewrite Hout2 by lia. apply list_lookup_insert_ne. lia.
    + rewrite Hs2. f_equal. lia.
    + congruence.
    + rewrite Hw2, Hw1. by rewrite <- app_assoc.
    + rewrite Hu2, Hu1. by rewrite <- app_assoc.
Qed.

End RangeLoop.

(** ** The inputs of [calc_range] *)

Lemma range_inputs_ok (self : IsoLine) (xvals yvals : option ndarray)
    (switch : bool) (sweep : ndarray) :
  switch_entry (_i_index self) (_x_index self) (_y_index self) = Ok (Some switch) ->
  (if switch then yvals else xvals) = Some sweep ->
  range_inputs self xvals yvals =
    Ok (pair_of self switch, slot_indices self switch,
        (slot_arrays self switch sweep).1, (slot_arrays self switch sweep).2).
Proof.
  intros E Hsw. unfold range_inputs. rewrite (get_update_pair_eq self switch E).
  unfold slot_indices, slot_arrays, sweep_index, output_index.
  destruct switch, (swap_of self _); subst; simpl;
    match goal with |- context [match_sizes ?a ?b] => destruct (match_sizes a b) end;
    reflexivity.
Qed.

Lemma range_inputs_missing (self : IsoLine) (xvals yvals : option ndarray) (switch : bool) :
  switch_entry (_i_index self) (_x_index self) (_y_index self) = Ok (Some switch) ->
  (if switch then yvals else xvals) = None ->
  range_inputs self xvals yvals = Raise missing_input.
Proof.
  intros E Hsw. unfold range_inputs. rewrite (get_update_pair_eq self switch E).
  destruct switch, (swap_of self _); subst; reflexivity.
Qed.

Lemma slot_indices_output (self : IsoLine) (switch : bool) :
  slot_indices self switch !! 2%nat = Some (output_index self switch).
Proof. unfold slot_indices. by destruct (swap_of self switch). Qed.

Lemma length_slot_inputs (self : IsoLine) (switch : bool) (sweep : ndarray) :
  length (slot_inputs self switch sweep).1 = length (slot_inputs self switch sweep).2 /\
  length (slot_inputs self switch sweep).1 = (length sweep `max` 1)%nat.
Proof.
  unfold slot_inputs, slot_arrays. cbn [fst snd]. destruct (swap_of self switch);
    (split; [apply length_match_sizes|rewrite length_match_sizes_max; simpl; lia]).
Qed.

(** Unless the sweep has exactly one element, the two input arrays have the
    same shape: the shape of the held value for an empty sweep, the shape
    of the sweep otherwise. *)
Lemma slot_arrays_shape (self : IsoLine) (switch : bool) (sweep : ndarray) :
  length sweep <> 1%nat ->
  shape_of (slot_arrays self switch sweep).1 = shape_of (slot_arrays self switch sweep).2 /\
  (shape_of (slot_arrays self switch sweep).1 = Shape0 ->
   length (data (slot_arrays self switch sweep).1) = 1%nat).
Proof.
  intros Hne. split.
  - unfold slot_arrays. destruct (swap_of self switch);
      apply shape_match_sizes; left; simpl; lia.
  - pose proof (length_slot_inputs self switch sweep) as [_ Hmax].
    unfold slot_inputs in Hmax. cbn [fst snd] in Hmax. rewrite Hmax.
    unfold slot_arrays, match_sizes, resize_like. simpl length.
    destruct (swap_of self switch);
      destruct sweep as [|v [|v' sweep]]; simpl; try done; lia.
Qed.

(** A sweep of one element keeps its shape, and so does the held value. *)
Lemma slot_arrays_one (self : IsoLine) (switch : bool) (v : float) :
  slot_arrays self switch [v] =
    if swap_of self switch then (mkArray Shape1 [v], mkArray Shape0 [_value self])
    else (mkArray Shape0 [_value self], mkArray Shape1 [v]).
Proof. unfold slot_arrays. by destruct (swap_of self switch). Qed.

Lemma length_stored_sweep (self : IsoLine) (switch : bool) (sweep : ndarray) :
  length (stored_sweep self switch sweep) = (length sweep `max` 1)%nat.
Proof.
  unfold stored_sweep. destruct (length_slot_inputs self switch sweep) as [H1 H2].
  destruct (swap_of self switch); congruence.
Qed.

(** A sweep that is not empty is stored as it was supplied. *)
Lemma stored_sweep_nonempty (self : IsoLine) (switch : bool) (sweep : ndarray) :
  sweep <> [] -> stored_sweep self switch sweep = sweep.
Proof.
  intros Hne. unfold stored_sweep, slot_inputs, slot_arrays, match_sizes.
  assert (0 < length sweep)%nat by (destruct sweep; [done|simpl; lia]).
  destruct (swap_of self switch); simpl.
  - destruct (1 <? length sweep)%nat eqn:E1; [reflexivity|].
    destruct (length sweep <? 1)%nat eqn:E2; [apply Nat.ltb_lt in E2; lia|reflexivity].
  - destruct (length sweep <? 1)%nat eqn:E2; [apply Nat.ltb_lt in E2; lia|].
    destruct (1 <? length sweep)%nat eqn:E1; reflexivity.
Qed.

Lemma np_resize_singleton (v : float) (n : nat) : np_resize [v] n = replicate n v.
Proof.
  unfold np_resize. simpl length. cbn [Nat.eqb].
  rewrite Nat.mod_1_r, Nat.div_1_r. cbn [Nat.eqb Nat.ltb Nat.leb].
  induction n as [|n IH]; [reflexivity|]. simpl. by rewrite IH.
Qed.

Lemma slot_inputs_nonempty (self : IsoLine) (switch : bool) (sweep : ndarray) :
  sweep <> [] ->
  slot_inputs self switch sweep =
    if swap_of self switch then (sweep, replicate (length sweep) (_value self))
    else (replicate (length sweep) (_value self), sweep).
Proof.
  intros Hne. unfold slot_inputs, slot_arrays, match_sizes, resize_like.
  destruct sweep as [|v [|v' sweep]]; [done| |].
  - by destruct (swap_of self switch).
  - destruct (swap_of self switch); cbn [data length Nat.ltb Nat.leb fst snd];
      by rewrite np_resize_singleton.
Qed.

(** The data of the two inputs, written out: an empty sweep becomes one
    zero, and the held value is repeated to the length of the sweep. *)
Lemma slot_inputs_eq (self : IsoLine) (switch : bool) (sweep : ndarray) :
  slot_inputs self switch sweep =
    (let swept := match sweep with [] => [zero] | _ => sweep end in
     let held := replicate (length swept) (_value self) in
     if swap_of self switch then (swept, held) else (held, swept)).
Proof.
  destruct sweep as [|v sweep].
  - unfold slot_inputs, slot_arrays. by destruct (swap_of self switch).
  - by rewrite slot_inputs_nonempty.
Qed.

(** With three different properties, the last loop of [calc_range] stores
    the sweep on its own axis and the computed array on the other one. *)
Lemma assign_xy_slots (self : IsoLine) (switch : bool) (sweep : ndarray) (out : ndarray) :
  _i_index self <> _x_index self -> _i_index self <> _y_index self ->
  _x_index self <> _y_index self ->
  let self' := assign_xy self (slot_indices self switch)
                 [(slot_inputs self switch sweep).1; (slot_inputs self switch sweep).2; out] in
  base self' = base self /\ _i_index self' = _i_index self /\ _value self' = _value self /\
  _x self' = Some (if switch then out else stored_sweep self switch sweep) /\
  _y self' = Some (if switch then stored_sweep self switch sweep else out).
Proof.
  intros Hix Hiy Hxy. unfold assign_xy, slot_indices, stored_sweep, sweep_index, output_index.
  destruct (slot_inputs self switch sweep) as [v0 v1].
  destruct (swap_of self switch); clear sweep.
  all: destruct self as [b i v x y]; simpl in *.
  all: assert (Hxx : (_x_index b =? _x_index b) = true) by apply Z.eqb_refl.
  all: assert (Hyy : (_y_index b =? _y_index b) = true) by apply Z.eqb_refl.
  all: assert (Hix' : (i =? _x_index b) = false) by by apply Z.eqb_neq.
  all: assert (Hiy' : (i =? _y_index b) = false) by by apply Z.eqb_neq.
  all: assert (Hxy' : (_x_index b =? _y_index b) = false) by by apply Z.eqb_neq.
  all: assert (Hyx' : (_y_index b =? _x_index b) = false) by (apply Z.eqb_neq; congruence).
  all: destruct switch; simpl;
    repeat (rewrite ?Hxx, ?Hyy, ?Hix', ?Hiy', ?Hxy', ?Hyx'; simpl);
    repeat split; reflexivity.
Qed.

(** A supported isoline with a sweep array that has not exactly one
    element runs the whole loop and returns; the computed array holds one
    cell for each sample. *)
Lemma calc_range_run (self : IsoLine) (xvals yvals : option ndarray)
    (switch : bool) (sweep : ndarray) (w : World) :
  _i_index self <> iQ ->
  switch_entry (_i_index self) (_x_index self) (_y_index self) = Ok (Some switch) ->
  (if switch then yvals else xvals) = Some sweep ->
  length sweep <> 1%nat ->
  let vals0 := (slot_inputs self switch sweep).1 in
  let vals1 := (slot_inputs self switch sweep).2 in
  let ipair := pair_of self switch in
  let outcome := range_outcome ipair (output_index self switch) vals0 vals1 (eos w) in
  let n := length vals0 in
  exists out w',
    calc_range self xvals yvals w =
      (Ok (assign_xy self (slot_indices self switch) [vals0; vals1; out]), w') /\
    length out = n /\
    (forall j, (j < n)%nat -> out !! j = Some (cell_of (outcome j))) /\
    eos w' = state_before ipair vals0 vals1 (eos w) n /\
    axis w' = axis w /\
    warned w' = (warned w ++ flat_map (fun j => sample_warning vals0 vals1 j (outcome j)) (seq 0 n))%list /\
    updates w' = (updates w ++ flat_map (sample_call ipair vals0 vals1) (seq 0 n))%list.
Proof.
  intros Hq E Hsw Hone vals0 vals1 ipair outcome n.
  destruct (length_slot_inputs self switch sweep) as [Hlen _].
  destruct (slot_arrays_shape self switch sweep Hone) as [Hshape Hwf].
  destruct (range_loop ipair (output_index self switch) (slot_indices self switch)
              (slot_arrays self switch sweep).1 (slot_arrays self switch sweep).2
              (eos w) (slot_indices_output self switch) Hlen Hshape Hwf
              n 0 (np_empty_like vals0) w
              ltac:(unfold n, vals0, slot_inputs; cbn [fst snd]; lia) eq_refl)
    as (out & w' & Eloop & Hl & Hin & _ & Hs & Hax & Hw & Hu).
  exists out, w'. rewrite calc_range_not_quality by done.
  rewrite (lift_bind_ok _ _ _ _ (range_inputs_ok self xvals yvals switch sweep E Hsw)).
  cbv beta iota. change (data (slot_arrays self switch sweep).1) with vals0.
  change (data (slot_arrays self switch sweep).2) with vals1.
  fold ipair n. rewrite (bind_ok _ _ _ _ _ Eloop).
  rewrite length_np_empty_like in Hl, Hin.
  split; [reflexivity|]. split; [exact Hl|]. split; [|done].
  intros j Hj. apply Hin; lia.
Qed.

(** ** A sweep of one element

    The held value is an array of dimension 0 and a sweep of one element is
    an array of dimension 1 of the same size, so neither is resized and the
    loop subscripts both with the index of the first one. *)

(** When the sweep comes first in the input pair, the held value is
    subscripted with [(0,)]: in the [try] block and again in the handler. *)
Lemma calc_range_one_element_swap (self : IsoLine) (xvals yvals : option ndarray)
    (switch : bool) (v : float) (w : World) :
  _i_index self <> iQ ->
  switch_entry (_i_index self) (_x_index self) (_y_index self) = Ok (Some switch) ->
  (if switch then yvals else xvals) = Some [v] ->
  swap_of self switch = true ->
  calc_range self xvals yvals w = (Raise too_many_indices, w).
Proof.
  intros Hq E Hsw Hswap. rewrite calc_range_not_quality by done.
  rewrite (lift_bind_ok _ _ _ _ (range_inputs_ok self xvals yvals switch [v] E Hsw)).
  rewrite slot_arrays_one, Hswap. reflexivity.
Qed.

(** When the held value comes first, the sweep is subscripted with [()]
    and goes to [update] as an array of one element; when the sample fails,
    the handler cannot format that array. *)
Lemma calc_range_one_element_no_swap (self : IsoLine) (xvals yvals : option ndarray)
    (switch : bool) (v : float) (w : World) :
  _i_index self <> iQ ->
  switch_entry (_i_index self) (_x_index self) (_y_index self) = Ok (Some switch) ->
  (if switch then yvals else xvals) = Some [v] ->
  swap_of self switch = false ->
  let ipair := pair_of self switch in
  calc_range self xvals yvals w =
    (match range_outcome ipair (output_index self switch) [_value self] [v] (eos w) 0 with
     | Ok c => Ok (assign_xy self (slot_indices self switch) [[_value self]; [v]; [c]])
     | Raise _ => Raise no_array_format
     end,
     mkWorld (update ipair (_value self) v (eos w)).2 (axis w) (warned w)
             (updates w ++ [(ipair, _value self, v)])%list).
Proof.
  intros Hq E Hsw Hswap ipair. rewrite calc_range_not_quality by done.
  rewrite (lift_bind_ok _ _ _ _ (range_inputs_ok self xvals yvals switch [v] E Hsw)).
  rewrite slot_arrays_one, Hswap. cbv beta iota. cbn [fst snd data length seq for_each].
  unfold range_outcome. cbn [lookup list_lookup state_before].
  unfold range_sample, try_except, mbind, M_bind, lift, state_update, state_keyed_output,
    warn, mret, M_ret, getitem_list.
  cbn [shape_of data nd_index_of getitem_nd as_double format_f fmap
    result_fmap getitem lookup list_lookup].
  fold ipair. rewrite (slot_indices_output self switch).
  destruct (update ipair (_value self) v (eos w)) as [[[]|e] s1]; cbn [fst snd eos].
  - destruct (keyed_output (output_index self switch) s1) as [c|e]; reflexivity.
  - reflexivity.
Qed.

(** ** The loop of [calc_sat_range] *)

Section SatLoop.
Variables (self : IsoLine) (ipair : Z) (one two : ndarray).
Variable s0 : AbstractState.
Hypothesis Hlen : length one = length two.

Let outcome := sat_outcome ipair (_x_index self) (_y_index self) one two s0.
Let before := state_before ipair one two s0.

Lemma sat_sample_step (X Y : ndarray) (k : nat) (w : World) :
  (k < length one)%nat ->
  eos w = before k ->
  exists w',
    sat_sample self ipair one two (X, Y) k w =
      (Ok (<[k := cell_of (fst <$> outcome k)]> X, <[k := cell_of (snd <$> outcome k)]> Y), w') /\
    eos w' = before (S k) /\
    axis w' = axis w /\
    warned w' = (warned w ++ sample_warning one two k (outcome k))%list /\
    updates w' = (updates w ++ sample_call ipair one two k)%list.
Proof.
  intros Hk Hs.
  destruct (lookup_lt_is_Some_2 one k Hk) as [a Ha].
  destruct (lookup_lt_is_Some_2 two k ltac:(lia)) as [b Hb].
  unfold outcome, sat_outcome, sample_warning, sample_call, before.
  simpl. rewrite Ha, Hb. fold before. rewrite <- Hs.
  unfold sat_sample, mbind, M_bind, lift, getitem,
    state_update, state_keyed_output, warn, mret, M_ret.
  rewrite Ha, Hb. simpl.
  destruct (update ipair a b (eos w)) as [[[]|e] s'] eqn:Eu; simpl.
  - destruct (keyed_output (_x_index self) s') as [vx|e] eqn:Ex; simpl.
    + destruct (keyed_output (_y_index self) s') as [vy|e] eqn:Ey; simpl.
      * eexists. repeat split; simpl; try reflexivity. by rewrite app_nil_r.
      * eexists. rewrite list_insert_insert_eq. repeat split; simpl; reflexivity.
    + eexists. repeat split; simpl; reflexivity.
  - eexists. repeat split; simpl; reflexivity.
Qed.

Lemma sat_loop (m k : nat) (X Y : ndarray) (w : World) :
  (k + m <= length one)%nat ->
  eos w = before k ->
  exists X' Y' w',
    for_each (sat_sample self ipair one two) (seq k m) (X, Y) w = (Ok (X', Y'), w') /\
    length X' = length X /\ length Y' = length Y /\
    (forall j, (k <= j < k + m)%nat ->
       ((j < length X)%nat -> X' !! j = Some (cell_of (fst <$> outcome j))) /\
       ((j < length Y)%nat -> Y' !! j = Some (cell_of (snd <$> outcome j)))) /\
    (forall j, ~ (k <= j < k + m)%nat -> X' !! j = X !! j /\ Y' !! j = Y !! j) /\
    eos w' = before (k + m) /\
    axis w' = axis w /\
    warned w' = (warned w ++ flat_map (fun j => sample_warning one two j (outcome j)) (seq k m))%list /\
    updates w' = (updates w ++ flat_map (sample_call ipair one two) (seq k m))%list.
Proof.
  revert k X Y w. induction m as [|m IH]; intros k X Y w Hkm Hs.
  - exists X, Y, w. simpl. rewrite Nat.add_0_r, !app_nil_r.
    repeat split; try done; lia.
  - destruct (sat_sample_step X Y k w ltac:(lia) Hs) as (w1 & E1 & Hs1 & Hax1 & Hw1 & Hu1).
    destruct (IH (S k) (<[k := cell_of (fst <$> outcome k)]> X)
                (<[k := cell_of (snd <$> outcome k)]> Y) w1 ltac:(lia) Hs1)
      as (X' & Y' & w2 & E2 & HlX & HlY & Hin2 & Hout2 & Hs2 & Hax2 & Hw2 & Hu2).
    exists X', Y', w2. simpl. rewrite (bind_ok _ _ _ _ _ E1). split; [exact E2|].
    rewrite length_insert in HlX, HlY.
    split; [exact HlX|]. split; [exact HlY|].
    split; [|split; [|split; [|split; [|split]]]].
    + intros j Hj. destruct (decide (j = k)) as [->|Hne].
      * destruct (Hout2 k ltac:(lia)) as [-> ->].
        split; intros; by apply list_lookup_insert_eq.
      * specialize (Hin2 j ltac:(lia)). by rewrite !length_insert in Hin2.
    + intros j Hj. destruct (Hout2 j ltac:(lia)) as [-> ->].
      split; apply list_lookup_insert_ne; lia.
    + rewrite Hs2. f_equal. lia.
    + congruence.
    + rewrite Hw2, Hw1. by rewrite <- app_assoc.
    + rewrite Hu2, Hu1. by rewrite <- app_assoc.
Qed.

End SatLoop.

(** ** Relations kept by a computation *)

Section Steps.
Context (R : World -> World -> Prop) `{!PreOrder R}.

Lemma steps_ret {A : Type} (a : A) : steps R (mret a).
Proof. intros w r w' [= <- <-]. reflexivity. Qed.

Lemma steps_lift {A : Type} (x : result A) : steps R (lift x).
Proof. intros w r w' [= <- <-]. reflexivity. Qed.

Lemma steps_raise {A : Type} (e : exn) : steps R (raise e : M A).
Proof. intros w r w' [= <- <-]. reflexivity. Qed.

Lemma steps_read_axis {A : Type} (f : Axes -> A) : steps R (read_axis f).
Proof. intros w r w' [= <- <-]. reflexivity. Qed.

Lemma steps_state_keyed_output (key : Z) : steps R (state_keyed_output key).
Proof. intros w r w' [= <- <-]. reflexivity. Qed.

Lemma steps_bind {A B : Type} (m : M A) (f : A -> M B) :
  steps R m -> (forall a, steps R (f a)) -> steps R (m ≫= f).
Proof.
  intros Hm Hf w r w'. unfold mbind, M_bind.
  destruct (m w) as [[a|e] w1] eqn:E.
  - intros E2. etransitivity; [exact (Hm _ _ _ E)|exact (Hf _ _ _ _ E2)].
  - intros [= <- <-]. exact (Hm _ _ _ E).
Qed.

Lemma steps_try_except {A : Type} (body : M A) (handler : exn -> M A) :
  steps R body -> (forall e, steps R (handler e)) -> steps R (try_except body handler).
Proof.
  intros Hb Hh w r w'. unfold try_except.
  destruct (body w) as [[a|e] w1] eqn:E.
  - intros [= <- <-]. exact (Hb _ _ _ E).
  - intros E2. etransitivity; [exact (Hb _ _ _ E)|exact (Hh _ _ _ _ E2)].
Qed.

Lemma steps_for_each {A : Type} (body : A -> nat -> M A) (indices : list nat) (acc : A) :
  (forall acc index, steps R (body acc index)) -> steps R (for_each body indices acc).
Proof.
  intros Hb. revert acc. induction indices as [|i l IH]; intros acc; simpl.
  - apply steps_ret.
  - apply steps_bind; [apply Hb|exact IH].
Qed.

End Steps.

#[local] Instance quiet_preorder : PreOrder quiet.
Proof.
  split.
  - by intros w.
  - intros w1 w2 w3 [H1 H2] [H3 H4]. split; congruence.
Qed.

#[local] Instance grows_preorder (P : Z * float * float -> Prop) : PreOrder (grows P).
Proof.
  split.
  - intros w. exists [], []. by rewrite !app_nil_r.
  - intros w1 w2 w3 (lw1 & lu1 & Hw1 & Hu1 & HP1) (lw2 & lu2 & Hw2 & Hu2 & HP2).
    exists (lw1 ++ lw2)%list, (lu1 ++ lu2)%list.
    rewrite Hw2, Hw1, Hu2, Hu1, !app_assoc. split; [done|]. split; [done|].
    by apply Forall_app.
Qed.

Create HintDb steps.

Ltac steps_through :=
  repeat first
    [ solve [auto with steps]
    | match goal with
      | |- steps ?R (mret _) => apply (steps_ret R)
      | |- steps ?R (lift _) => apply (steps_lift R)
      | |- steps ?R (raise _) => apply (steps_raise R)
      | |- steps ?R (read_axis _) => apply (steps_read_axis R)
      | |- steps ?R (state_keyed_output _) => apply (steps_state_keyed_output R)
      | |- steps ?R (_ ≫= _) => apply (steps_bind R); [|intros ?]
      | |- steps ?R (try_except _ _) => apply (steps_try_except R); [|intros ?]
      | |- steps ?R (for_each _ _ _) => apply (steps_for_each R); intros ? ?
      | |- steps _ (match ?x with _ => _ end) => destruct x
      | |- steps _ (let '(_, _) := ?x in _) => destruct x
      end ].

Lemma quiet_state_update (ipair : Z) (v1 v2 : float) : steps quiet (state_update ipair v1 v2).
Proof.
  intros w r w'. unfold state_update.
  destruct (update ipair v1 v2 (eos w)) as [r0 s]. by intros [= <- <-].
Qed.

Lemma quiet_fluid_bounds (self : Base2DObject) (kind : Z) : steps quiet (fluid_bounds self kind).
Proof. unfold fluid_bounds. steps_through. Qed.

#[local] Hint Resolve quiet_state_update quiet_fluid_bounds : steps.

(** ** The inputs of [calc_sat_range] *)

Lemma length_np_linspace (start stop : float) (num : Z) (a : ndarray) :
  np_linspace start stop num = Ok a -> length a = Z.to_nat num.
Proof.
  unfold np_linspace.
  destruct (num <? 0) eqn:E0; [discriminate|]. apply Z.ltb_ge in E0.
  destruct (num =? 0) eqn:E1; [apply Z.eqb_eq in E1; intros [= <-]; subst; reflexivity|].
  destruct (num =? 1) eqn:E2; [apply Z.eqb_eq in E2; intros [= <-]; subst; reflexivity|].
  apply Z.eqb_neq in E1, E2.
  destruct (fdiv _ _) as [step|e]; [|discriminate].
  intros [= <-]. rewrite length_app, length_map, length_seq. simpl. lia.
Qed.

(** Without hints, [_get_sat_bounds] issues no warning and leaves the axes. *)
Lemma get_sat_bounds_quiet (self : Base2DObject) (kind : pyobj) :
  steps quiet (_get_sat_bounds self kind None None).
Proof.
  unfold _get_sat_bounds, fluid_limits. steps_through.
Qed.

Lemma sat_inputs_ok (self : IsoLine) (Trange Prange : option ndarray) (num : Z)
    (w w1 : World) (one two : ndarray) (ipair : Z) :
  sat_inputs self Trange Prange num w = (Ok (one, two, ipair), w1) ->
  length one = length two /\
  warned w1 = warned w /\
  match Trange, Prange with
  | Some Trange, _ => length one = length Trange
  | None, Some Prange => length one = length Prange
  | None, None => length one = Z.to_nat num
  end.
Proof.
  unfold sat_inputs. destruct Trange as [Tr|]; [|destruct Prange as [Pr|]].
  - intros [= <- <- <- <-]. rewrite length_np_resize. done.
  - intros [= <- <- <- <-]. rewrite length_np_resize. done.
  - unfold mbind at 1, M_bind at 1.
    destruct (_get_sat_bounds self (PyInt iT) None None w) as [[[T_lo T_hi]|e] w0] eqn:Eb;
      [|discriminate].
    apply get_sat_bounds_quiet in Eb as [Hw _].
    unfold mbind, M_bind, lift.
    destruct (np_linspace T_lo T_hi num) as [a|e] eqn:El; [|discriminate].
    intros [= <- <- <- <-]. rewrite length_np_resize.
    apply length_np_linspace in El. done.
Qed.

Lemma calc_sat_range_run (self : IsoLine) (Trange Prange : option ndarray) (num : Z)
    (w w1 : World) (one two : ndarray) (ipair : Z) :
  sat_inputs self Trange Prange num w = (Ok (one, two, ipair), w1) ->
  let outcome := sat_outcome ipair (_x_index self) (_y_index self) one two (eos w1) in
  let n := length one in
  exists X Y w',
    calc_sat_range self Trange Prange num w = (Ok (set_y Y (set_x X self)), w') /\
    length X = n /\ length Y = n /\
    (forall j, (j < n)%nat ->
       X !! j = Some (cell_of (fst <$> outcome j)) /\
       Y !! j = Some (cell_of (snd <$> outcome j))) /\
    eos w' = state_before ipair one two (eos w1) n /\
    axis w' = axis w1 /\
    warned w' = (warned w ++ flat_map (fun j => sample_warning one two j (outcome j)) (seq 0 n))%list /\
    updates w' = (updates w1 ++ flat_map (sample_call ipair one two) (seq 0 n))%list.
Proof.
  intros E outcome n.
  destruct (sat_inputs_ok _ _ _ _ _ _ _ _ _ E) as (Hlen & Hw1 & _).
  destruct (sat_loop self ipair one two (eos w1) Hlen n 0
              (np_empty_like one) (np_empty_like one) w1 ltac:(simpl; lia) eq_refl)
    as (X & Y & w' & Eloop & HlX & HlY & Hin & _ & Hs & Hax & Hw & Hu).
  exists X, Y, w'. unfold calc_sat_range. rewrite (bind_ok _ _ _ _ _ E).
  simpl. fold n. rewrite (bind_ok _ _ _ _ _ Eloop).
  rewrite length_np_empty_like in HlX, HlY, Hin.
  split; [reflexivity|]. split; [exact HlX|]. split; [exact HlY|].
  split; [|rewrite <- Hw1; done].
  intros j Hj. destruct (Hin j ltac:(lia)) as [H1 H2]. split; [apply H1|apply H2]; lia.
Qed.

(** ** One failing sample *)

Lemma flat_map_seq_single {A : Type} (f : nat -> list A) (n a k : nat) :
  (a <= k < a + n)%nat ->
  (forall j, (a <= j < a + n)%nat -> j <> k -> f j = []) ->
  flat_map f (seq a n) = f k.
Proof.
  revert a. induction n as [|n IH]; intros a Hk Hnil; [lia|].
  simpl. destruct (decide (a = k)) as [->|Hne].
  - assert (Hrest : flat_map f (seq (S k) n) = []).
    { clear IH Hk. assert (Hn : forall j, (S k <= j < S k + n)%nat -> f j = [])
        by (intros j Hj; apply Hnil; lia).
      clear Hnil. generalize dependent (S k). induction n as [|n IHn]; intros b Hn; [done|].
      simpl. rewrite (Hn b) by lia. apply IHn. intros j Hj. apply Hn. lia. }
    rewrite Hrest. apply app_nil_r.
  - rewrite (Hnil a) by lia. simpl. apply IH; [lia|]. intros j Hj. apply Hnil. lia.
Qed.

Lemma sample_warning_ok {A : Type} (vals0 vals1 : ndarray) (j : nat) (v : A) :
  sample_warning vals0 vals1 j (Ok v) = [].
Proof. unfold sample_warning. by destruct (vals0 !! j), (vals1 !! j). Qed.

Lemma is_ok_false {A : Type} (r : result A) : is_ok r = false -> exists e, r = Raise e.
Proof. destruct r; [discriminate|eauto]. Qed.

Lemma is_ok_true {A : Type} (r : result A) : is_ok r <> false -> exists v, r = Ok v.
Proof. destruct r; [eauto|done]. Qed.

(** C3: a sweep in which the handle fails at exactly one sample [kbad]
    returns, except for a sweep of [calc_range] over an array of exactly one
    element. In [calc_range] over an array that has not exactly one element
    (first part) the computed array has one cell for each sample,
    not-a-number at [kbad] and the value read from the handle everywhere
    else, the sweep array is stored beside it with the same length, and
    exactly one warning was issued, which carries the two inputs of the
    failed sample, its index and the exception; the two inputs of the sweep
    are the sweep array, or one zero when it is empty, and the held value
    repeated to its length. In [calc_sat_range] (second
    part) the same holds with both arrays computed: [x] and [y] are
    not-a-number at [kbad] and hold the two values read from the handle at
    every other index. In [calc_range] over an array of one element (third
    part) the failing sample aborts the call: the held value has dimension 0
    and the sweep dimension 1, so when the sweep comes first in the input
    pair the call raises [IndexError] before the handle is touched, and when
    the held value comes first and the handle fails, the handler raises
    while it formats its warning; no warning is issued and no array is
    stored. *)
Theorem sweep_isolates_failing_sample :
  (forall (self : IsoLine) (xvals yvals : option ndarray) (switch : bool)
          (sweep : ndarray) (w : World) (kbad : nat),
      _i_index self <> iQ ->
      _i_index self <> _x_index self -> _i_index self <> _y_index self ->
      _x_index self <> _y_index self ->
      switch_entry (_i_index self) (_x_index self) (_y_index self) = Ok (Some switch) ->
      (if switch then yvals else xvals) = Some sweep ->
      length sweep <> 1%nat ->
      let vals0 := (slot_inputs self switch sweep).1 in
      let vals1 := (slot_inputs self switch sweep).2 in
      let outcome := range_outcome (pair_of self switch) (output_index self switch)
                       vals0 vals1 (eos w) in
      let n := (length sweep `max` 1)%nat in
      (kbad < n)%nat ->
      (forall j, (j < n)%nat -> is_ok (outcome j) = false <-> j = kbad) ->
      exists (self' : IsoLine) (w' : World) (out : ndarray) (a b : float) (e : exn),
        calc_range self xvals yvals w = (Ok self', w') /\
        _x self' = Some (if switch then out else stored_sweep self switch sweep) /\
        _y self' = Some (if switch then stored_sweep self switch sweep else out) /\
        length out = n /\ length (stored_sweep self switch sweep) = n /\
        out !! kbad = Some NaN /\
        (forall j, (j < n)%nat -> j <> kbad ->
           exists v, outcome j = Ok v /\ out !! j = Some v) /\
        vals0 !! kbad = Some a /\ vals1 !! kbad = Some b /\ outcome kbad = Raise e /\
        warned w' = (warned w ++ [SampleError a b kbad e])%list /\
        (vals0, vals1) =
          (let swept := match sweep with [] => [zero] | _ => sweep end in
           let held := replicate (length swept) (_value self) in
           if swap_of self switch then (swept, held) else (held, swept))) /\
  (forall (self : IsoLine) (Trange Prange : option ndarray) (num : Z)
          (w w1 : World) (one two : ndarray) (ipair : Z) (kbad : nat),
      sat_inputs self Trange Prange num w = (Ok (one, two, ipair), w1) ->
      let outcome := sat_outcome ipair (_x_index self) (_y_index self) one two (eos w1) in
      let n := length one in
      (kbad < n)%nat ->
      (forall j, (j < n)%nat -> is_ok (outcome j) = false <-> j = kbad) ->
      exists (self' : IsoLine) (w' : World) (X Y : ndarray) (a b : float) (e : exn),
        calc_sat_range self Trange Prange num w = (Ok self', w') /\
        _x self' = Some X /\ _y self' = Some Y /\
        length X = n /\ length Y = n /\
        match Trange, Prange with
        | Some Trange, _ => n = length Trange
        | None, Some Prange => n = length Prange
        | None, None => n = Z.to_nat num
        end /\
        X !! kbad = Some NaN /\ Y !! kbad = Some NaN /\
        (forall j, (j < n)%nat -> j <> kbad ->
           exists vx vy, outcome j = Ok (vx, vy) /\ X !! j = Some vx /\ Y !! j = Some vy) /\
        one !! kbad = Some a /\ two !! kbad = Some b /\ outcome kbad = Raise e /\
        warned w' = (warned w ++ [SampleError a b kbad e])%list) /\
  (forall (self : IsoLine) (xvals yvals : option ndarray) (switch : bool)
          (v : float) (w : World),
      _i_index self <> iQ ->
      switch_entry (_i_index self) (_x_index self) (_y_index self) = Ok (Some switch) ->
      (if switch then yvals else xvals) = Some [v] ->
      (swap_of self switch = true ->
         exists msg : string,
           calc_range self xvals yvals w = (Raise (IndexError msg), w)) /\
      (swap_of self switch = false ->
       forall e : exn,
         range_outcome (pair_of self switch) (output_index self switch)
           [_value self] [v] (eos w) 0 = Raise e ->
         exists (e' : exn) (w' : World),
           calc_range self xvals yvals w = (Raise e', w') /\
           warned w' = warned w /\
           updates w' = (updates w ++ [(pair_of self switch, _value self, v)])%list)).
Proof.
  split; [|split].
  - intros self xvals yvals switch sweep w kbad Hq Hix Hiy Hxy E Hsw Hlen1 vals0 vals1
      outcome n Hk Hone.
    destruct (calc_range_run self xvals yvals switch sweep w Hq E Hsw Hlen1)
      as (out & w' & Erun & Hl & Hcells & _ & _ & Hw & _).
    destruct (length_slot_inputs self switch sweep) as [Hlen Hn].
    fold vals0 vals1 in Hlen, Hn, Hl, Hcells, Hw, Erun. fold outcome in Hcells, Hw.
    fold n in Hn. rewrite Hn in Hl, Hcells, Hw.
    destruct (assign_xy_slots self switch sweep out Hix Hiy Hxy) as (_ & _ & _ & Hx & Hy).
    fold vals0 vals1 in Hx, Hy.
    destruct (is_ok_false (outcome kbad)) as [e He]; [by apply Hone|].
    destruct (lookup_lt_is_Some_2 vals0 kbad ltac:(lia)) as [a Ha].
    destruct (lookup_lt_is_Some_2 vals1 kbad ltac:(lia)) as [b Hb].
    eexists _, w', out, a, b, e.
    split; [exact Erun|]. split; [exact Hx|]. split; [exact Hy|].
    split; [exact Hl|]. split; [apply length_stored_sweep|].
    split; [rewrite Hcells by done; by rewrite He|].
    split; [|split; [exact Ha|split; [exact Hb|split; [exact He|split]]]].
    + intros j Hj Hne. destruct (is_ok_true (outcome j)) as [v Hv]; [by rewrite Hone|].
      exists v. split; [exact Hv|]. rewrite Hcells by done. by rewrite Hv.
    + rewrite Hw. f_equal.
      rewrite (flat_map_seq_single _ n 0 kbad) by
        (first [lia | intros j Hj Hne; destruct (is_ok_true (outcome j)) as [v ->];
                        [rewrite Hone; lia | apply sample_warning_ok]]).
      unfold sample_warning. by rewrite Ha, Hb, He.
    + unfold vals0, vals1. rewrite <- surjective_pairing. apply slot_inputs_eq.
  - intros self Trange Prange num w w1 one two ipair kbad E outcome n Hk Hone.
    destruct (calc_sat_range_run self Trange Prange num w w1 one two ipair E)
      as (X & Y & w' & Erun & HlX & HlY & Hcells & _ & _ & Hw & _).
    destruct (sat_inputs_ok _ _ _ _ _ _ _ _ _ E) as (Hlen & _ & Hexp).
    fold outcome in Hcells, Hw. fold n in HlX, HlY, Hcells, Hw, Hexp.
    destruct (is_ok_false (outcome kbad)) as [e He]; [by apply Hone|].
    destruct (lookup_lt_is_Some_2 one kbad ltac:(lia)) as [a Ha].
    destruct (lookup_lt_is_Some_2 two kbad ltac:(lia)) as [b Hb].
    eexists _, w', X, Y, a, b, e.
    split; [exact Erun|]. split; [reflexivity|]. split; [reflexivity|].
    split; [exact HlX|]. split; [exact HlY|]. split; [exact Hexp|].
    destruct (Hcells kbad Hk) as [HX HY]. rewrite He in HX, HY.
    split; [exact HX|]. split; [exact HY|].
    split; [|split; [exact Ha|split; [exact Hb|split; [exact He|]]]].
    + intros j Hj Hne. destruct (is_ok_true (outcome j)) as [[vx vy] Hv]; [by rewrite Hone|].
      exists vx, vy. destruct (Hcells j Hj) as [HXj HYj]. rewrite Hv in HXj, HYj. done.
    + rewrite Hw. f_equal.
      rewrite (flat_map_seq_single _ n 0 kbad) by
        (first [lia | intros j Hj Hne; destruct (is_ok_true (outcome j)) as [v ->];
                        [rewrite Hone; lia | apply sample_warning_ok]]).
      unfold sample_warning. by rewrite Ha, Hb, He.
  - intros self xvals yvals switch v w Hq E Hsw. split.
    + intros Hswap. eexists.
      by apply (calc_range_one_element_swap self xvals yvals switch v).
    + intros Hswap e He.
      rewrite (calc_range_one_element_no_swap self xvals yvals switch v w Hq E Hsw Hswap).
      rewrite He. do 2 eexists. split; [reflexivity|]. split; reflexivity.
Qed.

(** ** The required sweep array *)

Lemma is_ok_calc_range_supplied (self : IsoLine) (xvals yvals : option ndarray)
    (switch : bool) (sweep : ndarray) (w : World) :
  _i_index self <> iQ ->
  switch_entry (_i_index self) (_x_index self) (_y_index self) = Ok (Some switch) ->
  (if switch then yvals else xvals) = Some sweep ->
  (calc_range self xvals yvals w).1 <> Raise missing_input.
Proof.
  intros Hq E Hsw.
  destruct (decide (length sweep = 1%nat)) as [Hone|Hone].
  - destruct sweep as [|v [|? ?]]; try discriminate.
    destruct (swap_of self switch) eqn:Hswap.
    + by rewrite (calc_range_one_element_swap self xvals yvals switch v w Hq E Hsw Hswap).
    + rewrite (calc_range_one_element_no_swap self xvals yvals switch v w Hq E Hsw Hswap).
      cbn [fst]. by destruct (range_outcome _ _ _ _ _ _).
  - destruct (calc_range_run self xvals yvals switch sweep w Hq E Hsw Hone)
      as (out & w' & -> & _). done.
Qed.

Lemma calc_range_same_inputs (self : IsoLine) (xvals yvals xvals' yvals' : option ndarray)
    (w : World) :
  _i_index self <> iQ ->
  range_inputs self xvals yvals = range_inputs self xvals' yvals' ->
  calc_range self xvals yvals w = calc_range self xvals' yvals' w.
Proof.
  intros Hq E. rewrite !calc_range_not_quality by done.
  by rewrite !lift_bind, E.
Qed.

(** C6, as amended: for a held property other than quality and a supported
    diagram, the array of the swept axis ([xvals] when the switch is [False],
    [yvals] when it is [True]) must be supplied. Without it the call fails
    with the "missing input" [ValueError] before any sample is evaluated (the
    world is left as it was); this is the case when neither array is supplied.
    With it the "missing input" error is not raised, whether or not the
    other array is supplied. *)
Theorem calc_range_requires_sweep_array
    (self : IsoLine) (xvals yvals : option ndarray) (switch : bool) (w : World) :
  _i_index self <> iQ ->
  switch_entry (_i_index self) (_x_index self) (_y_index self) = Ok (Some switch) ->
  ((if switch then yvals else xvals) = None ->
     calc_range self xvals yvals w = (Raise missing_input, w)) /\
  ((if switch then yvals else xvals) <> None ->
     (calc_range self xvals yvals w).1 <> Raise missing_input) /\
  (xvals = None -> yvals = None ->
     calc_range self xvals yvals w = (Raise missing_input, w)).
Proof.
  intros Hq E.
  assert (Hmiss : (if switch then yvals else xvals) = None ->
                  calc_range self xvals yvals w = (Raise missing_input, w)).
  { intros Hsw. apply calc_range_config_error; [done|]. by eapply range_inputs_missing. }
  split; [exact Hmiss|]. split.
  - intros Hsw. destruct (if switch then yvals else xvals) as [sweep|] eqn:Es; [|done].
    by apply (is_ok_calc_range_supplied self xvals yvals switch sweep).
  - intros -> ->. apply Hmiss. by destruct switch.
Qed.

(** C10: when both arrays are supplied for a held property other than
    quality on a supported diagram, the array of the computed axis is
    ignored: the call equals the call with any other array, or none, in its
    place (first part). The other array is the sweep. When it has not
    exactly one element (second part), [calc_range] raises nothing: the
    sweep is stored on its own axis, resized by [numpy.resize] to at least
    one sample and unchanged when it is not empty, and the computed axis
    receives an array of the same length whose cells are the values read
    from the handle, or not-a-number where the handle failed; the two inputs
    of the sweep are the sweep array, or one zero when it is empty, and the
    held value repeated to its length. When it has
    exactly one element and comes first in the input pair (third part), the
    call raises [IndexError] although both arrays were supplied and before
    the handle is touched: the held value, an array of dimension 0, is
    subscripted with the index [(0,)] of the sweep. *)
Theorem calc_range_ignores_output_array
    (self : IsoLine) (xvals yvals : ndarray) (switch : bool) (w : World) :
  _i_index self <> iQ ->
  _i_index self <> _x_index self -> _i_index self <> _y_index self ->
  _x_index self <> _y_index self ->
  switch_entry (_i_index self) (_x_index self) (_y_index self) = Ok (Some switch) ->
  let sweep := if switch then yvals else xvals in
  let vals0 := (slot_inputs self switch sweep).1 in
  let vals1 := (slot_inputs self switch sweep).2 in
  let outcome := range_outcome (pair_of self switch) (output_index self switch)
                   vals0 vals1 (eos w) in
  (forall xvals' yvals' : option ndarray,
      (if switch then yvals' else xvals') = Some sweep ->
      calc_range self xvals' yvals' w = calc_range self (Some xvals) (Some yvals) w) /\
  (length sweep <> 1%nat ->
   exists (self' : IsoLine) (w' : World) (out : ndarray),
     calc_range self (Some xvals) (Some yvals) w = (Ok self', w') /\
     _x self' = Some (if switch then out else stored_sweep self switch sweep) /\
     _y self' = Some (if switch then stored_sweep self switch sweep else out) /\
     length out = (length sweep `max` 1)%nat /\
     length (stored_sweep self switch sweep) = (length sweep `max` 1)%nat /\
     (sweep <> [] -> stored_sweep self switch sweep = sweep) /\
     (forall j, (j < length sweep `max` 1)%nat -> out !! j = Some (cell_of (outcome j))) /\
     (vals0, vals1) =
       (let swept := match sweep with [] => [zero] | _ => sweep end in
        let held := replicate (length swept) (_value self) in
        if swap_of self switch then (swept, held) else (held, swept))) /\
  (length sweep = 1%nat -> swap_of self switch = true ->
   exists msg : string,
     calc_range self (Some xvals) (Some yvals) w = (Raise (IndexError msg), w)).
Proof.
  intros Hq Hix Hiy Hxy E sweep vals0 vals1 outcome.
  assert (Hsw : (if switch then Some yvals else Some xvals) = Some sweep)
    by (unfold sweep; by destruct switch).
  split; [|split].
  - intros xvals' yvals' Hsw'. apply calc_range_same_inputs; [done|].
    rewrite (range_inputs_ok self xvals' yvals' switch sweep E Hsw').
    by rewrite (range_inputs_ok self (Some xvals) (Some yvals) switch sweep E Hsw).
  - intros Hone.
    destruct (calc_range_run self (Some xvals) (Some yvals) switch sweep w Hq E Hsw Hone)
      as (out & w' & Erun & Hl & Hcells & _).
    destruct (length_slot_inputs self switch sweep) as [_ Hn].
    destruct (assign_xy_slots self switch sweep out Hix Hiy Hxy) as (_ & _ & _ & Hx & Hy).
    fold vals0 vals1 in Hn, Hl, Hcells, Hx, Hy, Erun. fold outcome in Hcells.
    rewrite Hn in Hl, Hcells.
    eexists _, w', out. split; [exact Erun|]. split; [exact Hx|]. split; [exact Hy|].
    split; [exact Hl|]. split; [apply length_stored_sweep|].
    split; [apply stored_sweep_nonempty|]. split; [exact Hcells|].
    unfold vals0, vals1. rewrite <- surjective_pairing. apply slot_inputs_eq.
  - intros Hone Hswap. destruct sweep as [|v [|? ?]] eqn:Es; try discriminate.
    eexists. by apply (calc_range_one_element_swap self (Some xvals) (Some yvals) switch v).
Qed.

(** ** Quality isolines *)

Lemma grows_state_update (P : Z * float * float -> Prop) (ipair : Z) (v1 v2 : float) :
  P (ipair, v1, v2) -> steps (grows P) (state_update ipair v1 v2).
Proof.
  intros HP w r w'. unfold state_update.
  destruct (update ipair v1 v2 (eos w)) as [r0 s]. intros [= <- <-].
  exists [], [(ipair, v1, v2)]. simpl. rewrite app_nil_r. repeat split. by constructor.
Qed.

Lemma grows_warn (P : Z * float * float -> Prop) (x : Warning) : steps (grows P) (warn x).
Proof.
  intros w r w' [= <- <-]. exists [x], []. simpl. by rewrite app_nil_r.
Qed.

#[local] Hint Resolve grows_state_update grows_warn : steps.

Lemma grows_sat_sample (P : Z * float * float -> Prop) (self : IsoLine) (ipair : Z)
    (one two : ndarray) (XY : ndarray * ndarray) (index : nat) :
  (forall a b, P (ipair, a, b)) ->
  steps (grows P) (sat_sample self ipair one two XY index).
Proof.
  intros HP.
  assert (Hh : forall (X Y : ndarray) (e : exn),
    steps (grows P)
      (a ← lift (getitem one index); b ← lift (getitem two index);
       warn (SampleError a b index e);; mret (<[index := NaN]> X, <[index := NaN]> Y)))
    by (intros; steps_through).
  assert (Hb : steps (grows P)
    (a ← lift (getitem one index); b ← lift (getitem two index); state_update ipair a b))
    by steps_through.
  intros w r w'. unfold sat_sample. destruct XY as [X Y].
  destruct ((a ← lift (getitem one index); b ← lift (getitem two index);
             state_update ipair a b) w) as [[[]|e] w1] eqn:E1.
  - pose proof (Hb _ _ _ E1) as G1. unfold state_keyed_output.
    destruct (keyed_output (_x_index self) (eos w1)) as [vx|e].
    + destruct (keyed_output (_y_index self) (eos w1)) as [vy|e].
      * by intros [= <- <-].
      * intros E2. etransitivity; [exact G1|exact (Hh _ _ _ _ _ _ E2)].
    + intros E2. etransitivity; [exact G1|exact (Hh _ _ _ _ _ _ E2)].
  - intros E2. etransitivity; [exact (Hb _ _ _ E1)|exact (Hh _ _ _ _ _ _ E2)].
Qed.

Lemma grows_get_sat_bounds (self : Base2DObject) (kind : pyobj) (smin smax : option float) :
  steps (grows (fun u => u.1.1 = QT_INPUTS)) (_get_sat_bounds self kind smin smax).
Proof.
  unfold _get_sat_bounds, fluid_limits, fluid_bounds. steps_through.
Qed.

Lemma grows_sat_inputs (self : IsoLine) (Trange Prange : option ndarray) (num : Z) :
  steps (grows (fun u => u.1.1 = QT_INPUTS)) (sat_inputs self Trange Prange num).
Proof.
  pose proof grows_get_sat_bounds.
  unfold sat_inputs. steps_through.
Qed.

Lemma sat_inputs_default_pair (self : IsoLine) (num : Z) (w w1 : World)
    (one two : ndarray) (ipair : Z) :
  sat_inputs self None None num w = (Ok (one, two, ipair), w1) -> ipair = QT_INPUTS.
Proof.
  unfold sat_inputs, mbind, M_bind, lift.
  destruct (_get_sat_bounds _ _ _ _ _) as [[[T_lo T_hi]|e] w0]; [|discriminate].
  destruct (np_linspace T_lo T_hi num); [|discriminate].
  by intros [= _ _ <- _].
Qed.

Lemma grows_calc_sat_range_default (self : IsoLine) (num : Z) :
  steps (grows (fun u => u.1.1 = QT_INPUTS)) (calc_sat_range self None None num).
Proof.
  intros w r w'. unfold calc_sat_range. unfold mbind at 1, M_bind at 1.
  destruct (sat_inputs self None None num w) as [[[[one two] ipair]|e] w1] eqn:E1.
  - pose proof (grows_sat_inputs _ _ _ _ _ _ _ E1) as G1.
    apply sat_inputs_default_pair in E1 as ->.
    intros E2. etransitivity; [exact G1|]. revert E2. generalize w1 r w'.
    change (steps (grows (fun u => u.1.1 = QT_INPUTS))
      ('(X, Y) ← for_each (sat_sample self QT_INPUTS one two) (seq 0 (length one))
                  (np_empty_like one, np_empty_like one);
       mret (set_y Y (set_x X self)))).
    steps_through. by apply grows_sat_sample.
  - intros [= <- <-]. exact (grows_sat_inputs _ _ _ _ _ _ _ E1).
Qed.

(** C5, as amended: for an isoline of quality, [calc_range] issues the
    warning that points to [calc_sat_range] and then runs [calc_sat_range]
    without ranges. The contents of the supplied arrays are discarded; the
    number of elements of [xvals] (of [yvals] when [xvals] is absent, 200 when
    both are) is passed on as the number of samples, so two calls with the same
    number of samples behave alike. No direct sweep is made: every call to
    [update] uses the input pair [QT_INPUTS]. *)
Theorem calc_range_quality_routes_to_sat_range
    (self : IsoLine) (xvals yvals : option ndarray) (w : World) :
  _i_index self = iQ ->
  calc_range self xvals yvals w =
    (warn UseCalcSatRange;; calc_sat_range self None None (sample_count xvals yvals)) w /\
  (forall xvals' yvals' : option ndarray,
      sample_count xvals' yvals' = sample_count xvals yvals ->
      calc_range self xvals' yvals' w = calc_range self xvals yvals w) /\
  (exists lw : list Warning,
      warned (calc_range self xvals yvals w).2 = (warned w ++ UseCalcSatRange :: lw)%list) /\
  (exists lu : list (Z * float * float),
      updates (calc_range self xvals yvals w).2 = (updates w ++ lu)%list /\
      Forall (fun u => u.1.1 = QT_INPUTS) lu).
Proof.
  intros Hq.
  assert (Hroute : forall xv yv : option ndarray,
    calc_range self xv yv w =
      (warn UseCalcSatRange;; calc_sat_range self None None (sample_count xv yv)) w).
  { intros xv yv. unfold calc_range, sample_count.
    rewrite Hq, Z.eqb_refl. by destruct xv, yv. }
  split; [apply Hroute|]. split; [intros xv yv Hc; by rewrite !Hroute, Hc|].
  rewrite Hroute.
  set (w1 := mkWorld (eos w) (axis w) (warned w ++ [UseCalcSatRange])%list (updates w)).
  assert (Hw1 : forall m : M IsoLine, (warn UseCalcSatRange;; m) w = m w1) by reflexivity.
  rewrite Hw1.
  destruct (calc_sat_range self None None (sample_count xvals yvals) w1) as [r w'] eqn:E.
  apply grows_calc_sat_range_default in E as (lw & lu & Hw & Hu & HP).
  split.
  - exists lw. simpl. rewrite Hw. unfold w1. simpl. by rewrite <- app_assoc.
  - exists lu. simpl. by rewrite Hu.
Qed.

(** ** Saturation bounds *)

Lemma pydict_lookup_is_Some {V : Type} (items : list (Z * V)) (k : Z) :
  k ∈ items.*1 -> is_Some (pydict items !! k).
Proof.
  unfold pydict.
  assert (G : forall (m : gmap Z V),
             k ∈ items.*1 \/ is_Some (m !! k) ->
             is_Some (foldl (fun m kv => <[kv.1 := kv.2]> m) m items !! k)).
  { induction items as [|[k' v] items IH]; intros m [Hin|Hm]; simpl.
    - by apply elem_of_nil in Hin.
    - done.
    - apply IH. simpl in Hin. apply elem_of_cons in Hin as [->|Hin]; [right|by left].
      rewrite lookup_insert_eq. eauto.
    - apply IH. right. simpl. destruct (decide (k' = k)) as [->|Hne].
      + rewrite lookup_insert_eq. eauto.
      + by rewrite lookup_insert_ne. }
  intros Hin. apply G. by left.
Qed.

Lemma fluid_bounds_kind (self : Base2DObject) (kind : Z) (w w' : World) (b : float * float) :
  fluid_bounds self kind w = (Ok b, w') -> kind = iP \/ kind = iT.
Proof.
  unfold fluid_bounds.
  destruct (kind =? iP) eqn:EP; [apply Z.eqb_eq in EP; by left|].
  destruct (kind =? iT) eqn:ET; [apply Z.eqb_eq in ET; by right|].
  discriminate.
Qed.

Lemma fluid_limits_kind (self : Base2DObject) (kind : pyobj) (w w' : World)
    (k : Z) (fluid_min fluid_max : float) :
  fluid_limits self kind w = (Ok (k, fluid_min, fluid_max), w') -> k = iP \/ k = iT.
Proof.
  unfold fluid_limits, mbind, M_bind, lift.
  destruct (trivial_keyed_output iT_triple); [|discriminate].
  destruct (trivial_keyed_output iT_min); [|discriminate].
  destruct (state_update _ _ _ w) as [[[]|e] w1]; [|discriminate].
  destruct (_get_index kind) as [k'|e]; [|discriminate].
  destruct (fluid_bounds self k' w1) as [[[lo hi]|e] w2] eqn:Eb; [|discriminate].
  intros [= <- _ _ _]. by eapply fluid_bounds_kind.
Qed.

Lemma fluid_limits_other_kind (self : Base2DObject) (kind : pyobj) (z : Z) (w : World) :
  _get_index kind = Ok z -> z <> iP -> z <> iT ->
  exists e w', fluid_limits self kind w = (Raise e, w').
Proof.
  intros Hk HzP HzT. unfold fluid_limits.
  rewrite lift_bind. destruct (trivial_keyed_output iT_triple) as [T_triple|e]; [|eauto].
  rewrite lift_bind. destruct (trivial_keyed_output iT_min) as [T_min|e]; [|eauto].
  destruct (state_update QT_INPUTS zero (fadd (py_max T_triple [T_min]) (_T_small self)) w)
    as [[[]|e] w1] eqn:E.
  - rewrite (bind_ok _ _ _ _ _ E), lift_bind, Hk.
    unfold fluid_bounds.
    destruct (z =? iP) eqn:EP; [apply Z.eqb_eq in EP; contradiction|].
    destruct (z =? iT) eqn:ET; [apply Z.eqb_eq in ET; contradiction|].
    eauto.
  - rewrite (bind_raise _ _ _ _ _ E). eauto.
Qed.

Lemma property_name_on_plot (self : Base2DObject) (k : Z) :
  class_of self = BasePlot_cls -> k = iP \/ k = iT ->
  exists name, property_name self k = Ok name.
Proof.
  intros Hc Hk. unfold property_name. rewrite Hc. simpl. unfold getitem_dict.
  assert (Hin : is_Some (PROPERTIES !! k)).
  { apply pydict_lookup_is_Some. simpl. destruct Hk as [-> | ->]; set_solver. }
  destruct Hin as [name ->]. eauto.
Qed.

Lemma property_name_off_plot (self : Base2DObject) (k : Z) :
  class_of self <> BasePlot_cls ->
  exists msg, property_name self k = Raise (AttributeError msg).
Proof.
  intros Hc. unfold property_name. destruct (class_of self); simpl; [eauto|eauto|done].
Qed.

(** On a [BasePlot], an out-of-range hint is replaced by the limit of the
    fluid with a warning, and the call returns. *)
Lemma get_sat_bounds_hint_on_plot (self : Base2DObject) (kind : pyobj)
    (smin smax : option float) (w w1 : World) (k : Z) (fluid_min fluid_max : float) :
  class_of self = BasePlot_cls ->
  fluid_limits self kind w = (Ok (k, fluid_min, fluid_max), w1) ->
  exists name w',
    property_name self k = Ok name /\
    _get_sat_bounds self kind smin smax w =
      (Ok (chosen_bound fluid_min fluid_max smin fluid_min,
           chosen_bound fluid_min fluid_max smax fluid_max), w') /\
    eos w' = eos w1 /\ updates w' = updates w1 /\
    warned w' = (warned w1 ++ hint_warnings name fluid_min fluid_max smin smax)%list.
Proof.
  intros Hc E.
  destruct (property_name_on_plot self k Hc (fluid_limits_kind _ _ _ _ _ _ _ E)) as [name Hn].
  exists name. unfold _get_sat_bounds. rewrite (bind_ok _ _ _ _ _ E).
  unfold hint_warnings, chosen_bound, ignored_hint.
  unfold mbind, M_bind, lift, warn, mret, M_ret. rewrite Hn.
  destruct smin as [v1|], smax as [v2|]; simpl;
    repeat match goal with
           | |- context [flt ?a ?b && flt ?c ?d] => destruct (flt a b && flt c d); simpl
           end;
    eexists; (split; [reflexivity|]); (split; [reflexivity|]); simpl;
    rewrite ?app_nil_r, <- ?app_assoc; done.
Qed.

(** C7, at the failing receivers: on an object of a class other than
    [BasePlot] (an [IsoLine], a plain [Base2DObject]) an out-of-range hint
    makes [_get_sat_bounds] raise [AttributeError], because the warning
    formats [self.PROPERTIES], which only [BasePlot] defines. No warning is
    issued and no bound is returned. *)
Theorem sat_bounds_hint_raises_off_plot (self : Base2DObject) (kind : pyobj)
    (smin smax : option float) (w w1 : World) (k : Z) (fluid_min fluid_max : float) :
  class_of self <> BasePlot_cls ->
  fluid_limits self kind w = (Ok (k, fluid_min, fluid_max), w1) ->
  ignored_hint fluid_min fluid_max smin || ignored_hint fluid_min fluid_max smax = true ->
  exists msg,
    _get_sat_bounds self kind smin smax w = (Raise (AttributeError msg), w1).
Proof.
  intros Hc E Hign.
  destruct (property_name_off_plot self k Hc) as [msg Hn].
  exists msg. unfold _get_sat_bounds. rewrite (bind_ok _ _ _ _ _ E).
  unfold ignored_hint in Hign.
  unfold mbind, M_bind, lift, warn, mret, M_ret. rewrite Hn.
  destruct smin as [v1|], smax as [v2|]; simpl in *;
    repeat match goal with
           | |- context [flt ?a ?b && flt ?c ?d] => destruct (flt a b && flt c d); simpl in *
           end;
    done.
Qed.

Lemma flt_Fin (a b : Qc) : flt (Fin a) (Fin b) = true <-> (a < b)%Qc.
Proof.
  simpl. destruct (Qclt_le_dec a b) as [Hlt|Hle]; split; try done.
  intros Hlt. by apply Qcle_ngt in Hle.
Qed.

Lemma default_small_pos : (0 < default_small)%Qc.
Proof. reflexivity. Qed.

Lemma Qclt_sub_pos (x d : Qc) : (0 < d)%Qc -> (x - d < x)%Qc.
Proof.
  intros Hd. apply Qclt_minus_iff.
  replace (x + - (x - d))%Qc with d by ring. exact Hd.
Qed.

Lemma Qclt_margin (m d x : Qc) : (m + (d + d) < x)%Qc -> (m + d < x - d)%Qc.
Proof.
  intros H. apply Qclt_minus_iff in H. apply Qclt_minus_iff.
  replace (x - d + - (m + d))%Qc with (x + - (m + (d + d)))%Qc by ring. exact H.
Qed.

(** C8: for a fluid whose critical temperature is positive, whose triple
    and minimum temperatures lie below the critical temperature by more than
    twice [T_small], and whose saturated state reports the temperature it was
    set to, [_get_sat_bounds] of kind temperature returns
    [(fluid_min, fluid_max)]: [fluid_min] is the temperature read after the
    handle was set to saturated liquid at
    [max(T_triple, T_min) + T_small], [fluid_max] is the critical temperature
    minus [T_small], where [T_small] is the critical temperature times 1e-5,
    and [fluid_min < fluid_max < T_critical]. A kind other than temperature
    or pressure makes the call raise. *)
Theorem sat_bounds_temperature (self : Base2DObject) (w : World) (tt tm tc : Qc)
    (s1 : AbstractState) :
  iT <> iP ->
  _T_small self = fmul (Fin tc) (Fin default_small) ->
  trivial_keyed_output iT_triple = Ok (Fin tt) ->
  trivial_keyed_output iT_min = Ok (Fin tm) ->
  trivial_keyed_output iT_critical = Ok (Fin tc) ->
  (0 < tc)%Qc ->
  (tt + (tc * default_small + tc * default_small) < tc)%Qc ->
  (tm + (tc * default_small + tc * default_small) < tc)%Qc ->
  let T0 := fadd (py_max (Fin tt) [Fin tm]) (_T_small self) in
  update QT_INPUTS zero T0 (eos w) = (Ok (), s1) ->
  keyed_output iT s1 = Ok T0 ->
  (exists (lo hi : Qc) (w' : World),
      _get_sat_bounds self (PyInt iT) None None w = (Ok (Fin lo, Fin hi), w') /\
      Fin lo = T0 /\
      hi = (tc - tc * default_small)%Qc /\
      (lo < hi)%Qc /\ (hi < tc)%Qc /\
      updates w' = (updates w ++ [(QT_INPUTS, zero, T0)])%list) /\
  (forall (kind : pyobj) (z : Z) (smin smax : option float) (w0 : World),
      _get_index kind = Ok z -> z <> iP -> z <> iT ->
      exists e w', _get_sat_bounds self kind smin smax w0 = (Raise e, w')).
Proof.
  intros Hne Hsmall Htt Htm Htc Hpos Hmt Hmm T0 Hup Hread.
  assert (Hd : (0 < tc * default_small)%Qc)
    by (apply Qcmult_pos_pos; [exact Hpos|exact default_small_pos]).
  split.
  - set (m := if Qclt_le_dec tt tm then tm else tt).
    assert (HT0 : T0 = Fin (m + tc * default_small)%Qc).
    { unfold T0, py_max, m. rewrite Hsmall. simpl. by destruct (Qclt_le_dec tt tm). }
    assert (Hm : (m + (tc * default_small + tc * default_small) < tc)%Qc)
      by (unfold m; by destruct (Qclt_le_dec tt tm)).
    exists (m + tc * default_small)%Qc, (tc - tc * default_small)%Qc.
    eexists. split; [|split; [by rewrite HT0|split; [reflexivity|split; [|split]]]].
    + unfold _get_sat_bounds, fluid_limits, fluid_bounds.
      unfold mbind, M_bind, lift, state_update, state_keyed_output, mret, M_ret.
      rewrite Htt, Htm. fold T0. rewrite Hup. simpl.
      destruct (iT =? iP) eqn:EP; [apply Z.eqb_eq in EP; contradiction|].
      rewrite Z.eqb_refl. simpl. rewrite Hread, Htc, HT0, Hsmall. simpl. reflexivity.
    + by apply Qclt_margin.
    + by apply Qclt_sub_pos.
    + simpl. by rewrite HT0.
  - intros kind z smin smax w0 Hk HzP HzT.
    destruct (fluid_limits_other_kind self kind z w0 Hk HzP HzT) as (e & w' & E).
    exists e, w'. unfold _get_sat_bounds. by rewrite (bind_raise _ _ _ _ _ E).
Qed.

(** ** Axis limits *)

Lemma corner_step (x_index y_index : Z) (X Y : list float) (i : nat) (P T vx vy : float)
    (s s1 : AbstractState) (ax : Axes) (lw : list Warning) (lu : list (Z * float * float)) :
  update PT_INPUTS P T s = (Ok (), s1) ->
  keyed_output x_index s1 = Ok vx ->
  keyed_output y_index s1 = Ok vy ->
  corner x_index y_index (X, Y) (i, (P, T)) (mkWorld s ax lw lu) =
    (Ok (<[i := vx]> X, <[i := vy]> Y),
     mkWorld s1 ax lw (lu ++ [(PT_INPUTS, P, T)])%list).
Proof.
  intros Hu Hx Hy. unfold corner, mbind, M_bind, state_update, state_keyed_output.
  simpl. rewrite Hu. simpl. rewrite Hx, Hy. reflexivity.
Qed.

Lemma update_or_get_xlim_run (self : BasePlot) (x_index : Z) (computed : float * float)
    (w : World) :
  update_or_get_xlim self x_index computed w =
  (Ok (returned_xlim self x_index computed (axis w)).1,
   mkWorld (eos w) (returned_xlim self x_index computed (axis w)).2 (warned w) (updates w)).
Proof.
  unfold update_or_get_xlim, returned_xlim. destruct w as [s ax lw lu]. simpl.
  destruct (x_index =? _x_index self); [|reflexivity].
  unfold mbind, M_bind, read_axis, with_axis. simpl.
  destruct (get_autoscalex_on ax); reflexivity.
Qed.

Lemma update_or_get_ylim_run (self : BasePlot) (y_index : Z) (computed : float * float)
    (w : World) :
  update_or_get_ylim self y_index computed w =
  (Ok (returned_ylim self y_index computed (axis w)).1,
   mkWorld (eos w) (returned_ylim self y_index computed (axis w)).2 (warned w) (updates w)).
Proof.
  unfold update_or_get_ylim, returned_ylim. destruct w as [s ax lw lu]. simpl.
  destruct (y_index =? _y_index self); [|reflexivity].
  unfold mbind, M_bind, read_axis, with_axis. simpl.
  destruct (get_autoscaley_on ax); reflexivity.
Qed.

Lemma corner_limits_run (self : BasePlot) (x_index y_index : Z)
    (w w1 w2 : World) (T_lo T_hi P_lo P_hi T_max : float)
    (readings : list (float * float)) (s' : AbstractState) (dx dy : BaseDimension) :
  let T1 := fmul lo_factor T_lo in
  let T2 := py_min (fmul hi_factor T_hi) [T_max] in
  let P1 := fmul lo_factor P_lo in
  let P2 := fmul hi_factor P_hi in
  _get_sat_bounds self (PyInt iT) None None w = (Ok (T_lo, T_hi), w1) ->
  _get_sat_bounds self (PyInt iP) None None w1 = (Ok (P_lo, P_hi), w2) ->
  trivial_keyed_output iT_max = Ok T_max ->
  reads_corners x_index y_index (eos w2)
    [(P1, T1); (P2, T1); (P1, T2); (P2, T2)] readings s' ->
  dimensions (_system self) !! x_index = Some dx ->
  dimensions (_system self) !! y_index = Some dy ->
  exists (min_x max_x min_y max_y : float),
    list_min readings.*1 = Ok min_x /\ list_max readings.*1 = Ok max_x /\
    list_min readings.*2 = Ok min_y /\ list_max readings.*2 = Ok max_y /\
    corner_limits self x_index y_index w =
      (Ok ((from_SI dx min_x, from_SI dx max_x), (from_SI dy min_y, from_SI dy max_y)),
       mkWorld s' (axis w) (warned w)
         (updates w2 ++ [(PT_INPUTS, P1, T1); (PT_INPUTS, P2, T1);
                         (PT_INPUTS, P1, T2); (PT_INPUTS, P2, T2)])%list).
Proof.
  intros T1 T2 P1 P2 Hb1 Hb2 Hmax Hread Hdx Hdy.
  destruct (get_sat_bounds_quiet _ _ _ _ _ Hb1) as [Hw1 Ha1].
  destruct (get_sat_bounds_quiet _ _ _ _ _ Hb2) as [Hw2 Ha2].
  inversion Hread as [|s0 sa ? Pa Ta vx1 vy1 cs1 rs1 Hu1 Hx1 Hy1 Hr1]; subst.
  inversion Hr1 as [|? sb ? Pb Tb vx2 vy2 cs2 rs2 Hu2 Hx2 Hy2 Hr2]; subst.
  inversion Hr2 as [|? sc ? Pc Tc vx3 vy3 cs3 rs3 Hu3 Hx3 Hy3 Hr3]; subst.
  inversion Hr3 as [|? sd ? Pd Td vx4 vy4 cs4 rs4 Hu4 Hx4 Hy4 Hr4]; subst.
  inversion Hr4; subst. clear Hread Hr1 Hr2 Hr3 Hr4.
  exists (py_min vx1 [vx2; vx3; vx4]), (py_max vx1 [vx2; vx3; vx4]),
         (py_min vy1 [vy2; vy3; vy4]), (py_max vy1 [vy2; vy3; vy4]).
  do 4 (split; [reflexivity|]).
  unfold corner_limits.
  rewrite (bind_ok _ _ _ _ _ Hb1). cbv beta iota.
  rewrite (bind_ok _ _ _ _ _ Hb2). cbv beta iota.
  rewrite lift_bind, Hmax. fold T1 T2 P1 P2.
  change (enumerate_corners [T1; T2] [P1; P2])
    with [(0%nat, (P1, T1)); (1%nat, (P2, T1)); (2%nat, (P1, T2)); (3%nat, (P2, T2))].
  assert (Hfc :
    for_corners x_index y_index
      [(0%nat, (P1, T1)); (1%nat, (P2, T1)); (2%nat, (P1, T2)); (3%nat, (P2, T2))]
      (replicate 4 zero, replicate 4 zero) w2 =
    (Ok ([vx1; vx2; vx3; vx4], [vy1; vy2; vy3; vy4]),
     mkWorld s' (axis w2) (warned w2)
       (updates w2 ++ [(PT_INPUTS, P1, T1); (PT_INPUTS, P2, T1);
                       (PT_INPUTS, P1, T2); (PT_INPUTS, P2, T2)])%list)).
  { destruct w2 as [s2 ax2 lw2 lu2]. cbn [eos axis warned updates] in *.
    unfold for_corners.
    rewrite (bind_ok _ _ _ _ _ (corner_step _ _ _ _ _ _ _ _ _ _ _ _ _ _ Hu1 Hx1 Hy1)).
    rewrite (bind_ok _ _ _ _ _ (corner_step _ _ _ _ _ _ _ _ _ _ _ _ _ _ Hu2 Hx2 Hy2)).
    rewrite (bind_ok _ _ _ _ _ (corner_step _ _ _ _ _ _ _ _ _ _ _ _ _ _ Hu3 Hx3 Hy3)).
    rewrite (bind_ok _ _ _ _ _ (corner_step _ _ _ _ _ _ _ _ _ _ _ _ _ _ Hu4 Hx4 Hy4)).
    rewrite <- !app_assoc. reflexivity. }
  rewrite (bind_ok _ _ _ _ _ Hfc). cbv beta iota.
  unfold getitem_dict. rewrite lift_bind, Hdx.
  rewrite !lift_bind. cbn [list_min list_max].
  rewrite Hdy. rewrite Ha2, Ha1, Hw2, Hw1.
  reflexivity.
Qed.

(** C9, as amended: when the limits are not already set (another axis
    property is asked for, or an axis autoscales), [get_axis_limits] takes the
    saturation bounds in temperature and in pressure and sets the handle to
    the four corners of
    [(1.1 * T_lo, min(2.0 * T_hi, T_max)) x (1.1 * P_lo, 2.0 * P_hi)], in the
    order (P1,T1), (P2,T1), (P1,T2), (P2,T2), reading the two axis properties
    at each. The computed limits of an axis are the minimum and the maximum
    of its four readings, converted with [from_SI] of the dimension of the
    axis. They are returned for an axis other than the plot's own and for an
    own axis that autoscales (which is also set to them); an own axis that
    does not autoscale keeps and returns its current limits. *)
Theorem axis_limits_from_corners (self : BasePlot) (x_arg y_arg : option Z)
    (w w1 w2 : World) (T_lo T_hi P_lo P_hi T_max : float)
    (readings : list (float * float)) (s' : AbstractState) (dx dy : BaseDimension) :
  let x_index := match x_arg with Some i => i | None => _x_index self end in
  let y_index := match y_arg with Some i => i | None => _y_index self end in
  let T1 := fmul lo_factor T_lo in
  let T2 := py_min (fmul hi_factor T_hi) [T_max] in
  let P1 := fmul lo_factor P_lo in
  let P2 := fmul hi_factor P_hi in
  limits_not_set self x_index y_index (axis w) = true ->
  _get_sat_bounds self (PyInt iT) None None w = (Ok (T_lo, T_hi), w1) ->
  _get_sat_bounds self (PyInt iP) None None w1 = (Ok (P_lo, P_hi), w2) ->
  trivial_keyed_output iT_max = Ok T_max ->
  reads_corners x_index y_index (eos w2)
    [(P1, T1); (P2, T1); (P1, T2); (P2, T2)] readings s' ->
  dimensions (_system self) !! x_index = Some dx ->
  dimensions (_system self) !! y_index = Some dy ->
  exists (min_x max_x min_y max_y : float),
    list_min readings.*1 = Ok min_x /\ list_max readings.*1 = Ok max_x /\
    list_min readings.*2 = Ok min_y /\ list_max readings.*2 = Ok max_y /\
    let x_computed := (from_SI dx min_x, from_SI dx max_x) in
    let y_computed := (from_SI dy min_y, from_SI dy max_y) in
    let x_step := returned_xlim self x_index x_computed (axis w) in
    let y_step := returned_ylim self y_index y_computed x_step.2 in
    get_axis_limits self x_arg y_arg w =
      (Ok [x_step.1.1; x_step.1.2; y_step.1.1; y_step.1.2],
       mkWorld s' y_step.2 (warned w)
         (updates w2 ++ [(PT_INPUTS, P1, T1); (PT_INPUTS, P2, T1);
                         (PT_INPUTS, P1, T2); (PT_INPUTS, P2, T2)])%list).
Proof.
  intros x_index y_index T1 T2 P1 P2 Hcond Hb1 Hb2 Hmax Hread Hdx Hdy.
  destruct (corner_limits_run self x_index y_index w w1 w2 T_lo T_hi P_lo P_hi T_max
              readings s' dx dy Hb1 Hb2 Hmax Hread Hdx Hdy)
    as (min_x & max_x & min_y & max_y & Hminx & Hmaxx & Hminy & Hmaxy & Hrun).
  exists min_x, max_x, min_y, max_y. do 4 (split; [assumption|]).
  intros x_computed y_computed x_step y_step.
  unfold get_axis_limits. fold x_index y_index.
  rewrite (bind_ok (read_axis get_autoscalex_on) _ w w _ eq_refl).
  rewrite (bind_ok (read_axis get_autoscaley_on) _ w w _ eq_refl).
  unfold limits_not_set in Hcond. rewrite Hcond.
  unfold mbind at 1, M_bind at 1.
  rewrite (bind_ok _ _ _ _ _ Hrun). cbv beta iota.
  rewrite (bind_ok _ _ _ _ _ (update_or_get_xlim_run _ _ _ _)).
  rewrite (bind_ok _ _ _ _ _ (update_or_get_ylim_run _ _ _ _)).
  reflexivity.
Qed.

(** ** The table of isolines *)

Lemma catalog_distinct :
  NoDup held_properties -> NoDup (plot_key <$> catalog) ->
  (iDmass <> iHmass /\ iDmass <> iP /\ iDmass <> iSmass /\ iDmass <> iT /\ iDmass <> iQ /\
   iHmass <> iP /\ iHmass <> iSmass /\ iHmass <> iT /\ iHmass <> iQ /\
   iP <> iSmass /\ iP <> iT /\ iP <> iQ /\ iSmass <> iT /\ iSmass <> iQ /\ iT <> iQ) /\
  (TS <> PH /\ TS <> HS /\ TS <> PS /\ TS <> PD /\ TS <> TD /\ TS <> PT /\
   PH <> HS /\ PH <> PS /\ PH <> PD /\ PH <> TD /\ PH <> PT /\
   HS <> PS /\ HS <> PD /\ HS <> TD /\ HS <> PT /\
   PS <> PD /\ PS <> TD /\ PS <> PT /\ PD <> TD /\ PD <> PT /\ TD <> PT).
Proof.
  unfold held_properties, catalog. cbn [fmap list_fmap plot_key fst snd].
  fold TS PH HS PS PD TD PT.
  intros H1 H2.
  repeat (apply NoDup_cons in H1 as [? H1]).
  repeat (apply NoDup_cons in H2 as [? H2]).
  repeat match goal with H : _ ∉ _ :: _ |- _ => apply not_elem_of_cons in H as [? H] end.
  unfold plot_key, TS, PH, HS, PS, PD, TD, PT in *. cbn [fst snd] in *.
  split; repeat split; assumption.
Qed.

Ltac lookup_insert_step :=
  first [ rewrite lookup_insert_eq
        | rewrite lookup_insert_ne by (first [assumption | apply not_eq_sym; assumption]) ].

Lemma table_entry_none_iff_axis (i x y : Z) :
  NoDup held_properties -> NoDup (plot_key <$> catalog) ->
  i ∈ held_properties -> (y, x) ∈ catalog ->
  exists entry : option bool,
    switch_entry i x y = Ok entry /\ (entry = None <-> i = x \/ i = y).
Proof.
  intros H1 H2 Hi Hd.
  destruct (catalog_distinct H1 H2) as [Hp Hk].
  unfold TS, PH, HS, PS, PD, TD, PT in Hk.
  destruct Hp as (? & ? & ? & ? & ? & ? & ? & ? & ? & ? & ? & ? & ? & ? & ?).
  destruct Hk as (? & ? & ? & ? & ? & ? & ? & ? & ? & ? & ? & ? & ? & ? & ? & ? & ? & ?
                  & ? & ? & ?).
  unfold held_properties in Hi. unfold catalog in Hd.
  rewrite !elem_of_cons, elem_of_nil in Hi. rewrite !elem_of_cons, elem_of_nil in Hd.
  assert (Hrun : forall e : option bool,
            (exists row : gmap Z (option bool),
                XY_SWITCH !! i = Some row /\ row !! (y * 10 + x) = Some e) ->
            switch_entry i x y = Ok e).
  { intros e (row & Hr & He). unfold switch_entry, getitem_dict.
    rewrite Hr. simpl. rewrite He. reflexivity. }
  destruct Hi as [->|[->|[->|[->|[->|[->|[]]]]]]];
    destruct Hd as [[= -> ->]|[[= -> ->]|[[= -> ->]|[[= -> ->]|[[= -> ->]|[[= -> ->]
                   |[[= -> ->]|[]]]]]]]];
    eexists; (split;
      [ apply Hrun; eexists; split;
        [ unfold XY_SWITCH, pydict; cbn [foldl fst snd]; repeat lookup_insert_step;
          reflexivity
        | unfold TS, PH, HS, PS, PD, TD, PT, pydict; cbn [foldl fst snd];
          repeat lookup_insert_step; reflexivity ]
      | split;
        [ first [ discriminate | intros _; first [left; reflexivity | right; reflexivity] ]
        | first [ reflexivity | intros [E|E]; exfalso; congruence ] ] ]).
Qed.

(** X1: for a held property that has a row in [XY_SWITCH] and a diagram of
    the catalog (all with different keys), [_get_update_pair] raises the
    [ValueError] "This isoline cannot be calculated!" exactly when the held
    property is one of the two axes of the diagram; for every other
    combination it returns a slot tuple. *)
Theorem isoline_unsupported_iff_axis (self : IsoLine) :
  NoDup held_properties -> NoDup (plot_key <$> catalog) ->
  _i_index self ∈ held_properties ->
  (_y_index self, _x_index self) ∈ catalog ->
  (_get_update_pair self = Raise (ValueError "This isoline cannot be calculated!") <->
   _i_index self = _x_index self \/ _i_index self = _y_index self) /\
  (~ (_i_index self = _x_index self \/ _i_index self = _y_index self) ->
   exists ipos xpos ypos ipair, _get_update_pair self = Ok (ipos, xpos, ypos, ipair)).
Proof.
  intros H1 H2 Hi Hd.
  destruct (table_entry_none_iff_axis _ _ _ H1 H2 Hi Hd) as (entry & He & Hiff).
  destruct entry as [switch|].
  - pose proof (get_update_pair_eq self switch He) as Hp.
    assert (Hno : ~ (_i_index self = _x_index self \/ _i_index self = _y_index self))
      by (intros Hax; apply Hiff in Hax; discriminate).
    split; [split|].
    + rewrite Hp. destruct switch, (swap_of self _); discriminate.
    + intros Hax. contradiction.
    + intros _. rewrite Hp. destruct switch, (swap_of self _); eauto.
  - assert (Hax : _i_index self = _x_index self \/ _i_index self = _y_index self)
      by by apply Hiff.
    assert (Hp : _get_update_pair self = Raise (ValueError "This isoline cannot be calculated!"))
      by (unfold _get_update_pair; rewrite He; reflexivity).
    split; [split; [by intros _|by intros _]|]. intros Hno. contradiction.
Qed.

(** ** More on saturation bounds *)

Lemma fluid_limits_run (self : Base2DObject) (kind : pyobj) (w w2 : World)
    (T_triple T_min lo hi : float) (s1 : AbstractState) (k : Z) :
  trivial_keyed_output iT_triple = Ok T_triple ->
  trivial_keyed_output iT_min = Ok T_min ->
  update QT_INPUTS zero (fadd (py_max T_triple [T_min]) (_T_small self)) (eos w) = (Ok (), s1) ->
  _get_index kind = Ok k ->
  fluid_bounds self k
    (mkWorld s1 (axis w) (warned w)
       (updates w ++ [(QT_INPUTS, zero,
                       fadd (py_max T_triple [T_min]) (_T_small self))])%list)
    = (Ok (lo, hi), w2) ->
  fluid_limits self kind w = (Ok (k, lo, hi), w2).
Proof.
  intros Ht Hm Hu Hk Hb. unfold fluid_limits.
  rewrite lift_bind, Ht, lift_bind, Hm.
  erewrite bind_ok; [|unfold state_update; rewrite Hu; reflexivity].
  rewrite lift_bind, Hk.
  by rewrite (bind_ok _ _ _ _ _ Hb).
Qed.

(** X2: [_get_sat_bounds] of kind pressure, on an object whose [P_small] is
    the critical pressure times a positive [small]: after the handle was set
    to saturated liquid at [max(T_triple, T_min) + T_small], the lower bound
    is the pressure read from the handle and the upper bound is the critical
    pressure minus [P_small], which is never above the critical pressure.
    One [update] call is made. Arithmetic is exact (rounding is not part of
    the model). *)
Theorem sat_bounds_pressure (self : Base2DObject) (kind : pyobj) (w : World)
    (T_triple T_min fluid_min : float) (pc small : Qc) (s1 : AbstractState) :
  _get_index kind = Ok iP ->
  _P_small self = fmul (Fin pc) (Fin small) ->
  (0 < pc)%Qc -> (0 < small)%Qc ->
  trivial_keyed_output iT_triple = Ok T_triple ->
  trivial_keyed_output iT_min = Ok T_min ->
  trivial_keyed_output iP_critical = Ok (Fin pc) ->
  let T0 := fadd (py_max T_triple [T_min]) (_T_small self) in
  update QT_INPUTS zero T0 (eos w) = (Ok (), s1) ->
  keyed_output iP s1 = Ok fluid_min ->
  _get_sat_bounds self kind None None w =
    (Ok (fluid_min, Fin (pc - pc * small)%Qc),
     mkWorld s1 (axis w) (warned w) (updates w ++ [(QT_INPUTS, zero, T0)])%list) /\
  (pc - pc * small <= pc)%Qc.
Proof.
  intros Hk Hsmall Hpc Hs Ht Hm Hc T0 Hu Hread. split.
  - assert (E : fluid_limits self kind w =
              (Ok (iP, fluid_min, Fin (pc - pc * small)%Qc),
               mkWorld s1 (axis w) (warned w) (updates w ++ [(QT_INPUTS, zero, T0)])%list)).
    { eapply fluid_limits_run; eauto.
      unfold fluid_bounds. rewrite Z.eqb_refl.
      unfold mbind, M_bind, state_keyed_output, lift, mret, M_ret. simpl.
      rewrite Hread, Hc, Hsmall. reflexivity. }
    unfold _get_sat_bounds. rewrite (bind_ok _ _ _ _ _ E). reflexivity.
  - apply Qclt_le_weak, Qclt_sub_pos. by apply Qcmult_pos_pos.
Qed.

(** X3: hints that lie strictly between the limits of the fluid, or that are
    absent, are returned as they are on an object of any class, an [IsoLine]
    included: the result is the pair of hints, an absent hint replaced by the
    limit of the fluid, and no warning is issued. *)
Theorem sat_bounds_accepts_inner_hints (self : Base2DObject) (kind : pyobj)
    (smin smax : option float) (w w1 : World) (k : Z) (fluid_min fluid_max : float) :
  fluid_limits self kind w = (Ok (k, fluid_min, fluid_max), w1) ->
  ignored_hint fluid_min fluid_max smin = false ->
  ignored_hint fluid_min fluid_max smax = false ->
  _get_sat_bounds self kind smin smax w =
    (Ok (match smin with Some v => v | None => fluid_min end,
         match smax with Some v => v | None => fluid_max end), w1).
Proof.
  intros E Hmin Hmax. unfold _get_sat_bounds. rewrite (bind_ok _ _ _ _ _ E).
  unfold ignored_hint in Hmin, Hmax.
  destruct smin as [v1|], smax as [v2|]; simpl in *;
    repeat match goal with
           | H : negb ?b = false |- _ => apply negb_false_iff in H; rewrite H
           end; reflexivity.
Qed.

Lemma chosen_bound_min_inside (fmin fmax : Qc) (hint : option float) :
  (fmin < fmax)%Qc ->
  exists a : Qc,
    chosen_bound (Fin fmin) (Fin fmax) hint (Fin fmin) = Fin a /\
    (fmin <= a)%Qc /\ (a < fmax)%Qc.
Proof.
  intros Hlt. unfold chosen_bound. destruct hint as [[v|]|]; simpl.
  - destruct (Qclt_le_dec fmin v) as [H1|H1]; simpl.
    + destruct (Qclt_le_dec v fmax) as [H2|H2]; simpl.
      * exists v. split; [done|]. split; [by apply Qclt_le_weak|done].
      * exists fmin. split; [done|]. split; [apply Qcle_refl|done].
    + exists fmin. split; [done|]. split; [apply Qcle_refl|done].
  - exists fmin. split; [done|]. split; [apply Qcle_refl|done].
  - exists fmin. split; [done|]. split; [apply Qcle_refl|done].
Qed.

Lemma chosen_bound_max_inside (fmin fmax : Qc) (hint : option float) :
  (fmin < fmax)%Qc ->
  exists b : Qc,
    chosen_bound (Fin fmin) (Fin fmax) hint (Fin fmax) = Fin b /\
    (fmin < b)%Qc /\ (b <= fmax)%Qc.
Proof.
  intros Hlt. unfold chosen_bound. destruct hint as [[v|]|]; simpl.
  - destruct (Qclt_le_dec fmin v) as [H1|H1]; simpl.
    + destruct (Qclt_le_dec v fmax) as [H2|H2]; simpl.
      * exists v. split; [done|]. split; [done|by apply Qclt_le_weak].
      * exists fmax. split; [done|]. split; [done|apply Qcle_refl].
    + exists fmax. split; [done|]. split; [done|apply Qcle_refl].
  - exists fmax. split; [done|]. split; [done|apply Qcle_refl].
  - exists fmax. split; [done|]. split; [done|apply Qcle_refl].
Qed.

(** X4: on a [BasePlot] whose fluid has finite limits [fluid_min < fluid_max],
    [_get_sat_bounds] returns for every pair of hints, not-a-number
    included: the lower bound is the hint or [fluid_min] and lies in
    [[fluid_min, fluid_max)], the upper bound is the hint or [fluid_max] and
    lies in [(fluid_min, fluid_max]], and one warning is issued for each hint
    that was replaced. *)
Theorem sat_bounds_clamped_on_plot (self : Base2DObject) (kind : pyobj)
    (smin smax : option float) (w w1 : World) (k : Z) (fmin fmax : Qc) :
  class_of self = BasePlot_cls ->
  fluid_limits self kind w = (Ok (k, Fin fmin, Fin fmax), w1) ->
  (fmin < fmax)%Qc ->
  exists (a b : Qc) (w' : World) (lw : list Warning),
    _get_sat_bounds self kind smin smax w = (Ok (Fin a, Fin b), w') /\
    (fmin <= a)%Qc /\ (a < fmax)%Qc /\ (fmin < b)%Qc /\ (b <= fmax)%Qc /\
    (smin = Some (Fin a) \/ a = fmin) /\ (smax = Some (Fin b) \/ b = fmax) /\
    warned w' = (warned w1 ++ lw)%list /\
    length lw = ((if ignored_hint (Fin fmin) (Fin fmax) smin then 1 else 0) +
                 (if ignored_hint (Fin fmin) (Fin fmax) smax then 1 else 0))%nat /\
    eos w' = eos w1 /\ updates w' = updates w1.
Proof.
  intros Hc E Hlt.
  destruct (get_sat_bounds_hint_on_plot self kind smin smax w w1 k _ _ Hc E)
    as (name & w' & _ & Hrun & Hs & Hu & Hw).
  destruct (chosen_bound_min_inside fmin fmax smin Hlt) as (a & Ha & Ha1 & Ha2).
  destruct (chosen_bound_max_inside fmin fmax smax Hlt) as (b & Hb & Hb1 & Hb2).
  exists a, b, w', (hint_warnings name (Fin fmin) (Fin fmax) smin smax).
  rewrite Ha, Hb in Hrun. split; [exact Hrun|].
  do 4 (split; [assumption|]).
  split; [|split; [|split; [exact Hw|split; [|done]]]].
  - unfold chosen_bound in Ha. destruct smin as [v|]; [|right; congruence].
    destruct (flt (Fin fmin) v && flt v (Fin fmax)); [left|right]; congruence.
  - unfold chosen_bound in Hb. destruct smax as [v|]; [|right; congruence].
    destruct (flt (Fin fmin) v && flt v (Fin fmax)); [left|right]; congruence.
  - unfold hint_warnings, ignored_hint. rewrite length_app.
    destruct smin as [v1|], smax as [v2|];
      repeat match goal with
             | |- context [flt ?x ?y && flt ?z ?t] => destruct (flt x y && flt z t)
             end; reflexivity.
Qed.

(** ** More on quantities and unit systems *)

Lemma from_SI_finite (q : BaseQuantity) (a m o x : Qc) :
  add_SI q = Fin a -> mul_SI q = Fin m -> off_SI q = Fin o ->
  from_SI q (Fin x) = Fin ((x + o) * m + a)%Qc.
Proof. intros Ha Hm Ho. unfold from_SI. rewrite Ha, Hm, Ho. reflexivity. Qed.

Lemma from_SI_increasing (q : BaseQuantity) (a m o x y : Qc) :
  add_SI q = Fin a -> mul_SI q = Fin m -> off_SI q = Fin o ->
  (0 < m)%Qc -> (x < y)%Qc ->
  exists u v, from_SI q (Fin x) = Fin u /\ from_SI q (Fin y) = Fin v /\ (u < v)%Qc.
Proof.
  intros Ha Hm Ho Hpos Hxy.
  rewrite !(from_SI_finite q a m o) by assumption.
  do 2 eexists. split; [reflexivity|]. split; [reflexivity|].
  apply Qclt_minus_iff in Hxy. apply Qclt_minus_iff.
  replace ((y + o) * m + a + - ((x + o) * m + a))%Qc with ((y + - x) * m)%Qc by ring.
  by apply Qcmult_pos_pos.
Qed.

Lemma from_SI_nondecreasing (q : BaseQuantity) (a m o x y : Qc) :
  add_SI q = Fin a -> mul_SI q = Fin m -> off_SI q = Fin o ->
  (0 < m)%Qc -> (x <= y)%Qc ->
  exists u v, from_SI q (Fin x) = Fin u /\ from_SI q (Fin y) = Fin v /\ (u <= v)%Qc.
Proof.
  intros Ha Hm Ho Hpos Hxy.
  destruct (Qc_eq_dec x y) as [->|Hne].
  - rewrite !(from_SI_finite q a m o) by assumption.
    do 2 eexists. split; [reflexivity|]. split; [reflexivity|]. apply Qcle_refl.
  - assert (Hlt : (x < y)%Qc) by (apply Qcle_lt_or_eq in Hxy as [?|?]; [done|contradiction]).
    destruct (from_SI_increasing q a m o x y Ha Hm Ho Hpos Hlt) as (u & v & Hu & Hv & Huv).
    exists u, v. split; [done|]. split; [done|]. by apply Qclt_le_weak.
Qed.

(** Every dimension of the three systems is affine with a positive slope. *)
Lemma unit_system_dimension_positive (name : string) (s : UnitSystem) (d : BaseDimension) :
  In (name, s) UNIT_SYSTEMS -> In d (all_dimensions s) ->
  exists a m o, add_SI d = Fin a /\ mul_SI d = Fin m /\ off_SI d = Fin o /\ (0 < m)%Qc.
Proof.
  intros Hs Hd.
  assert (H1 : (0 < Q2Qc (1 # 1))%Qc) by reflexivity.
  assert (H2 : (0 < Q2Qc (1 # 1000))%Qc) by reflexivity.
  assert (H3 : (0 < Q2Qc (1 # 100000))%Qc) by reflexivity.
  simpl in Hs.
  destruct Hs as [E|[E|[E|[]]]]; inversion E; subst; clear E;
    simpl in Hd; repeat (destruct Hd as [Hd|Hd]; [subst d; simpl; eauto 10|]);
    destruct Hd.
Qed.

(** X5: for every quantity whose three coefficients are finite and whose
    [mul_SI] is not zero, and not only for those of the three unit systems,
    [to_SI] undoes [from_SI] on every finite value, [from_SI] undoes [to_SI],
    and [from_SI] never maps two different values to the same one. *)
Theorem quantity_conversion_inverse (q : BaseQuantity) (a m o : Qc) :
  add_SI q = Fin a -> mul_SI q = Fin m -> off_SI q = Fin o -> m <> 0%Qc ->
  (forall x : Qc, to_SI q (from_SI q (Fin x)) = Ok (Fin x)) /\
  (forall y : Qc, exists x : Qc, to_SI q (Fin y) = Ok (Fin x) /\ from_SI q (Fin x) = Fin y) /\
  (forall x x' : Qc, from_SI q (Fin x) = from_SI q (Fin x') -> x = x').
Proof.
  intros Ha Hm Ho Hnz.
  assert (Hback : forall x : Qc, to_SI q (from_SI q (Fin x)) = Ok (Fin x))
    by (intros x; by eapply to_SI_from_SI_affine).
  split; [exact Hback|]. split.
  - intros y. by eapply from_SI_to_SI_affine.
  - intros x x' E. pose proof (Hback x) as Hx. rewrite E, Hback in Hx. congruence.
Qed.


(** X7: in each of the unit systems SI, KSI and EUR and for each of its
    dimensions, [from_SI] keeps the order of finite values: a value in SI
    units that is not above another one is not above it in the units of the
    system either, so that lower and upper limits are never exchanged by the
    conversion. Arithmetic is exact (rounding is not part of the model);
    two different values may become equal once rounded, which is why the
    order is stated with [<=]. *)
Theorem unit_systems_keep_order (name : string) (s : UnitSystem) (d : BaseDimension)
    (x y : Qc) :
  In (name, s) UNIT_SYSTEMS -> In d (all_dimensions s) ->
  (x <= y)%Qc ->
  exists u v : Qc, from_SI d (Fin x) = Fin u /\ from_SI d (Fin y) = Fin v /\ (u <= v)%Qc.
Proof.
  intros Hs Hd Hxy.
  destruct (unit_system_dimension_positive name s d Hs Hd) as (a & m & o & Ha & Hm & Ho & Hpos).
  by eapply from_SI_nondecreasing.
Qed.

Lemma pydict_lookup_last {V : Type} (items : list (Z * V)) (k : Z) (v : V)
    (rest : list (Z * V)) :
  k ∉ rest.*1 -> pydict (items ++ (k, v) :: rest) !! k = Some v.
Proof.
  unfold pydict. rewrite foldl_app. simpl.
  generalize (foldl (fun m kv => <[kv.1 := kv.2]> m) (∅ : gmap Z V) items). intros m.
  assert (G : forall (rest : list (Z * V)) (m : gmap Z V),
             k ∉ rest.*1 -> m !! k = Some v ->
             foldl (fun m kv => <[kv.1 := kv.2]> m) m rest !! k = Some v).
  { clear. induction rest as [|[k' v'] rest IH]; intros m Hnot Hm; simpl; [done|].
    simpl in Hnot. apply not_elem_of_cons in Hnot as [Hne Hnot].
    apply IH; [done|]. simpl. by rewrite lookup_insert_ne. }
  intros Hnot. apply G; [done|]. simpl. by rewrite lookup_insert_eq.
Qed.

Lemma pydict_lookup_None {V : Type} (items : list (Z * V)) (k : Z) :
  k ∉ items.*1 -> pydict items !! k = None.
Proof.
  unfold pydict.
  assert (G : forall (m : gmap Z V),
             k ∉ items.*1 -> m !! k = None ->
             foldl (fun m kv => <[kv.1 := kv.2]> m) m items !! k = None).
  { induction items as [|[k' v'] items IH]; intros m Hnot Hm; simpl; [done|].
    simpl in Hnot. apply not_elem_of_cons in Hnot as [Hne Hnot].
    apply IH; [done|]. simpl. by rewrite lookup_insert_ne. }
  intros Hnot. by apply G.
Qed.

(** X8: when the seven property constants of CoolProp are different from
    each other, [dimensions] maps each of them to the dimension of the same
    name of the unit system, and subscripting it with any other key raises
    [KeyError] for that key. *)
Theorem dimensions_by_property (s : UnitSystem) :
  NoDup dimension_keys ->
  getitem_dict (dimensions s) iDmass = Ok (Units.D s) /\
  getitem_dict (dimensions s) iHmass = Ok (Units.H s) /\
  getitem_dict (dimensions s) iP = Ok (Units.P s) /\
  getitem_dict (dimensions s) iSmass = Ok (Units.S s) /\
  getitem_dict (dimensions s) iT = Ok (Units.T s) /\
  getitem_dict (dimensions s) iUmass = Ok (Units.U s) /\
  getitem_dict (dimensions s) iQ = Ok (Units.Q s) /\
  (forall k : Z, k ∉ dimension_keys -> getitem_dict (dimensions s) k = Raise (KeyError k)).
Proof.
  intros Hnd. unfold dimension_keys in Hnd.
  repeat (apply NoDup_cons in Hnd as [? Hnd]).
  unfold getitem_dict, dimensions.
  assert (L : forall (prefix rest : list (Z * BaseDimension)) (k : Z) (v : BaseDimension),
             k ∉ rest.*1 ->
             match pydict (prefix ++ (k, v) :: rest) !! k with
             | Some v => Ok v
             | None => Raise (KeyError k)
             end = Ok v)
    by (intros prefix rest k v Hk; by rewrite pydict_lookup_last).
  repeat split.
  - apply (L []). simpl. assumption.
  - apply (L [_]). simpl. assumption.
  - apply (L [_; _]). simpl. assumption.
  - apply (L [_; _; _]). simpl. assumption.
  - apply (L [_; _; _; _]). simpl. assumption.
  - apply (L [_; _; _; _; _]). simpl. assumption.
  - apply (L [_; _; _; _; _; _]). simpl. apply not_elem_of_nil.
  - intros k Hk. rewrite pydict_lookup_None; done.
Qed.

(** ** The limits of the axes *)

Lemma axis_limits_already_set_aux (self : BasePlot) (x_arg y_arg : option Z) (w : World) :
  limits_not_set self (match x_arg with Some i => i | None => _x_index self end)
    (match y_arg with Some i => i | None => _y_index self end) (axis w) = false ->
  get_axis_limits self x_arg y_arg w =
    (Ok [(get_xlim (axis w)).1; (get_xlim (axis w)).2;
         (get_ylim (axis w)).1; (get_ylim (axis w)).2], w).
Proof.
  intros Hset. unfold get_axis_limits.
  rewrite (bind_ok (read_axis get_autoscalex_on) _ w w _ eq_refl).
  rewrite (bind_ok (read_axis get_autoscaley_on) _ w w _ eq_refl).
  unfold limits_not_set in Hset. rewrite Hset. reflexivity.
Qed.

(** X9: when the limits of the plot's own axes are asked for and neither
    axis autoscales, [get_axis_limits] returns the current limits of the
    axes and does nothing else: the handle is not evaluated, no warning is
    issued, and no dimension is looked up. *)
Theorem axis_limits_already_set (self : BasePlot) (x_arg y_arg : option Z) (w : World) :
  let x_index := match x_arg with Some i => i | None => _x_index self end in
  let y_index := match y_arg with Some i => i | None => _y_index self end in
  limits_not_set self x_index y_index (axis w) = false ->
  get_axis_limits self x_arg y_arg w =
    (Ok [(get_xlim (axis w)).1; (get_xlim (axis w)).2;
         (get_ylim (axis w)).1; (get_ylim (axis w)).2], w).
Proof.
  intros x_index y_index Hset.
  unfold get_axis_limits. fold x_index y_index.
  rewrite (bind_ok (read_axis get_autoscalex_on) _ w w _ eq_refl).
  rewrite (bind_ok (read_axis get_autoscaley_on) _ w w _ eq_refl).
  unfold limits_not_set in Hset. rewrite Hset. reflexivity.
Qed.

Lemma set_axis_limits_run (self : BasePlot) (a b c d : float) (rest : list float) (w : World) :
  set_axis_limits self (a :: b :: c :: d :: rest) w =
    (Ok (), mkWorld (eos w) (set_ylim (c, d) (set_xlim (a, b) (axis w)))
                    (warned w) (updates w)).
Proof. reflexivity. Qed.

(** X10: limits that were set with [set_axis_limits] are the limits that
    [get_axis_limits] returns for the plot's own axes, on axes that keep
    them: the first four elements of the list come back, the handle is not
    touched and nothing is warned. *)
Theorem set_then_get_axis_limits (self : BasePlot) (a b c d : float) (rest : list float)
    (w : World) :
  limits_kept (a, b) (c, d) (axis w) ->
  exists w' : World,
    set_axis_limits self (a :: b :: c :: d :: rest) w = (Ok (), w') /\
    get_axis_limits self None None w' = (Ok [a; b; c; d], w') /\
    eos w' = eos w /\ warned w' = warned w /\ updates w' = updates w.
Proof.
  intros (Hx & Hy & Hax & Hay). eexists. split; [apply set_axis_limits_run|].
  split; [|done].
  rewrite (axis_limits_already_set_aux self None None); cycle 1.
  - unfold limits_not_set. cbn [axis]. rewrite !Z.eqb_refl, Hax, Hay. reflexivity.
  - cbn [axis]. rewrite Hx, Hy. reflexivity.
Qed.

Lemma pydict_lookup_elem {V : Type} (items : list (Z * V)) (k : Z) (v : V) :
  pydict items !! k = Some v -> (k, v) ∈ items.
Proof.
  unfold pydict.
  assert (G : forall (m : gmap Z V),
             foldl (fun m kv => <[kv.1 := kv.2]> m) m items !! k = Some v ->
             (k, v) ∈ items \/ m !! k = Some v).
  { induction items as [|[k' v'] items IH]; intros m Hm; simpl in Hm; [by right|].
    apply IH in Hm as [Hin|Hm]; [left; apply elem_of_cons; by right|].
    simpl in Hm. destruct (decide (k' = k)) as [->|Hne].
    - rewrite lookup_insert_eq in Hm. injection Hm as ->. left. apply elem_of_cons. by left.
    - rewrite lookup_insert_ne in Hm by done. by right. }
  intros Hm. apply G in Hm as [Hin|Hm]; [done|]. by rewrite lookup_empty in Hm.
Qed.

Lemma dimensions_lookup_In (s : UnitSystem) (k : Z) (d : BaseDimension) :
  dimensions s !! k = Some d -> In d (all_dimensions s).
Proof.
  intros Hd. apply pydict_lookup_elem in Hd. unfold all_dimensions.
  repeat (apply elem_of_cons in Hd as [Hd|Hd]; [injection Hd as _ ->; simpl; tauto|]).
  by apply elem_of_nil in Hd.
Qed.

Lemma set_axis_limits_SI_run (self : BasePlot) (a b c d : float) (rest : list float)
    (dx dy : BaseDimension) (w : World) :
  dimensions (_system self) !! _x_index self = Some dx ->
  dimensions (_system self) !! _y_index self = Some dy ->
  _set_axis_limits self (a :: b :: c :: d :: rest) w =
    (Ok (), mkWorld (eos w)
              (set_ylim (from_SI dy c, from_SI dy d)
                 (set_xlim (from_SI dx a, from_SI dx b) (axis w)))
              (warned w) (updates w)).
Proof.
  intros Hx Hy. unfold _set_axis_limits, getitem_dict. rewrite Hx, Hy. reflexivity.
Qed.

(** X11: in a plot that uses SI, KSI or EUR units, finite limits given to
    [_set_axis_limits] in SI units are returned by [_get_axis_limits] in SI
    units again, up to floating-point rounding, on axes that keep the limits
    they are set to: the values are converted with [from_SI] on the way in
    and with [to_SI] on the way out, which are exact inverses in the exact
    arithmetic of the model (rounding is not part of it). The handle is not
    touched and nothing is warned. *)
Theorem set_then_get_axis_limits_SI (name : string) (self : BasePlot) (a b c d : Qc)
    (rest : list float) (dx dy : BaseDimension) (w : World) :
  In (name, _system self) UNIT_SYSTEMS ->
  dimensions (_system self) !! _x_index self = Some dx ->
  dimensions (_system self) !! _y_index self = Some dy ->
  limits_kept (from_SI dx (Fin a), from_SI dx (Fin b))
              (from_SI dy (Fin c), from_SI dy (Fin d)) (axis w) ->
  exists w' : World,
    _set_axis_limits self (Fin a :: Fin b :: Fin c :: Fin d :: rest) w = (Ok (), w') /\
    _get_axis_limits self None None w' = (Ok [Fin a; Fin b; Fin c; Fin d], w') /\
    eos w' = eos w /\ warned w' = warned w /\ updates w' = updates w.
Proof.
  intros Hs Hx Hy (Hlx & Hly & Hax & Hay).
  destruct (unit_system_dimension_affine name _ dx Hs (dimensions_lookup_In _ _ _ Hx))
    as (ax & mx & ox & Hax1 & Hmx & Hox & Hnzx).
  destruct (unit_system_dimension_affine name _ dy Hs (dimensions_lookup_In _ _ _ Hy))
    as (ay & my & oy & Hay1 & Hmy & Hoy & Hnzy).
  eexists. split; [by apply set_axis_limits_SI_run|]. split; [|done].
  unfold _get_axis_limits.
  erewrite bind_ok; cycle 1.
  { apply axis_limits_already_set_aux. unfold limits_not_set. cbn [axis].
    rewrite !Z.eqb_refl, Hax, Hay. reflexivity. }
  cbn [axis]. rewrite Hlx, Hly. cbn [fst snd].
  unfold getitem_dict. rewrite Hx, Hy.
  unfold mbind, M_bind, lift, getitem_list. cbn [lookup list_lookup list_insert insert].
  rewrite !(to_SI_from_SI_affine dx ax mx ox) by assumption.
  cbn [lookup list_lookup list_insert insert].
  rewrite !(to_SI_from_SI_affine dy ay my oy) by assumption.
  reflexivity.
Qed.

(** X12: [set_axis_limits] needs four values. With a list of fewer than
    four it raises [IndexError]; with fewer than two the axes are left as
    they were, but with two or three the x limits have already been set to
    the first two values when the error is raised. *)
Theorem set_axis_limits_short_list (self : BasePlot) (limits : list float) (w : World) :
  (length limits < 4)%nat ->
  exists (msg : string) (w' : World),
    set_axis_limits self limits w = (Raise (IndexError msg), w') /\
    eos w' = eos w /\ warned w' = warned w /\ updates w' = updates w /\
    match limits with
    | a :: b :: _ => axis w' = set_xlim (a, b) (axis w)
    | _ => axis w' = axis w
    end.
Proof.
  intros Hlen.
  destruct limits as [|a [|b [|c [|d rest]]]]; simpl in Hlen; try lia;
    do 2 eexists; (split; [reflexivity|]); done.
Qed.

Lemma py_min_finite (q : Qc) (l : list Qc) :
  exists m : Qc, py_min (Fin q) (Fin <$> l) = Fin m /\ (m <= q)%Qc /\ Forall (Qcle m) l.
Proof.
  revert q. induction l as [|v l IH]; intros q.
  - exists q. split; [reflexivity|]. split; [apply Qcle_refl|constructor].
  - unfold py_min. simpl. destruct (Qclt_le_dec v q) as [Hlt|Hle].
    + destruct (IH v) as (m & Hm & Hmv & Hall). exists m. split; [exact Hm|].
      split; [|by constructor].
      apply Qcle_trans with v; [done|by apply Qclt_le_weak].
    + destruct (IH q) as (m & Hm & Hmq & Hall). exists m. split; [exact Hm|].
      split; [done|]. constructor; [|done]. by apply Qcle_trans with q.
Qed.

Lemma py_max_finite (q : Qc) (l : list Qc) :
  exists m : Qc, py_max (Fin q) (Fin <$> l) = Fin m /\ (q <= m)%Qc /\
                 Forall (fun v => (v <= m)%Qc) l.
Proof.
  revert q. induction l as [|v l IH]; intros q.
  - exists q. split; [reflexivity|]. split; [apply Qcle_refl|constructor].
  - unfold py_max. simpl. destruct (Qclt_le_dec q v) as [Hlt|Hle].
    + destruct (IH v) as (m & Hm & Hmv & Hall). exists m. split; [exact Hm|].
      split; [|by constructor].
      apply Qcle_trans with v; [by apply Qclt_le_weak|done].
    + destruct (IH q) as (m & Hm & Hmq & Hall). exists m. split; [exact Hm|].
      split; [done|]. constructor; [|done]. by apply Qcle_trans with q.
Qed.

Lemma list_min_max_finite (l : list Qc) (lo hi : float) :
  list_min (Fin <$> l) = Ok lo -> list_max (Fin <$> l) = Ok hi ->
  exists a b : Qc, lo = Fin a /\ hi = Fin b /\
                   Forall (fun v => (a <= v)%Qc /\ (v <= b)%Qc) l.
Proof.
  destruct l as [|q l]; [discriminate|]. intros Hlo Hhi.
  change (Fin <$> q :: l) with (Fin q :: (Fin <$> l)) in Hlo, Hhi.
  unfold list_min in Hlo. unfold list_max in Hhi.
  destruct (py_min_finite q l) as (a & Ha & Haq & Hall_a).
  destruct (py_max_finite q l) as (b & Hb & Hbq & Hall_b).
  rewrite Ha in Hlo. rewrite Hb in Hhi. injection Hlo as <-. injection Hhi as <-.
  exists a, b. split; [done|]. split; [done|].
  constructor; [done|].
  rewrite Forall_forall in Hall_a, Hall_b. apply Forall_forall. intros v Hv. split; auto.
Qed.

Lemma from_SI_between (q : BaseQuantity) (qa qm qo : Qc) (a b : Qc) (l : list Qc) :
  add_SI q = Fin qa -> mul_SI q = Fin qm -> off_SI q = Fin qo -> (0 < qm)%Qc ->
  l <> [] ->
  Forall (fun v => (a <= v)%Qc /\ (v <= b)%Qc) l ->
  exists a' b' : Qc,
    from_SI q (Fin a) = Fin a' /\ from_SI q (Fin b) = Fin b' /\ (a' <= b')%Qc /\
    Forall (fun v => exists v', from_SI q (Fin v) = Fin v' /\ (a' <= v')%Qc /\ (v' <= b')%Qc) l.
Proof.
  intros Ha Hm Ho Hpos Hne Hall.
  pose proof (from_SI_finite q qa qm qo a Ha Hm Ho) as Ea.
  pose proof (from_SI_finite q qa qm qo b Ha Hm Ho) as Eb.
  assert (Hmono : forall x y : Qc, (x <= y)%Qc ->
            ((x + qo) * qm + qa <= (y + qo) * qm + qa)%Qc).
  { intros x y Hxy.
    destruct (from_SI_nondecreasing q qa qm qo x y Ha Hm Ho Hpos Hxy) as (u & v & Hu & Hv & Huv).
    rewrite (from_SI_finite q qa qm qo) in Hu, Hv by assumption.
    injection Hu as <-. injection Hv as <-. exact Huv. }
  do 2 eexists. split; [exact Ea|]. split; [exact Eb|]. split.
  - destruct l as [|v l]; [done|]. apply Forall_cons in Hall as [[H1 H2] _].
    apply Hmono. by apply Qcle_trans with v.
  - eapply Forall_impl; [exact Hall|]. intros v [H1 H2]. simpl.
    eexists. split; [by apply (from_SI_finite q qa qm qo)|]. split; by apply Hmono.
Qed.

Lemma get_axis_limits_computed (self : BasePlot) (x_arg y_arg : option Z)
    (w w' : World) (x_lim y_lim : float * float) :
  let x_index := match x_arg with Some i => i | None => _x_index self end in
  let y_index := match y_arg with Some i => i | None => _y_index self end in
  limits_not_set self x_index y_index (axis w) = true ->
  corner_limits self x_index y_index w = (Ok (x_lim, y_lim), w') ->
  let x_step := returned_xlim self x_index x_lim (axis w') in
  let y_step := returned_ylim self y_index y_lim x_step.2 in
  get_axis_limits self x_arg y_arg w =
    (Ok [x_step.1.1; x_step.1.2; y_step.1.1; y_step.1.2],
     mkWorld (eos w') y_step.2 (warned w') (updates w')).
Proof.
  intros x_index y_index Hcond Hrun x_step y_step.
  unfold get_axis_limits. fold x_index y_index.
  rewrite (bind_ok (read_axis get_autoscalex_on) _ w w _ eq_refl).
  rewrite (bind_ok (read_axis get_autoscaley_on) _ w w _ eq_refl).
  unfold limits_not_set in Hcond. rewrite Hcond.
  unfold mbind at 1, M_bind at 1.
  rewrite (bind_ok _ _ _ _ _ Hrun). cbv beta iota.
  rewrite (bind_ok _ _ _ _ _ (update_or_get_xlim_run _ _ _ _)).
  rewrite (bind_ok _ _ _ _ _ (update_or_get_ylim_run _ _ _ _)).
  reflexivity.
Qed.

(** X13: in a plot that uses SI, KSI or EUR units, when the handle answers
    the four corners with finite values, the limits that [get_axis_limits]
    computes for an axis are in order, lower before upper, and every one of
    the four readings of the axis, converted with [from_SI], lies between
    them. These are the limits returned for an axis other than the plot's
    own and for an own axis that autoscales. *)
Theorem computed_limits_contain_readings (name : string) (self : BasePlot)
    (x_arg y_arg : option Z) (w w1 w2 : World) (T_lo T_hi P_lo P_hi T_max : float)
    (readings : list (Qc * Qc)) (s' : AbstractState) (dx dy : BaseDimension) :
  let x_index := match x_arg with Some i => i | None => _x_index self end in
  let y_index := match y_arg with Some i => i | None => _y_index self end in
  let T1 := fmul lo_factor T_lo in
  let T2 := py_min (fmul hi_factor T_hi) [T_max] in
  let P1 := fmul lo_factor P_lo in
  let P2 := fmul hi_factor P_hi in
  In (name, _system self) UNIT_SYSTEMS ->
  limits_not_set self x_index y_index (axis w) = true ->
  _get_sat_bounds self (PyInt iT) None None w = (Ok (T_lo, T_hi), w1) ->
  _get_sat_bounds self (PyInt iP) None None w1 = (Ok (P_lo, P_hi), w2) ->
  trivial_keyed_output iT_max = Ok T_max ->
  reads_corners x_index y_index (eos w2)
    [(P1, T1); (P2, T1); (P1, T2); (P2, T2)]
    ((fun r : Qc * Qc => (Fin r.1, Fin r.2)) <$> readings) s' ->
  dimensions (_system self) !! x_index = Some dx ->
  dimensions (_system self) !! y_index = Some dy ->
  exists (x_lo x_hi y_lo y_hi : Qc) (w' : World),
    let x_step := returned_xlim self x_index (Fin x_lo, Fin x_hi) (axis w) in
    let y_step := returned_ylim self y_index (Fin y_lo, Fin y_hi) x_step.2 in
    get_axis_limits self x_arg y_arg w =
      (Ok [x_step.1.1; x_step.1.2; y_step.1.1; y_step.1.2], w') /\
    (x_lo <= x_hi)%Qc /\ (y_lo <= y_hi)%Qc /\
    Forall (fun r : Qc * Qc =>
              exists u v : Qc,
                from_SI dx (Fin r.1) = Fin u /\ from_SI dy (Fin r.2) = Fin v /\
                (x_lo <= u)%Qc /\ (u <= x_hi)%Qc /\ (y_lo <= v)%Qc /\ (v <= y_hi)%Qc)
           readings.
Proof.
  intros x_index y_index T1 T2 P1 P2 Hs Hcond Hb1 Hb2 Hmax Hread Hdx Hdy.
  destruct (corner_limits_run self x_index y_index w w1 w2 T_lo T_hi P_lo P_hi T_max
              _ s' dx dy Hb1 Hb2 Hmax Hread Hdx Hdy)
    as (min_x & max_x & min_y & max_y & Hminx & Hmaxx & Hminy & Hmaxy & Hrun).
  assert (E1 : ((fun r : Qc * Qc => (Fin r.1, Fin r.2)) <$> readings).*1 = Fin <$> readings.*1)
    by (rewrite <- !list_fmap_compose; reflexivity).
  assert (E2 : ((fun r : Qc * Qc => (Fin r.1, Fin r.2)) <$> readings).*2 = Fin <$> readings.*2)
    by (rewrite <- !list_fmap_compose; reflexivity).
  rewrite E1 in Hminx, Hmaxx. rewrite E2 in Hminy, Hmaxy.
  destruct (list_min_max_finite _ _ _ Hminx Hmaxx) as (ax & bx & -> & -> & Hallx).
  destruct (list_min_max_finite _ _ _ Hminy Hmaxy) as (ay & byy & -> & -> & Hally).
  assert (Hne : readings <> []) by (intros ->; discriminate).
  destruct (unit_system_dimension_positive name _ dx Hs (dimensions_lookup_In _ _ _ Hdx))
    as (qax & qmx & qox & Hax1 & Hmx & Hox & Hposx).
  destruct (unit_system_dimension_positive name _ dy Hs (dimensions_lookup_In _ _ _ Hdy))
    as (qay & qmy & qoy & Hay1 & Hmy & Hoy & Hposy).
  destruct (from_SI_between dx qax qmx qox ax bx readings.*1 Hax1 Hmx Hox Hposx)
    as (x_lo & x_hi & Exlo & Exhi & Hxord & Hxall); [by destruct readings|exact Hallx|].
  destruct (from_SI_between dy qay qmy qoy ay byy readings.*2 Hay1 Hmy Hoy Hposy)
    as (y_lo & y_hi & Eylo & Eyhi & Hyord & Hyall); [by destruct readings|exact Hally|].
  rewrite Exlo, Exhi, Eylo, Eyhi in Hrun.
  exists x_lo, x_hi, y_lo, y_hi. eexists.
  split; [|split; [exact Hxord|split; [exact Hyord|]]].
  - apply (get_axis_limits_computed self x_arg y_arg w _ _ _ Hcond Hrun).
  - rewrite Forall_fmap in Hxall, Hyall. rewrite Forall_forall in Hxall, Hyall.
    apply Forall_forall. intros r Hr.
    destruct (Hxall r Hr) as (u & Hu & Hu1 & Hu2).
    destruct (Hyall r Hr) as (v & Hv & Hv1 & Hv2).
    exists u, v. simpl in Hu, Hv. done.
Qed.

(** ** The calls of a sweep *)

Lemma sample_calls_zip (ipair : Z) (a b : ndarray) :
  length a = length b ->
  flat_map (sample_call ipair a b) (seq 0 (length a)) =
  zip_with (fun x y => (ipair, x, y)) a b.
Proof.
  intros Hlen.
  assert (G : forall k l1 l2, length l1 = length l2 ->
            (forall j, (j < length l1)%nat ->
                       a !! (k + j)%nat = l1 !! j /\ b !! (k + j)%nat = l2 !! j) ->
            flat_map (sample_call ipair a b) (seq k (length l1)) =
            zip_with (fun x y => (ipair, x, y)) l1 l2).
  { intros k l1. revert k. induction l1 as [|x l1 IH]; intros k l2 Hl Hj.
    - reflexivity.
    - destruct l2 as [|y l2]; [discriminate|]. simpl in Hl. injection Hl as Hl.
      simpl. unfold sample_call at 1.
      destruct (Hj 0%nat) as [Ha Hb]; [simpl; lia|].
      rewrite Nat.add_0_r in Ha, Hb. rewrite Ha, Hb. simpl. f_equal.
      apply IH; [done|]. intros j Hlt.
      destruct (Hj (S j)) as [Ha' Hb']; [simpl; lia|].
      replace (S k + j)%nat with (k + S j)%nat by lia. done. }
  apply (G 0%nat a b Hlen). intros j _. done.
Qed.

Lemma sample_warnings_length {A : Type} (a b : ndarray) (f : nat -> result A) (k n : nat) :
  (length (flat_map (fun j => sample_warning a b j (f j)) (seq k n)) <= n)%nat.
Proof.
  revert k. induction n as [|n IH]; intros k; simpl; [lia|].
  rewrite length_app. specialize (IH (S k)).
  assert (length (sample_warning a b k (f k)) <= 1)%nat; [|lia].
  unfold sample_warning. destruct (a !! k), (b !! k), (f k); simpl; lia.
Qed.

(** X14: [calc_sat_range] with a supplied range never raises, whatever the
    handle does. [Trange] is used when both ranges are given. The handle is
    updated once for each element of the range, in order: with
    [(QT_INPUTS, value, T)] for a temperature range and with
    [(PQ_INPUTS, P, value)] for a pressure range; [x] and [y] get one cell
    for each element, at most one warning is issued for each element, [num]
    is not used, and an empty range makes no call at all. *)
Theorem calc_sat_range_supplied_range (self : IsoLine) (Trange Prange : option ndarray)
    (num : Z) (range : ndarray) (w : World) :
  Trange = Some range \/ (Trange = None /\ Prange = Some range) ->
  exists (X Y : ndarray) (w' : World) (lw : list Warning),
    calc_sat_range self Trange Prange num w = (Ok (set_y Y (set_x X self)), w') /\
    length X = length range /\ length Y = length range /\
    updates w' =
      (updates w ++
       match Trange with
       | Some _ => (fun T => (QT_INPUTS, _value self, T)) <$> range
       | None => (fun P => (PQ_INPUTS, P, _value self)) <$> range
       end)%list /\
    warned w' = (warned w ++ lw)%list /\ (length lw <= length range)%nat /\
    axis w' = axis w.
Proof.
  intros Hr.
  assert (Hin : exists one two ipair,
            sat_inputs self Trange Prange num w = (Ok (one, two, ipair), w) /\
            length one = length range /\ length two = length range /\
            zip_with (fun x y => (ipair, x, y)) one two =
              match Trange with
              | Some _ => (fun T => (QT_INPUTS, _value self, T)) <$> range
              | None => (fun P => (PQ_INPUTS, P, _value self)) <$> range
              end).
  { destruct Hr as [->|[-> ->]].
    - exists (np_resize [_value self] (length range)), range, QT_INPUTS.
      split; [reflexivity|]. rewrite np_resize_singleton, length_replicate.
      split; [done|]. split; [done|].
      clear. induction range as [|v range IH]; [reflexivity|]. simpl. by rewrite IH.
    - exists range, (np_resize [_value self] (length range)), PQ_INPUTS.
      split; [reflexivity|]. rewrite np_resize_singleton, length_replicate.
      split; [done|]. split; [done|].
      clear. induction range as [|v range IH]; [reflexivity|]. simpl. by rewrite IH. }
  destruct Hin as (one & two & ipair & Hin & Hl1 & Hl2 & Hzip).
  destruct (calc_sat_range_run self Trange Prange num w w one two ipair Hin)
    as (X & Y & w' & Hrun & HX & HY & _ & _ & Hax & Hw & Hu).
  exists X, Y, w'. eexists. split; [exact Hrun|].
  split; [congruence|]. split; [congruence|]. split; [|split; [exact Hw|split; [|exact Hax]]].
  - rewrite Hu, sample_calls_zip by congruence. by rewrite Hzip.
  - rewrite <- Hl1. apply sample_warnings_length.
Qed.

Lemma zip_with_replicate_l {A B C : Type} (f : A -> B -> C) (x : A) (l : list B) :
  zip_with f (replicate (length l) x) l = f x <$> l.
Proof. induction l as [|y l IH]; [reflexivity|]. simpl. by rewrite IH. Qed.

Lemma zip_with_replicate_r {A B C : Type} (f : A -> B -> C) (y : B) (l : list A) :
  zip_with f l (replicate (length l) y) = (fun x => f x y) <$> l.
Proof. induction l as [|x l IH]; [reflexivity|]. simpl. by rewrite IH. Qed.

(** X15: a sweep of [calc_range] over an array of at least two values on a
    supported diagram returns, and updates the handle once for each value of
    the array, in order and with nothing in between: each call has the input
    pair of the isoline, the value of the held property in the slot that the
    pair gives it and the sweep value in the other. At most one warning is
    issued for each value and the axes are left alone. *)
Theorem calc_range_update_calls (self : IsoLine) (xvals yvals : option ndarray)
    (switch : bool) (sweep : ndarray) (w : World) :
  _i_index self <> iQ ->
  switch_entry (_i_index self) (_x_index self) (_y_index self) = Ok (Some switch) ->
  (if switch then yvals else xvals) = Some sweep ->
  (2 <= length sweep)%nat ->
  exists (self' : IsoLine) (w' : World) (lw : list Warning),
    calc_range self xvals yvals w = (Ok self', w') /\
    updates w' =
      (updates w ++
       (if swap_of self switch
        then (fun v => (pair_of self switch, v, _value self)) <$> sweep
        else (fun v => (pair_of self switch, _value self, v)) <$> sweep))%list /\
    warned w' = (warned w ++ lw)%list /\ (length lw <= length sweep)%nat /\
    axis w' = axis w.
Proof.
  intros HQ Hentry Hsweep Htwo.
  assert (Hne : sweep <> []) by (intros ->; simpl in Htwo; lia).
  destruct (calc_range_run self xvals yvals switch sweep w HQ Hentry Hsweep ltac:(lia))
    as (out & w' & Hrun & _ & _ & _ & Hax & Hw & Hu).
  pose proof (length_slot_inputs self switch sweep) as [Hlen Hmax].
  assert (Hn : length (slot_inputs self switch sweep).1 = length sweep)
    by (rewrite Hmax; destruct sweep; [done|simpl; lia]).
  eexists. exists w'. eexists. split; [exact Hrun|].
  split; [|split; [exact Hw|split; [|exact Hax]]].
  - rewrite Hu, sample_calls_zip by exact Hlen.
    rewrite (slot_inputs_nonempty self switch sweep Hne).
    destruct (swap_of self switch); simpl.
    + by rewrite zip_with_replicate_r.
    + by rewrite zip_with_replicate_l.
  - rewrite <- Hn. apply sample_warnings_length.
Qed.

(** X16: an empty sweep array is not an empty sweep. [calc_range] with an
    empty array for the swept axis resizes it to the size of the held value,
    which fills it with zero: the handle is updated exactly once, with 0.0
    in place of the sweep value, and [x] and [y] each get one cell, the cell
    of the swept axis being 0.0. *)
Theorem calc_range_empty_sweep (self : IsoLine) (xvals yvals : option ndarray)
    (switch : bool) (w : World) :
  _i_index self <> iQ ->
  _i_index self <> _x_index self -> _i_index self <> _y_index self ->
  _x_index self <> _y_index self ->
  switch_entry (_i_index self) (_x_index self) (_y_index self) = Ok (Some switch) ->
  (if switch then yvals else xvals) = Some [] ->
  exists (self' : IsoLine) (w' : World) (cell : float),
    calc_range self xvals yvals w = (Ok self', w') /\
    updates w' =
      (updates w ++
       [if swap_of self switch then (pair_of self switch, zero, _value self)
        else (pair_of self switch, _value self, zero)])%list /\
    _x self' = Some (if switch then [cell] else [zero]) /\
    _y self' = Some (if switch then [zero] else [cell]).
Proof.
  intros HQ Hix Hiy Hxy Hentry Hsweep.
  destruct (calc_range_run self xvals yvals switch [] w HQ Hentry Hsweep ltac:(done))
    as (out & w' & Hrun & Hlen & _ & _ & _ & _ & Hu).
  destruct (assign_xy_slots self switch [] out Hix Hiy Hxy) as (_ & _ & _ & Hx & Hy).
  assert (Hin : slot_inputs self switch [] =
                if swap_of self switch then ([zero], [_value self])
                else ([_value self], [zero]))
    by (unfold slot_inputs, slot_arrays; by destruct (swap_of self switch)).
  assert (Hst : stored_sweep self switch [] = [zero])
    by (unfold stored_sweep; rewrite Hin; by destruct (swap_of self switch)).
  assert (Hout : exists cell, out = [cell]).
  { rewrite Hin in Hlen. destruct out as [|cell [|? ?]];
      destruct (swap_of self switch); simpl in Hlen; try discriminate; eauto. }
  destruct Hout as [cell ->].
  eexists. exists w', cell. split; [exact Hrun|]. split; [|split].
  - rewrite Hu, Hin. by destruct (swap_of self switch).
  - rewrite Hx, Hst. by destruct switch.
  - rewrite Hy, Hst. by destruct switch.
Qed.

(** ** The default range of [calc_sat_range] *)

Lemma linspace_sample_between (lo hi : Qc) (n k : Z) :
  (lo <= hi)%Qc -> 0 < n -> 0 <= k <= n ->
  (lo <= Qc_of_Z k * ((hi - lo) / Qc_of_Z n) + lo)%Qc /\
  (Qc_of_Z k * ((hi - lo) / Qc_of_Z n) + lo <= hi)%Qc.
Proof.
  intros Hle Hn Hk.
  assert (HN : (0 < Qc_of_Z n)%Qc) by (rewrite <- Z2Qc_inj_0; by apply (proj1 (Z2Qc_inj_lt 0 n))).
  assert (HNz : Qc_of_Z n <> 0%Qc) by (intros E; rewrite E in HN; by apply Qclt_not_eq in HN).
  assert (Hc : (0 <= Qc_of_Z k)%Qc) by (rewrite <- Z2Qc_inj_0; apply (proj1 (Z2Qc_inj_le 0 k)); lia).
  assert (Hc' : (0 <= Qc_of_Z n - Qc_of_Z k)%Qc).
  { rewrite <- Z2Qc_inj_sub, <- Z2Qc_inj_0. apply (proj1 (Z2Qc_inj_le 0 (n - k))). lia. }
  assert (Hd : (0 <= hi - lo)%Qc) by (apply Qcle_minus_iff in Hle; exact Hle).
  assert (Hq : (0 <= (hi - lo) / Qc_of_Z n)%Qc).
  { apply Qcmult_nonneg_nonneg; [exact Hd|]. apply Qclt_le_weak. by apply Qcinv_pos. }
  split.
  - apply Qcle_minus_iff.
    replace (Qc_of_Z k * ((hi - lo) / Qc_of_Z n) + lo + - lo)%Qc
      with (Qc_of_Z k * ((hi - lo) / Qc_of_Z n))%Qc by ring.
    by apply Qcmult_nonneg_nonneg.
  - apply Qcle_minus_iff.
    replace (hi + - (Qc_of_Z k * ((hi - lo) / Qc_of_Z n) + lo))%Qc
      with ((Qc_of_Z n - Qc_of_Z k) * ((hi - lo) / Qc_of_Z n))%Qc by (field; exact HNz).
    by apply Qcmult_nonneg_nonneg.
Qed.

Lemma Q2Qc_inject_Z (n : Z) : Q2Qc (inject_Z n) = Qc_of_Z n.
Proof. apply Qc_is_canon. simpl. apply Qred_correct. Qed.

Lemma np_linspace_finite (lo hi : Qc) (num : Z) :
  (lo <= hi)%Qc -> 2 <= num ->
  exists Ts : list Qc,
    np_linspace (Fin lo) (Fin hi) num = Ok (Fin <$> Ts) /\
    length Ts = Z.to_nat num /\ head Ts = Some lo /\ last Ts = Some hi /\
    Forall (fun t => (lo <= t)%Qc /\ (t <= hi)%Qc) Ts.
Proof.
  intros Hle Hnum.
  set (n := num - 1).
  assert (HN : (0 < Qc_of_Z n)%Qc)
    by (rewrite <- Z2Qc_inj_0; apply (proj1 (Z2Qc_inj_lt 0 n)); unfold n; lia).
  assert (HNz : Q2Qc (inject_Z n) <> 0%Qc).
  { rewrite Q2Qc_inject_Z. intros E. rewrite E in HN. by apply Qclt_not_eq in HN. }
  exists (map (fun k : nat =>
                 (Q2Qc (inject_Z (Z.of_nat k)) * ((hi - lo) / Q2Qc (inject_Z n)) + lo)%Qc)
              (seq 0 (Z.to_nat n)) ++ [hi])%list.
  split; [|split; [|split; [|split]]].
  - unfold np_linspace.
    destruct (num <? 0) eqn:E0; [apply Z.ltb_lt in E0; lia|].
    destruct (num =? 0) eqn:E1; [apply Z.eqb_eq in E1; lia|].
    destruct (num =? 1) eqn:E2; [apply Z.eqb_eq in E2; lia|].
    fold n. simpl.
    destruct (Qc_eq_dec (Q2Qc (inject_Z n)) 0%Qc) as [E|_]; [contradiction|].
    f_equal. rewrite fmap_app. simpl. f_equal.
    rewrite <- list_fmap_compose. reflexivity.
  - rewrite length_app, length_map, length_seq. simpl. unfold n. lia.
  - destruct (Z.to_nat n) as [|m] eqn:Em; [unfold n in Em; lia|].
    cbn [seq map app head]. f_equal.
    change (Z.of_nat 0) with 0. rewrite (Q2Qc_inject_Z 0), Z2Qc_inj_0. ring.
  - by rewrite last_snoc.
  - apply Forall_app. split.
    + apply Forall_forall. intros t Ht. apply list_elem_of_fmap in Ht as (k & -> & Hk).
      apply elem_of_seq in Hk. rewrite !Q2Qc_inject_Z.
      apply linspace_sample_between; [done|unfold n; lia|lia].
    + constructor; [|constructor]. split; [done|apply Qcle_refl].
Qed.

(** X17: without a supplied range and with at least two samples,
    [calc_sat_range] sweeps temperatures between the two saturation bounds
    of the fluid: when the bounds are finite and in order, it returns after
    exactly [num] further [update] calls [(QT_INPUTS, value, T)], the first
    at the lower bound, the last at the upper bound and every one between
    the two, so that no sample leaves the range that [_get_sat_bounds]
    allows. [x] and [y] get [num] cells. *)
Theorem calc_sat_range_default_samples (self : IsoLine) (num : Z) (w w1 : World)
    (lo hi : Qc) :
  _get_sat_bounds self (PyInt iT) None None w = (Ok (Fin lo, Fin hi), w1) ->
  (lo <= hi)%Qc -> 2 <= num ->
  exists (X Y : ndarray) (w' : World) (Ts : list Qc),
    calc_sat_range self None None num w = (Ok (set_y Y (set_x X self)), w') /\
    length Ts = Z.to_nat num /\ head Ts = Some lo /\ last Ts = Some hi /\
    Forall (fun t => (lo <= t)%Qc /\ (t <= hi)%Qc) Ts /\
    updates w' = (updates w1 ++ ((fun t => (QT_INPUTS, _value self, Fin t)) <$> Ts))%list /\
    length X = Z.to_nat num /\ length Y = Z.to_nat num.
Proof.
  intros Hb Hle Hnum.
  destruct (np_linspace_finite lo hi num Hle Hnum) as (Ts & Hlin & Hlen & Hhead & Hlast & Hall).
  assert (Hin : sat_inputs self None None num w =
                (Ok (np_resize [_value self] (length (Fin <$> Ts)), Fin <$> Ts, QT_INPUTS), w1)).
  { unfold sat_inputs. rewrite (bind_ok _ _ _ _ _ Hb). cbv beta iota.
    rewrite lift_bind, Hlin. reflexivity. }
  destruct (calc_sat_range_run self None None num w w1 _ _ _ Hin)
    as (X & Y & w' & Hrun & HX & HY & _ & _ & _ & _ & Hu).
  rewrite length_np_resize, length_fmap in HX, HY.
  exists X, Y, w', Ts. split; [exact Hrun|].
  do 4 (split; [assumption|]). split; [|split; congruence].
  rewrite Hu, sample_calls_zip by (by rewrite length_np_resize).
  rewrite np_resize_singleton, zip_with_replicate_l, <- list_fmap_compose. reflexivity.
Qed.

(** X18: the degenerate sample counts of [calc_sat_range] without a supplied
    range, once [_get_sat_bounds] has returned. A negative [num] makes the
    call raise [ValueError], after the handle was updated by
    [_get_sat_bounds]; with [num = 0] the call returns empty [x] and [y] and
    makes no further [update] call; with [num = 1] the only sample is taken
    at the lower bound. *)
Theorem calc_sat_range_degenerate_num (self : IsoLine) (num : Z) (w w1 : World)
    (T_lo T_hi : float) :
  _get_sat_bounds self (PyInt iT) None None w = (Ok (T_lo, T_hi), w1) ->
  (num < 0 ->
   exists msg, calc_sat_range self None None num w = (Raise (ValueError msg), w1)) /\
  (num = 0 ->
   calc_sat_range self None None num w = (Ok (set_y [] (set_x [] self)), w1)) /\
  (num = 1 ->
   exists (X Y : ndarray) (w' : World),
     calc_sat_range self None None num w = (Ok (set_y Y (set_x X self)), w') /\
     length X = 1%nat /\ length Y = 1%nat /\
     updates w' = (updates w1 ++ [(QT_INPUTS, _value self, T_lo)])%list).
Proof.
  intros Hb. split; [|split].
  - intros Hneg.
    assert (Hlin : np_linspace T_lo T_hi num =
                   Raise (ValueError "Number of samples must be non-negative")).
    { unfold np_linspace. destruct (num <? 0) eqn:E; [done|]. apply Z.ltb_ge in E. lia. }
    assert (Hin : sat_inputs self None None num w =
                  (Raise (ValueError "Number of samples must be non-negative"), w1)).
    { unfold sat_inputs. rewrite (bind_ok _ _ _ _ _ Hb). cbv beta iota.
      rewrite lift_bind, Hlin. reflexivity. }
    eexists. unfold calc_sat_range. rewrite (bind_raise _ _ _ _ _ Hin). reflexivity.
  - intros ->.
    assert (Hin : sat_inputs self None None 0 w = (Ok ([], [], QT_INPUTS), w1)).
    { unfold sat_inputs. rewrite (bind_ok _ _ _ _ _ Hb). reflexivity. }
    unfold calc_sat_range. rewrite (bind_ok _ _ _ _ _ Hin). reflexivity.
  - intros ->.
    assert (Hin : sat_inputs self None None 1 w = (Ok ([_value self], [T_lo], QT_INPUTS), w1)).
    { unfold sat_inputs. rewrite (bind_ok _ _ _ _ _ Hb). reflexivity. }
    destruct (calc_sat_range_run self None None 1 w w1 _ _ _ Hin)
      as (X & Y & w' & Hrun & HX & HY & _ & _ & _ & _ & Hu).
    exists X, Y, w'. split; [exact Hrun|]. split; [exact HX|]. split; [exact HY|].
    exact Hu.
Qed.

(** ** The deprecated alias of [_get_sat_bounds] *)

Section Frame.

Lemma frame_ret {A : Type} (a : A) : warning_frame (mret a : M A).
Proof.
  intros w r w' [= <- <-]. exists []. split; [by rewrite app_nil_r|].
  intros pre. by rewrite app_nil_r.
Qed.

Lemma frame_lift {A : Type} (r : result A) : warning_frame (lift r).
Proof.
  intros w r' w' [= <- <-]. exists []. split; [by rewrite app_nil_r|].
  intros pre. by rewrite app_nil_r.
Qed.

Lemma frame_raise {A : Type} (e : exn) : warning_frame (raise e : M A).
Proof.
  intros w r' w' [= <- <-]. exists []. split; [by rewrite app_nil_r|].
  intros pre. by rewrite app_nil_r.
Qed.

Lemma frame_warn (x : Warning) : warning_frame (warn x).
Proof. intros w r w' [= <- <-]. exists [x]. split; [reflexivity|]. intros pre. reflexivity. Qed.

Lemma frame_state_update (ipair : Z) (v1 v2 : float) :
  warning_frame (state_update ipair v1 v2).
Proof.
  intros w r w'. unfold state_update.
  destruct (update ipair v1 v2 (eos w)) as [r0 s] eqn:E. intros [= <- <-].
  exists []. split; [by rewrite app_nil_r|]. intros pre. simpl. rewrite E.
  by rewrite app_nil_r.
Qed.

Lemma frame_state_keyed_output (key : Z) : warning_frame (state_keyed_output key).
Proof.
  intros w r w' [= <- <-]. exists []. split; [by rewrite app_nil_r|].
  intros pre. by rewrite app_nil_r.
Qed.

Lemma frame_bind {A B : Type} (m : M A) (f : A -> M B) :
  warning_frame m -> (forall a, warning_frame (f a)) -> warning_frame (m ≫= f).
Proof.
  intros Hm Hf w r w'. unfold mbind, M_bind.
  destruct (m w) as [[a|e] w1] eqn:E.
  - intros Hfa. destruct (Hm _ _ _ E) as (lw1 & Hw1 & Hpre1).
    destruct (Hf a _ _ _ Hfa) as (lw2 & Hw2 & Hpre2).
    exists (lw1 ++ lw2)%list. split; [by rewrite Hw2, Hw1, app_assoc|].
    intros pre. rewrite Hpre1. specialize (Hpre2 (pre ++ lw1)%list).
    simpl in Hpre2. rewrite Hpre2. by rewrite app_assoc.
  - intros [= <- <-]. destruct (Hm _ _ _ E) as (lw1 & Hw1 & Hpre1).
    exists lw1. split; [done|]. intros pre. by rewrite Hpre1.
Qed.

End Frame.

Ltac frame_through :=
  repeat first
    [ apply frame_ret
    | apply frame_lift
    | apply frame_raise
    | apply frame_warn
    | apply frame_state_update
    | apply frame_state_keyed_output
    | apply frame_bind; [|intros ?]
    | match goal with
      | |- warning_frame (match ?x with _ => _ end) => destruct x
      | |- warning_frame (let '(_, _) := ?x in _) => destruct x
      end ].

Lemma frame_get_sat_bounds (self : Base2DObject) (kind : pyobj) (smin smax : option float) :
  warning_frame (_get_sat_bounds self kind smin smax).
Proof. unfold _get_sat_bounds, fluid_limits, fluid_bounds. frame_through. Qed.

(** X19: the deprecated [__sat_bounds] of a plot behaves as
    [_get_sat_bounds] with one deprecation warning in front: it returns or
    raises the same, leaves the same handle, axes and [update] calls, and
    issues the deprecation warning followed by the warnings of
    [_get_sat_bounds]. *)
Theorem deprecated_sat_bounds_alias (self : BasePlot) (kind : pyobj)
    (smin smax : option float) (w w' : World) (r : result (float * float)) :
  _get_sat_bounds self kind smin smax w = (r, w') ->
  exists lw : list Warning,
    warned w' = (warned w ++ lw)%list /\
    BasePlot__sat_bounds self kind smin smax w =
      (r, mkWorld (eos w') (axis w') (warned w ++ DeprecatedSatBounds :: lw)%list
                  (updates w')).
Proof.
  intros Hrun.
  destruct (frame_get_sat_bounds self kind smin smax w r w' Hrun) as (lw & Hw & Hpre).
  exists lw. split; [exact Hw|].
  unfold BasePlot__sat_bounds.
  rewrite (bind_ok (warn DeprecatedSatBounds) _ w
             (mkWorld (eos w) (axis w) (warned w ++ [DeprecatedSatBounds])%list (updates w))
             () eq_refl).
  rewrite Hpre. by rewrite <- app_assoc.
Qed.

(** ** Asking for the limits twice *)

Lemma quiet_for_corners (x_index y_index : Z) (corners : list (nat * (float * float)))
    (XY : list float * list float) :
  steps quiet (for_corners x_index y_index corners XY).
Proof.
  revert XY. induction corners as [|[i [P T]] corners IH]; intros [X Y]; simpl.
  - steps_through.
  - apply (steps_bind quiet); [unfold corner; steps_through|].
    intros XY'. apply IH.
Qed.

Lemma quiet_corner_limits (self : BasePlot) (x_index y_index : Z) :
  steps quiet (corner_limits self x_index y_index).
Proof.
  unfold corner_limits.
  apply (steps_bind quiet); [apply get_sat_bounds_quiet|]. intros [T_lo T_hi].
  apply (steps_bind quiet); [apply get_sat_bounds_quiet|]. intros [P_lo P_hi].
  apply (steps_bind quiet); [steps_through|]. intros T_max.
  apply (steps_bind quiet); [apply quiet_for_corners|]. intros [X Y].
  steps_through.
Qed.

(** X20: asking for the limits a second time gives the same answer and
    costs nothing. When [get_axis_limits] has returned the limits of the
    plot's own axes while they were autoscaling, on axes that keep the limits
    they are set to, a second call in the world that the first one left
    returns the same four values and leaves that world as it is: the handle
    is not evaluated again. *)
Theorem get_axis_limits_settles (self : BasePlot) (w w' : World) (a b c d : float) :
  get_axis_limits self None None w = (Ok [a; b; c; d], w') ->
  get_autoscalex_on (axis w) = true ->
  get_autoscaley_on (set_xlim (a, b) (axis w)) = true ->
  limits_kept (a, b) (c, d) (axis w) ->
  get_axis_limits self None None w' = (Ok [a; b; c; d], w').
Proof.
  intros Hrun Hautox Hautoy (Hx & Hy & Hax & Hay).
  unfold get_axis_limits in Hrun.
  rewrite (bind_ok (read_axis get_autoscalex_on) _ w w _ eq_refl) in Hrun.
  rewrite (bind_ok (read_axis get_autoscaley_on) _ w w _ eq_refl) in Hrun.
  rewrite Hautox, !Z.eqb_refl in Hrun. cbn [negb orb] in Hrun.
  unfold mbind at 1, M_bind at 1 in Hrun.
  destruct (corner_limits self (_x_index self) (_y_index self) w)
    as [[[x_lim y_lim]|e] w1] eqn:Ec.
  - pose proof (quiet_corner_limits _ _ _ _ _ _ Ec) as [_ Haxis].
    rewrite (bind_ok _ _ _ _ _ Ec) in Hrun. cbv beta iota in Hrun.
    rewrite (bind_ok _ _ _ _ _ (update_or_get_xlim_run _ _ _ _)) in Hrun.
    rewrite (bind_ok _ _ _ _ _ (update_or_get_ylim_run _ _ _ _)) in Hrun.
    unfold returned_xlim, returned_ylim in Hrun. cbn [axis] in Hrun.
    rewrite !Z.eqb_refl, Haxis, Hautox in Hrun. cbn [fst snd] in Hrun.
    destruct x_lim as [x0 x1].
    destruct (get_autoscaley_on (set_xlim (x0, x1) (axis w))) eqn:Ey;
      cbn [fst snd] in Hrun; injection Hrun as -> -> Hc Hd Hw'.
    + destruct y_lim as [y0 y1]. simpl in Hc, Hd. subst y0 y1. subst w'.
      rewrite axis_limits_already_set_aux.
      * cbn [axis]. rewrite Hx, Hy. reflexivity.
      * unfold limits_not_set. cbn [axis]. rewrite !Z.eqb_refl, Hax, Hay. reflexivity.
    + rewrite Hautoy in Ey. discriminate.
  - rewrite (bind_raise _ _ _ _ _ Ec) in Hrun. discriminate.
Qed.

(** ** Objects made by the constructor *)

Lemma fluid_limits_upper (self : Base2DObject) (kind : pyobj) (w w' : World)
    (k : Z) (fluid_min fluid_max : float) :
  fluid_limits self kind w = (Ok (k, fluid_min, fluid_max), w') ->
  _get_index kind = Ok k /\
  ((k = iP /\ exists Pc, trivial_keyed_output iP_critical = Ok Pc /\
                         fluid_max = fsub Pc (_P_small self)) \/
   (k = iT /\ exists Tc, trivial_keyed_output iT_critical = Ok Tc /\
                         fluid_max = fsub Tc (_T_small self))).
Proof.
  unfold fluid_limits, mbind, M_bind, lift.
  destruct (trivial_keyed_output iT_triple); [|discriminate].
  destruct (trivial_keyed_output iT_min); [|discriminate].
  destruct (state_update _ _ _ w) as [[[]|e] w1]; [|discriminate].
  destruct (_get_index kind) as [k'|e]; [|discriminate].
  unfold fluid_bounds, mbind, M_bind, lift, state_keyed_output, mret, M_ret, raise.
  destruct (k' =? iP) eqn:EP.
  - apply Z.eqb_eq in EP. destruct (keyed_output iP (eos w1)); [|discriminate].
    destruct (trivial_keyed_output iP_critical) as [Pc|]; [|discriminate].
    intros [= <- <- <- <-]. split; [done|]. left. eauto.
  - destruct (k' =? iT) eqn:ET; [|discriminate].
    apply Z.eqb_eq in ET. destruct (keyed_output iT (eos w1)); [|discriminate].
    destruct (trivial_keyed_output iT_critical) as [Tc|]; [|discriminate].
    intros [= <- <- <- <-]. split; [done|]. right. eauto.
Qed.

(** X21: an object made by the constructor on a fluid with positive
    critical temperature and pressure, with a positive [small] or with the
    default one, never gets a saturation bound above the critical point:
    whenever [_get_sat_bounds] without hints returns, its upper bound is the
    critical pressure minus the critical pressure times [small] for kind
    pressure and the critical temperature minus the critical temperature
    times [small] for kind temperature, which is never above the critical
    value. Arithmetic is exact (rounding is not part of the model). *)
Theorem constructed_bounds_below_critical (c : pyclass) (x_type y_type : pyobj)
    (small : option float) (self : Base2DObject) (tc pc s : Qc) :
  Base2DObject__init__ c x_type y_type small = Ok self ->
  trivial_keyed_output iT_critical = Ok (Fin tc) ->
  trivial_keyed_output iP_critical = Ok (Fin pc) ->
  (0 < tc)%Qc -> (0 < pc)%Qc ->
  match small with Some v => v = Fin s | None => s = default_small end ->
  (0 < s)%Qc ->
  forall (kind : pyobj) (w w' : World) (lo hi : float),
    _get_sat_bounds self kind None None w = (Ok (lo, hi), w') ->
    (_get_index kind = Ok iP /\ hi = Fin (pc - pc * s)%Qc /\ (pc - pc * s <= pc)%Qc) \/
    (_get_index kind = Ok iT /\ hi = Fin (tc - tc * s)%Qc /\ (tc - tc * s <= tc)%Qc).
Proof.
  intros Hinit Htc Hpc Hpos_t Hpos_p Hsmall Hs kind w w' lo hi Hrun.
  assert (Hsm : _T_small self = fmul (Fin tc) (Fin s) /\ _P_small self = fmul (Fin pc) (Fin s)).
  { unfold Base2DObject__init__, mbind, result_bind in Hinit.
    destruct (_get_index x_type); [|discriminate].
    destruct (_get_index y_type); [|discriminate].
    rewrite Htc, Hpc in Hinit. injection Hinit as <-. simpl.
    destruct small as [v|]; subst; split; reflexivity. }
  destruct Hsm as [HT HP].
  unfold _get_sat_bounds in Hrun.
  destruct (fluid_limits self kind w) as [[[[k fmin] fmax]|e] w1] eqn:E.
  - rewrite (bind_ok _ _ _ _ _ E) in Hrun. injection Hrun as <- <- <-.
    apply fluid_limits_upper in E as [Hk [[-> (Pc & HPc & ->)]|[-> (Tc & HTc & ->)]]].
    + left. split; [exact Hk|]. rewrite Hpc in HPc. injection HPc as <-.
      rewrite HP. split; [reflexivity|].
      apply Qclt_le_weak, Qclt_sub_pos. by apply Qcmult_pos_pos.
    + right. split; [exact Hk|]. rewrite Htc in HTc. injection HTc as <-.
      rewrite HT. split; [reflexivity|].
      apply Qclt_le_weak, Qclt_sub_pos. by apply Qcmult_pos_pos.
  - rewrite (bind_raise _ _ _ _ _ E) in Hrun. discriminate.
Qed.

(** ** What [get_axis_limits] leaves alone *)

(** X22: [get_axis_limits] never issues a warning, whatever it returns or
    raises, and when both requested properties differ from the plot's own
    axis properties it leaves the axes of the plot exactly as they were: the
    limits of another pair of properties can be asked for without changing
    the plot. *)
Theorem get_axis_limits_leaves_plot (self : BasePlot) (x_arg y_arg : option Z)
    (w w' : World) (r : result (list float)) :
  let x_index := match x_arg with Some i => i | None => _x_index self end in
  let y_index := match y_arg with Some i => i | None => _y_index self end in
  get_axis_limits self x_arg y_arg w = (r, w') ->
  warned w' = warned w /\
  (x_index <> _x_index self -> y_index <> _y_index self -> axis w' = axis w).
Proof.
  intros x_index y_index Hrun.
  unfold get_axis_limits in Hrun. fold x_index y_index in Hrun.
  rewrite (bind_ok (read_axis get_autoscalex_on) _ w w _ eq_refl) in Hrun.
  rewrite (bind_ok (read_axis get_autoscaley_on) _ w w _ eq_refl) in Hrun.
  destruct (negb (x_index =? _x_index self) || negb (y_index =? _y_index self)
            || get_autoscalex_on (axis w) || get_autoscaley_on (axis w)) eqn:Hcond.
  - unfold mbind at 1, M_bind at 1 in Hrun.
    destruct (corner_limits self x_index y_index w) as [[[x_lim y_lim]|e] w1] eqn:Ec.
    + pose proof (quiet_corner_limits _ _ _ _ _ _ Ec) as [Hw1 Hax1].
      rewrite (bind_ok _ _ _ _ _ Ec) in Hrun. cbv beta iota in Hrun.
      rewrite (bind_ok _ _ _ _ _ (update_or_get_xlim_run _ _ _ _)) in Hrun.
      rewrite (bind_ok _ _ _ _ _ (update_or_get_ylim_run _ _ _ _)) in Hrun.
      injection Hrun as _ <-. cbn [warned axis]. split; [exact Hw1|].
      intros Hx Hy. unfold returned_xlim, returned_ylim.
      apply Z.eqb_neq in Hx, Hy. rewrite Hx, Hy. exact Hax1.
    + pose proof (quiet_corner_limits _ _ _ _ _ _ Ec) as [Hw1 Hax1].
      rewrite (bind_raise _ _ _ _ _ Ec) in Hrun. injection Hrun as _ <-. done.
  - injection Hrun as _ <-. done.
Qed.

End Run.

(** * The properties on a concrete handle *)

Section Concrete.
Import Toy.

#[local] Existing Instances coolprop numpy matplotlib.

(** The objects of [Toy] are the ones that the constructors build. *)
Lemma isobar_TS_constructed :
  IsoLine__init__ (PyStr "P") (PyStr "S") (PyStr "T") (dec 100000 1) = Ok isobar_TS.
Proof. reflexivity. Qed.

Lemma quality_PH_constructed :
  IsoLine__init__ (PyStr "Q") (PyStr "H") (PyStr "P") zero = Ok quality_PH.
Proof. reflexivity. Qed.

Lemma plot_PH_constructed :
  Base2DObject__init__ BasePlot_cls (PyStr "H") (PyStr "P") None = Ok (plot_base plot_PH).
Proof. reflexivity. Qed.

Lemma get_update_pair_case_table_witness :
  switch_entry (_i_index isobar_TS) (_x_index isobar_TS) (_y_index isobar_TS) = Ok (Some false) /\
  exists ipos xpos ypos ipair,
    _get_update_pair isobar_TS = Ok (ipos, xpos, ypos, ipair) /\
    [ipos; xpos; ypos] ≡ₚ [0; 1; 2] /\ ypos = 2.
Proof.
  assert (H1 : switch_entry (_i_index isobar_TS) (_x_index isobar_TS) (_y_index isobar_TS)
               = Ok (Some false)) by (vm_compute; reflexivity).
  split; [exact H1|].
  destruct (get_update_pair_case_table isobar_TS false H1)
    as (ipos & xpos & ypos & ipair & E & _ & Hp & _ & Hy & _).
  exists ipos, xpos, ypos, ipair. split; [exact E|]. split; [exact Hp|exact (Hy eq_refl)].
Defined.

Lemma calc_range_unsupported_isoline_witness :
  _i_index isotherm_PU <> iQ /\
  calc_range isotherm_PU (Some [dec 1 1]) None world0 = (Raise (KeyError 205), world0).
Proof.
  assert (Hq : _i_index isotherm_PU <> iQ) by discriminate.
  split; [exact Hq|].
  destruct (calc_range_unsupported_isoline isotherm_PU (Some [dec 1 1]) None world0 Hq)
    as (_ & Habsent & _).
  assert (Hrow : exists row, XY_SWITCH !! _i_index isotherm_PU = Some row /\
                             row !! (_y_index isotherm_PU * 10 + _x_index isotherm_PU) = None).
  { eexists. split; vm_compute; reflexivity. }
  destruct Hrow as (row & Hr & Hc). exact (Habsent row Hr Hc).
Defined.

(** C2, refuted as stated: an isotherm on a p-u diagram has no entry in
    [XY_SWITCH] (the row of temperature has no column for that diagram), and
    [calc_range] raises [KeyError], not the [ValueError] "This isoline cannot
    be calculated!". *)
Lemma calc_range_absent_entry_counterexample :
  _i_index isotherm_PU <> iQ /\
  (exists row, XY_SWITCH !! _i_index isotherm_PU = Some row /\
               row !! (_y_index isotherm_PU * 10 + _x_index isotherm_PU) = None) /\
  (calc_range isotherm_PU (Some [dec 1 1]) None world0).1 = Raise (KeyError 205) /\
  (calc_range isotherm_PU (Some [dec 1 1]) None world0).1 <>
    Raise (ValueError "This isoline cannot be calculated!").
Proof.
  split; [discriminate|]. split; [eexists; split; vm_compute; reflexivity|].
  split; [vm_compute; reflexivity|]. vm_compute. discriminate.
Qed.

Lemma sweep_isolates_failing_sample_witness :
  (exists (self' : IsoLine) (w' : World) (out : ndarray) (a b : float) (e : exn),
      calc_range isobar_TS (Some [dec 1 1; dec (-2) 1; dec 3 1]) None world0 = (Ok self', w') /\
      _y self' = Some out /\ length out = 3%nat /\ out !! 1%nat = Some NaN /\
      warned w' = [SampleError a b 1 e]) /\
  (exists (self' : IsoLine) (w' : World) (X Y : ndarray) (a b : float) (e : exn),
      calc_sat_range quality_PH (Some [dec 300 1; dec (-5) 1; dec 400 1]) None 200 world0
        = (Ok self', w') /\
      _x self' = Some X /\ _y self' = Some Y /\ length X = 3%nat /\ length Y = 3%nat /\
      X !! 1%nat = Some NaN /\ Y !! 1%nat = Some NaN /\
      warned w' = [SampleError a b 1 e]) /\
  (exists (e : exn) (w' : World),
      calc_range isobar_TS (Some [dec (-5) 1]) None world0 = (Raise e, w') /\
      warned w' = []) /\
  (exists msg : string,
      calc_range isentrope_PH None (Some [dec 100000 1]) world0
        = (Raise (IndexError msg), world0)).
Proof.
  split; [|split; [|split]].
  - destruct (proj1 sweep_isolates_failing_sample isobar_TS
                (Some [dec 1 1; dec (-2) 1; dec 3 1]) None false
                [dec 1 1; dec (-2) 1; dec 3 1] world0 1%nat)
      as (self' & w' & out & a & b & e & E & _ & Hy & Hl & _ & Hnan & _ & _ & _ & _ & Hw & _).
    + discriminate.
    + discriminate.
    + discriminate.
    + discriminate.
    + vm_compute; reflexivity.
    + reflexivity.
    + discriminate.
    + simpl; lia.
    + intros j Hj. destruct j as [|[|[|j]]]; [| | |simpl in Hj; lia];
        vm_compute; split; intros H; (discriminate || reflexivity).
    + exists self', w', out, a, b, e. repeat split; assumption.
  - destruct (proj1 (proj2 sweep_isolates_failing_sample) quality_PH
                (Some [dec 300 1; dec (-5) 1; dec 400 1]) None 200 world0 world0
                (np_resize [zero] 3) [dec 300 1; dec (-5) 1; dec 400 1] 1 1%nat)
      as (self' & w' & X & Y & a & b & e & E & Hx & Hy & HlX & HlY & _ & HX & HY & _ & _ & _ & _ & Hw).
    + reflexivity.
    + simpl; lia.
    + intros j Hj. destruct j as [|[|[|j]]]; [| | |simpl in Hj; lia];
        vm_compute; split; intros H; (discriminate || reflexivity).
    + exists self', w', X, Y, a, b, e. repeat split; assumption.
  - assert (He : exists e,
      range_outcome (pair_of isobar_TS false) (output_index isobar_TS false)
        [_value isobar_TS] [dec (-5) 1] (eos world0) 0 = Raise e)
      by (eexists; vm_compute; reflexivity).
    destruct He as [e He].
    destruct (proj2 (proj2 (proj2 sweep_isolates_failing_sample) isobar_TS
                (Some [dec (-5) 1]) None false (dec (-5) 1) world0
                ltac:(discriminate) ltac:(vm_compute; reflexivity) eq_refl)
                ltac:(vm_compute; reflexivity) e He) as (e' & w' & E & Hw & _).
    exists e', w'. split; [exact E|exact Hw].
  - exact (proj1 (proj2 (proj2 sweep_isolates_failing_sample) isentrope_PH
                None (Some [dec 100000 1]) true (dec 100000 1) world0
                ltac:(discriminate) ltac:(vm_compute; reflexivity) eq_refl)
                ltac:(vm_compute; reflexivity)).
Defined.

Lemma calc_range_quality_routes_to_sat_range_witness :
  _i_index quality_PH = iQ /\
  (exists lw : list Warning,
      warned (calc_range quality_PH (Some [dec 1 1; dec 2 1]) None world0).2
        = (warned world0 ++ UseCalcSatRange :: lw)%list) /\
  calc_range quality_PH None (Some [dec 7 1; dec 8 1]) world0
    = calc_range quality_PH (Some [dec 1 1; dec 2 1]) None world0.
Proof.
  assert (Hq : _i_index quality_PH = iQ) by reflexivity.
  split; [exact Hq|].
  destruct (calc_range_quality_routes_to_sat_range quality_PH
              (Some [dec 1 1; dec 2 1]) None world0 Hq) as (_ & Hsame & Hw & _).
  split; [exact Hw|]. apply Hsame. reflexivity.
Defined.

(** C5, refuted as stated: the supplied array is not discarded altogether.
    Two calls on the same quality isoline that differ in [xvals] only return
    curves of different lengths. *)
Lemma calc_range_quality_counterexample :
  _i_index quality_PH = iQ /\
  calc_range quality_PH (Some [dec 1 1; dec 2 1]) None world0 <>
  calc_range quality_PH (Some [dec 1 1; dec 2 1; dec 3 1]) None world0.
Proof.
  split; [reflexivity|]. intros H.
  apply (f_equal (fun r : result IsoLine * World =>
                    match r.1 with
                    | Ok s => option_map length (_x s)
                    | Raise _ => None
                    end)) in H.
  vm_compute in H. discriminate.
Qed.

Lemma calc_range_requires_sweep_array_witness :
  _i_index isobar_TS <> iQ /\
  calc_range isobar_TS None None world0 = (Raise missing_input, world0) /\
  calc_range isobar_TS None (Some [dec 300 1]) world0 = (Raise missing_input, world0).
Proof.
  assert (Hq : _i_index isobar_TS <> iQ) by discriminate.
  assert (H1 : switch_entry (_i_index isobar_TS) (_x_index isobar_TS) (_y_index isobar_TS)
               = Ok (Some false)) by (vm_compute; reflexivity).
  split; [exact Hq|]. split.
  - exact (proj2 (proj2 (calc_range_requires_sweep_array isobar_TS None None false world0
                           Hq H1)) eq_refl eq_refl).
  - exact (proj1 (calc_range_requires_sweep_array isobar_TS None (Some [dec 300 1]) false
                    world0 Hq H1) eq_refl).
Defined.

(** C6, refuted as stated: with both arrays supplied the call returns, and
    with exactly one array supplied, the one of the computed axis, it fails
    with the "missing input" error. *)
Lemma calc_range_exactly_one_counterexample :
  _i_index isobar_TS <> iQ /\
  is_ok (calc_range isobar_TS (Some [dec 1 1; dec 2 1]) (Some [dec 300 1; dec 310 1]) world0).1
    = true /\
  (calc_range isobar_TS None (Some [dec 300 1; dec 310 1]) world0).1 = Raise missing_input.
Proof.
  split; [discriminate|]. split; vm_compute; reflexivity.
Qed.

Lemma sat_bounds_hint_raises_off_plot_witness :
  class_of quality_PH <> BasePlot_cls /\
  exists (k : Z) (fluid_min fluid_max : float) (w1 : World) (msg : string),
    fluid_limits quality_PH (PyInt 16) world0 = (Ok (k, fluid_min, fluid_max), w1) /\
    ignored_hint fluid_min fluid_max (Some zero) = true /\
    _get_sat_bounds quality_PH (PyInt 16) (Some zero) None world0
      = (Raise (AttributeError msg), w1).
Proof.
  assert (Hc : class_of quality_PH <> BasePlot_cls) by discriminate.
  split; [exact Hc|].
  assert (Hl : exists k fluid_min fluid_max w1,
             fluid_limits quality_PH (PyInt 16) world0 = (Ok (k, fluid_min, fluid_max), w1) /\
             ignored_hint fluid_min fluid_max (Some zero) = true).
  { do 4 eexists. split; vm_compute; reflexivity. }
  destruct Hl as (k & fluid_min & fluid_max & w1 & Hl & Hi).
  destruct (sat_bounds_hint_raises_off_plot quality_PH (PyInt 16) (Some zero) None
              world0 w1 k fluid_min fluid_max Hc Hl) as [msg Hraise].
  - rewrite Hi. reflexivity.
  - exists k, fluid_min, fluid_max, w1, msg. repeat split; assumption.
Defined.

Lemma sat_bounds_temperature_witness :
  exists (lo hi : Qc) (w' : World),
    _get_sat_bounds quality_PH (PyInt iT) None None world0 = (Ok (Fin lo, Fin hi), w') /\
    (lo < hi)%Qc /\ (hi < Q2Qc (600 # 1))%Qc.
Proof.
  assert (Hs : exists s1,
    update QT_INPUTS zero
      (fadd (py_max (Fin (Q2Qc (270 # 1))) [Fin (Q2Qc (273 # 1))]) (_T_small quality_PH))
      (eos world0) = (Ok (), s1) /\
    keyed_output iT s1 =
      Ok (fadd (py_max (Fin (Q2Qc (270 # 1))) [Fin (Q2Qc (273 # 1))]) (_T_small quality_PH))).
  { eexists. split; vm_compute; reflexivity. }
  destruct Hs as (s1 & Hu & Hk).
  destruct (sat_bounds_temperature quality_PH world0
              (Q2Qc (270 # 1)) (Q2Qc (273 # 1)) (Q2Qc (600 # 1)) s1)
    as [(lo & hi & w' & E & _ & _ & Hlt & Hhi & _) _].
  - discriminate.
  - reflexivity.
  - reflexivity.
  - reflexivity.
  - reflexivity.
  - reflexivity.
  - vm_compute; reflexivity.
  - vm_compute; reflexivity.
  - exact Hu.
  - exact Hk.
  - exists lo, hi, w'. repeat split; assumption.
Defined.

Lemma calc_range_ignores_output_array_witness :
  _i_index isobar_TS <> iQ /\
  calc_range isobar_TS (Some [dec 1 1; dec 2 1]) None world0
    = calc_range isobar_TS (Some [dec 1 1; dec 2 1]) (Some [dec 300 1; dec 310 1]) world0 /\
  (exists self' w' out,
     calc_range isobar_TS (Some [dec 1 1; dec 2 1]) (Some [dec 300 1; dec 310 1]) world0
       = (Ok self', w') /\
     _x self' = Some [dec 1 1; dec 2 1] /\ _y self' = Some out /\ length out = 2%nat) /\
  (exists msg : string,
     calc_range isentrope_PH (Some [dec 500 1]) (Some [dec 100000 1]) world0
       = (Raise (IndexError msg), world0)).
Proof.
  assert (Hq : _i_index isobar_TS <> iQ) by discriminate.
  assert (H1 : switch_entry (_i_index isobar_TS) (_x_index isobar_TS) (_y_index isobar_TS)
               = Ok (Some false)) by (vm_compute; reflexivity).
  split; [exact Hq|].
  destruct (calc_range_ignores_output_array isobar_TS [dec 1 1; dec 2 1]
              [dec 300 1; dec 310 1] false world0 Hq)
    as (Hsame & Hrun & _);
    [discriminate|discriminate|discriminate|exact H1|].
  destruct Hrun as (self' & w' & out & E & Hx & Hy & Hl & _); [discriminate|].
  split; [exact (Hsame (Some [dec 1 1; dec 2 1]) None eq_refl)|].
  split; [exists self', w', out; split; [exact E|]; split; [exact Hx|split; [exact Hy|exact Hl]]|].
  refine (proj2 (proj2 (calc_range_ignores_output_array isentrope_PH [dec 500 1]
                          [dec 100000 1] true world0 _ _ _ _ _)) eq_refl _);
    try discriminate; vm_compute; reflexivity.
Defined.

Lemma axis_limits_from_corners_witness :
  limits_not_set plot_PH (_x_index plot_PH) (_y_index plot_PH) (axis world0) = true /\
  exists (l : list float) (w' : World),
    get_axis_limits plot_PH None None world0 = (Ok l, w') /\
    length l = 4%nat /\ length (updates w') = 6%nat.
Proof.
  assert (Hc : limits_not_set plot_PH (_x_index plot_PH) (_y_index plot_PH) (axis world0)
               = true) by reflexivity.
  split; [exact Hc|].
  assert (Hb : exists T_lo T_hi w1 P_lo P_hi w2,
    _get_sat_bounds plot_PH (PyInt iT) None None world0 = (Ok (T_lo, T_hi), w1) /\
    _get_sat_bounds plot_PH (PyInt iP) None None w1 = (Ok (P_lo, P_hi), w2) /\
    length (updates w2) = 2%nat /\
    exists readings s',
      reads_corners (_x_index plot_PH) (_y_index plot_PH) (eos w2)
        [(fmul lo_factor P_lo, fmul lo_factor T_lo);
         (fmul hi_factor P_hi, fmul lo_factor T_lo);
         (fmul lo_factor P_lo, py_min (fmul hi_factor T_hi) [dec 1000 1]);
         (fmul hi_factor P_hi, py_min (fmul hi_factor T_hi) [dec 1000 1])] readings s').
  { do 6 eexists. split; [vm_compute; reflexivity|]. split; [vm_compute; reflexivity|].
    split; [reflexivity|]. do 2 eexists.
    repeat (eapply reads_cons; [vm_compute; reflexivity|vm_compute; reflexivity
                               |vm_compute; reflexivity|]).
    apply reads_nil. }
  destruct Hb as (T_lo & T_hi & w1 & P_lo & P_hi & w2 & Hb1 & Hb2 & Hlen & readings & s' & Hr).
  assert (Hd : exists dx dy,
    dimensions (_system plot_PH) !! _x_index plot_PH = Some dx /\
    dimensions (_system plot_PH) !! _y_index plot_PH = Some dy).
  { do 2 eexists. split; vm_compute; reflexivity. }
  destruct Hd as (dx & dy & Hdx & Hdy).
  destruct (axis_limits_from_corners plot_PH None None world0 w1 w2 T_lo T_hi P_lo P_hi
              (dec 1000 1) readings s' dx dy Hc Hb1 Hb2 eq_refl Hr Hdx Hdy)
    as (min_x & max_x & min_y & max_y & _ & _ & _ & _ & E).
  eexists _, _. split; [exact E|]. split; [reflexivity|].
  simpl. rewrite length_app, Hlen. reflexivity.
Defined.

(** C9, refuted as stated: on a fluid whose maximum temperature (1000 K)
    lies below twice the upper saturation bound, no corner is evaluated at
    the temperature [hi_factor * T_hi]; the two upper corners are evaluated at
    the maximum temperature of the fluid. *)
Lemma axis_limits_corner_counterexample :
  limits_not_set plot_PH (_x_index plot_PH) (_y_index plot_PH) (axis world0) = true /\
  exists (T_lo T_hi : float) (w1 : World) (l : list float) (w' : World),
    _get_sat_bounds plot_PH (PyInt iT) None None world0 = (Ok (T_lo, T_hi), w1) /\
    get_axis_limits plot_PH None None world0 = (Ok l, w') /\
    existsb (fun u => feqb u.2 (fmul hi_factor T_hi)) (updates w') = false /\
    map (fun u => feqb u.2 (dec 1000 1)) (updates w')
      = [false; false; false; false; true; true].
Proof.
  split; [reflexivity|].
  do 5 eexists. split; [vm_compute; reflexivity|]. split; [vm_compute; reflexivity|].
  split; vm_compute; reflexivity.
Qed.

(** ** The further properties at the constructed objects *)

Lemma toy_held_properties_distinct : NoDup held_properties.
Proof. apply (bool_decide_unpack _). vm_compute. exact I. Qed.

Lemma toy_plot_keys_distinct : NoDup (plot_key <$> catalog).
Proof. apply (bool_decide_unpack _). vm_compute. exact I. Qed.

Lemma toy_dimension_keys_distinct : NoDup dimension_keys.
Proof. apply (bool_decide_unpack _). vm_compute. exact I. Qed.

Lemma isoline_unsupported_iff_axis_witness :
  _get_update_pair (mkIsoLine (base IsoLine_cls 30 17) 17 (dec 100000 1) None None)
    = Raise (ValueError "This isoline cannot be calculated!") /\
  exists ipos xpos ypos ipair, _get_update_pair isotherm_PH = Ok (ipos, xpos, ypos, ipair).
Proof.
  split.
  - apply (isoline_unsupported_iff_axis
             (mkIsoLine (base IsoLine_cls 30 17) 17 (dec 100000 1) None None)
             toy_held_properties_distinct toy_plot_keys_distinct).
    + apply (bool_decide_unpack _). vm_compute. exact I.
    + apply (bool_decide_unpack _). vm_compute. exact I.
    + right. reflexivity.
  - apply (isoline_unsupported_iff_axis isotherm_PH
             toy_held_properties_distinct toy_plot_keys_distinct).
    + apply (bool_decide_unpack _). vm_compute. exact I.
    + apply (bool_decide_unpack _). vm_compute. exact I.
    + intros [E|E]; discriminate.
Defined.

Lemma sat_bounds_pressure_witness :
  exists (lo : float) (w' : World),
    _get_sat_bounds plot_PH (PyStr "P") None None world0
      = (Ok (lo, Fin (Q2Qc (20000000 # 1) - Q2Qc (20000000 # 1) * Q2Qc (1 # 100000))%Qc), w') /\
    (Q2Qc (20000000 # 1) - Q2Qc (20000000 # 1) * Q2Qc (1 # 100000) <= Q2Qc (20000000 # 1))%Qc.
Proof.
  assert (Hs : exists s1 lo,
    update QT_INPUTS zero
      (fadd (py_max (dec 270 1) [dec 273 1]) (_T_small plot_PH)) (eos world0) = (Ok (), s1) /\
    keyed_output iP s1 = Ok lo).
  { do 2 eexists. split; vm_compute; reflexivity. }
  destruct Hs as (s1 & lo & Hu & Hk).
  destruct (sat_bounds_pressure plot_PH (PyStr "P") world0 (dec 270 1) (dec 273 1) lo
              (Q2Qc (20000000 # 1)) (Q2Qc (1 # 100000)) s1) as [E Hlt].
  - reflexivity.
  - reflexivity.
  - reflexivity.
  - reflexivity.
  - reflexivity.
  - reflexivity.
  - reflexivity.
  - exact Hu.
  - exact Hk.
  - exists lo. eexists. split; [exact E|exact Hlt].
Defined.

Lemma sat_bounds_accepts_inner_hints_witness :
  exists w1 : World,
    _get_sat_bounds quality_PH (PyInt 16) (Some (dec 300 1)) (Some (dec 500 1)) world0
      = (Ok (dec 300 1, dec 500 1), w1).
Proof.
  assert (Hl : exists k fluid_min fluid_max w1,
    fluid_limits quality_PH (PyInt 16) world0 = (Ok (k, fluid_min, fluid_max), w1) /\
    ignored_hint fluid_min fluid_max (Some (dec 300 1)) = false /\
    ignored_hint fluid_min fluid_max (Some (dec 500 1)) = false).
  { do 4 eexists. split; [|split]; vm_compute; reflexivity. }
  destruct Hl as (k & fluid_min & fluid_max & w1 & Hl & H1 & H2).
  exists w1.
  exact (sat_bounds_accepts_inner_hints quality_PH (PyInt 16) (Some (dec 300 1))
           (Some (dec 500 1)) world0 w1 k fluid_min fluid_max Hl H1 H2).
Defined.

Lemma sat_bounds_clamped_on_plot_witness :
  exists (fmin fmax a b : Qc) (w' : World),
    _get_sat_bounds plot_PH (PyInt 16) (Some NaN) (Some (dec 700 1)) world0
      = (Ok (Fin a, Fin b), w') /\
    (fmin <= a)%Qc /\ (a < fmax)%Qc /\ (fmin < b)%Qc /\ (b <= fmax)%Qc /\
    length (warned w') = 2%nat.
Proof.
  assert (Hl : exists k fmin fmax w1,
    fluid_limits plot_PH (PyInt 16) world0 = (Ok (k, Fin fmin, Fin fmax), w1) /\
    (fmin < fmax)%Qc /\ warned w1 = [] /\
    ignored_hint (Fin fmin) (Fin fmax) (Some (dec 700 1)) = true).
  { do 4 eexists. split; [vm_compute; reflexivity|]. split; [vm_compute; reflexivity|].
    split; [reflexivity|]. vm_compute; reflexivity. }
  destruct Hl as (k & fmin & fmax & w1 & Hl & Hlt & Hw1 & Hi).
  destruct (sat_bounds_clamped_on_plot plot_PH (PyInt 16) (Some NaN) (Some (dec 700 1))
              world0 w1 k fmin fmax eq_refl Hl Hlt)
    as (a & b & w' & lw & E & Ha1 & Ha2 & Hb1 & Hb2 & _ & _ & Hw & Hlen & _).
  exists fmin, fmax, a, b, w'. do 5 (split; [assumption|]).
  rewrite Hw, Hw1. simpl. rewrite Hlen, Hi. reflexivity.
Defined.

Lemma quantity_conversion_inverse_witness :
  to_SI (mkBaseQuantity (dec 32 1) (dec 9 5) (dec (-27315) 100))
    (from_SI (mkBaseQuantity (dec 32 1) (dec 9 5) (dec (-27315) 100)) (Fin (Q2Qc (300 # 1))))
    = Ok (Fin (Q2Qc (300 # 1))) /\
  exists x : Qc,
    to_SI (mkBaseQuantity (dec 32 1) (dec 9 5) (dec (-27315) 100)) (Fin (Q2Qc (212 # 1)))
      = Ok (Fin x) /\
    from_SI (mkBaseQuantity (dec 32 1) (dec 9 5) (dec (-27315) 100)) (Fin x)
      = Fin (Q2Qc (212 # 1)).
Proof.
  set (fahrenheit := mkBaseQuantity (dec 32 1) (dec 9 5) (dec (-27315) 100)).
  assert (Hnz : Q2Qc (9 # 5) <> 0%Qc) by (apply Qc_neq_by_num; vm_compute; discriminate).
  destruct (quantity_conversion_inverse fahrenheit (Q2Qc (32 # 1)) (Q2Qc (9 # 5))
              (Q2Qc (-27315 # 100)) eq_refl eq_refl eq_refl Hnz) as (H1 & H2 & _).
  split; [apply H1|apply H2].
Defined.


Lemma unit_systems_keep_order_witness :
  exists u v : Qc,
    from_SI (Units.T EURunits) (Fin (Q2Qc (273 # 1))) = Fin u /\
    from_SI (Units.T EURunits) (Fin (Q2Qc (300 # 1))) = Fin v /\ (u <= v)%Qc.
Proof.
  apply (unit_systems_keep_order "EUR" EURunits (Units.T EURunits)).
  - simpl; tauto.
  - simpl; tauto.
  - vm_compute. discriminate.
Defined.

Lemma dimensions_by_property_witness :
  getitem_dict (dimensions KSIunits) iP = Ok (Units.P KSIunits) /\
  getitem_dict (dimensions KSIunits) 99 = Raise (KeyError 99).
Proof.
  pose proof (dimensions_by_property KSIunits toy_dimension_keys_distinct)
    as (_ & _ & HP & _ & _ & _ & _ & Hother).
  split; [exact HP|]. apply Hother.
  apply (bool_decide_unpack _). vm_compute. exact I.
Defined.

Lemma axis_limits_already_set_witness :
  get_axis_limits plot_PH None None
    (@mkWorld coolprop matplotlib None
       (mkAxes (dec 100 1, dec 500 1) (dec 1 1, dec 200 1) false false) [] [])
  = (Ok [dec 100 1; dec 500 1; dec 1 1; dec 200 1],
     @mkWorld coolprop matplotlib None
       (mkAxes (dec 100 1, dec 500 1) (dec 1 1, dec 200 1) false false) [] []).
Proof.
  exact (axis_limits_already_set plot_PH None None
           (@mkWorld coolprop matplotlib None
              (mkAxes (dec 100 1, dec 500 1) (dec 1 1, dec 200 1) false false) [] [])
           eq_refl).
Defined.

Lemma set_then_get_axis_limits_witness :
  exists w' : World,
    set_axis_limits plot_PH [dec 100 1; dec 500 1; dec 1 1; dec 200 1] world0 = (Ok (), w') /\
    get_axis_limits plot_PH None None w' = (Ok [dec 100 1; dec 500 1; dec 1 1; dec 200 1], w').
Proof.
  destruct (set_then_get_axis_limits plot_PH (dec 100 1) (dec 500 1) (dec 1 1) (dec 200 1) []
              world0) as (w' & H1 & H2 & _).
  - repeat split.
  - exists w'. split; assumption.
Defined.

Lemma set_then_get_axis_limits_SI_witness :
  exists w' : World,
    _set_axis_limits plot_PH
      [Fin (Q2Qc (100000 # 1)); Fin (Q2Qc (500000 # 1)); Fin (Q2Qc (1000 # 1));
       Fin (Q2Qc (200000 # 1))] world0 = (Ok (), w') /\
    _get_axis_limits plot_PH None None w' =
      (Ok [Fin (Q2Qc (100000 # 1)); Fin (Q2Qc (500000 # 1)); Fin (Q2Qc (1000 # 1));
           Fin (Q2Qc (200000 # 1))], w').
Proof.
  assert (Hd : exists dx dy,
    dimensions (_system plot_PH) !! _x_index plot_PH = Some dx /\
    dimensions (_system plot_PH) !! _y_index plot_PH = Some dy).
  { do 2 eexists. split; vm_compute; reflexivity. }
  destruct Hd as (dx & dy & Hdx & Hdy).
  destruct (set_then_get_axis_limits_SI "KSI" plot_PH (Q2Qc (100000 # 1)) (Q2Qc (500000 # 1))
              (Q2Qc (1000 # 1)) (Q2Qc (200000 # 1)) [] dx dy world0) as (w' & H1 & H2 & _).
  - simpl; tauto.
  - exact Hdx.
  - exact Hdy.
  - repeat split.
  - exists w'. split; assumption.
Defined.

Lemma set_axis_limits_short_list_witness :
  exists (msg : string) (w' : World),
    set_axis_limits plot_PH [dec 100 1; dec 500 1; dec 1 1] world0
      = (Raise (IndexError msg), w') /\
    axis w' = set_xlim (dec 100 1, dec 500 1) (axis world0).
Proof.
  destruct (set_axis_limits_short_list plot_PH [dec 100 1; dec 500 1; dec 1 1] world0)
    as (msg & w' & E & _ & _ & _ & Hax).
  - simpl. lia.
  - exists msg, w'. split; assumption.
Defined.

Lemma computed_limits_contain_readings_witness :
  exists (x_lo x_hi y_lo y_hi : Qc) (w' : World),
    get_axis_limits plot_PH None None world0
      = (Ok [Fin x_lo; Fin x_hi; Fin y_lo; Fin y_hi], w') /\
    (x_lo <= x_hi)%Qc /\ (y_lo <= y_hi)%Qc.
Proof.
  assert (Hc : limits_not_set plot_PH (_x_index plot_PH) (_y_index plot_PH) (axis world0)
               = true) by reflexivity.
  assert (Hb : exists T_lo T_hi w1 P_lo P_hi w2,
    _get_sat_bounds plot_PH (PyInt iT) None None world0 = (Ok (T_lo, T_hi), w1) /\
    _get_sat_bounds plot_PH (PyInt iP) None None w1 = (Ok (P_lo, P_hi), w2) /\
    exists (readings : list (Qc * Qc)) s',
      reads_corners (_x_index plot_PH) (_y_index plot_PH) (eos w2)
        [(fmul lo_factor P_lo, fmul lo_factor T_lo);
         (fmul hi_factor P_hi, fmul lo_factor T_lo);
         (fmul lo_factor P_lo, py_min (fmul hi_factor T_hi) [dec 1000 1]);
         (fmul hi_factor P_hi, py_min (fmul hi_factor T_hi) [dec 1000 1])]
        ((fun r : Qc * Qc => (Fin r.1, Fin r.2)) <$> readings) s').
  { do 6 eexists. split; [vm_compute; reflexivity|]. split; [vm_compute; reflexivity|].
    eexists [(_, _); (_, _); (_, _); (_, _)], _.
    repeat (eapply reads_cons; [vm_compute; reflexivity|vm_compute; reflexivity
                               |vm_compute; reflexivity|]).
    apply reads_nil. }
  destruct Hb as (T_lo & T_hi & w1 & P_lo & P_hi & w2 & Hb1 & Hb2 & readings & s' & Hr).
  assert (Hd : exists dx dy,
    dimensions (_system plot_PH) !! _x_index plot_PH = Some dx /\
    dimensions (_system plot_PH) !! _y_index plot_PH = Some dy).
  { do 2 eexists. split; vm_compute; reflexivity. }
  destruct Hd as (dx & dy & Hdx & Hdy).
  destruct (computed_limits_contain_readings "KSI" plot_PH None None world0 w1 w2
              T_lo T_hi P_lo P_hi (dec 1000 1) readings s' dx dy)
    as (x_lo & x_hi & y_lo & y_hi & w' & E & Hx & Hy & _).
  - simpl; tauto.
  - exact Hc.
  - exact Hb1.
  - exact Hb2.
  - reflexivity.
  - exact Hr.
  - exact Hdx.
  - exact Hdy.
  - exists x_lo, x_hi, y_lo, y_hi, w'. split; [exact E|]. split; assumption.
Defined.

Lemma calc_sat_range_supplied_range_witness :
  exists (X Y : ndarray) (w' : World),
    calc_sat_range quality_PH (Some [dec 300 1; dec (-5) 1; dec 400 1])
      (Some [dec 100000 1]) 200 world0 = (Ok (set_y Y (set_x X quality_PH)), w') /\
    updates w' = [(QT_INPUTS, zero, dec 300 1); (QT_INPUTS, zero, dec (-5) 1);
                  (QT_INPUTS, zero, dec 400 1)].
Proof.
  destruct (calc_sat_range_supplied_range quality_PH (Some [dec 300 1; dec (-5) 1; dec 400 1])
              (Some [dec 100000 1]) 200 [dec 300 1; dec (-5) 1; dec 400 1] world0)
    as (X & Y & w' & lw & E & _ & _ & Hu & _).
  - left. reflexivity.
  - exists X, Y, w'. split; [exact E|exact Hu].
Defined.

Lemma calc_range_update_calls_witness :
  exists (self' : IsoLine) (w' : World) (ipair : Z),
    calc_range isobar_TS (Some [dec 1 1; dec (-2) 1; dec 3 1]) None world0 = (Ok self', w') /\
    updates w' = [(ipair, dec 100000 1, dec 1 1); (ipair, dec 100000 1, dec (-2) 1);
                  (ipair, dec 100000 1, dec 3 1)].
Proof.
  destruct (calc_range_update_calls isobar_TS (Some [dec 1 1; dec (-2) 1; dec 3 1]) None false
              [dec 1 1; dec (-2) 1; dec 3 1] world0)
    as (self' & w' & lw & E & Hu & _).
  - discriminate.
  - vm_compute; reflexivity.
  - reflexivity.
  - simpl; lia.
  - exists self', w'. eexists. split; [exact E|exact Hu].
Defined.

Lemma calc_range_empty_sweep_witness :
  exists (self' : IsoLine) (w' : World) (cell : float) (ipair : Z),
    calc_range isobar_TS (Some []) None world0 = (Ok self', w') /\
    updates w' = [(ipair, dec 100000 1, zero)] /\
    _x self' = Some [zero] /\ _y self' = Some [cell].
Proof.
  destruct (calc_range_empty_sweep isobar_TS (Some []) None false world0)
    as (self' & w' & cell & E & Hu & Hx & Hy).
  - discriminate.
  - discriminate.
  - discriminate.
  - discriminate.
  - vm_compute; reflexivity.
  - reflexivity.
  - exists self', w', cell. eexists. split; [exact E|]. split; [exact Hu|]. split; assumption.
Defined.

Lemma calc_sat_range_default_samples_witness :
  exists (X Y : ndarray) (w' : World) (lo hi : Qc) (Ts : list Qc),
    calc_sat_range quality_PH None None 3 world0 = (Ok (set_y Y (set_x X quality_PH)), w') /\
    length Ts = 3%nat /\ head Ts = Some lo /\ last Ts = Some hi /\
    Forall (fun t => (lo <= t)%Qc /\ (t <= hi)%Qc) Ts /\
    length X = 3%nat /\ length Y = 3%nat.
Proof.
  assert (Hb : exists lo hi w1,
    _get_sat_bounds quality_PH (PyInt iT) None None world0 = (Ok (Fin lo, Fin hi), w1) /\
    (lo <= hi)%Qc).
  { do 3 eexists. split; [vm_compute; reflexivity|]. vm_compute. discriminate. }
  destruct Hb as (lo & hi & w1 & Hb & Hle).
  destruct (calc_sat_range_default_samples quality_PH 3 world0 w1 lo hi Hb Hle)
    as (X & Y & w' & Ts & E & Hlen & Hh & Hl & Hall & _ & HX & HY).
  - lia.
  - exists X, Y, w', lo, hi, Ts. repeat split; assumption.
Defined.

Lemma calc_sat_range_degenerate_num_witness :
  exists w1 : World,
    (exists msg, calc_sat_range quality_PH None None (-1) world0
                 = (Raise (ValueError msg), w1)) /\
    calc_sat_range quality_PH None None 0 world0
      = (Ok (set_y [] (set_x [] quality_PH)), w1) /\
    length (updates w1) = 1%nat.
Proof.
  assert (Hb : exists T_lo T_hi w1,
    _get_sat_bounds quality_PH (PyInt iT) None None world0 = (Ok (T_lo, T_hi), w1) /\
    length (updates w1) = 1%nat).
  { do 3 eexists. split; [vm_compute; reflexivity|reflexivity]. }
  destruct Hb as (T_lo & T_hi & w1 & Hb & Hlen).
  exists w1. split; [|split; [|exact Hlen]].
  - apply (proj1 (calc_sat_range_degenerate_num quality_PH (-1) world0 w1 T_lo T_hi Hb)). lia.
  - exact (proj1 (proj2 (calc_sat_range_degenerate_num quality_PH 0 world0 w1 T_lo T_hi Hb))
             eq_refl).
Defined.

Lemma deprecated_sat_bounds_alias_witness :
  exists (r : result (float * float)) (w' : World) (lw : list Warning),
    _get_sat_bounds plot_PH (PyInt 16) (Some NaN) None world0 = (r, w') /\
    BasePlot__sat_bounds plot_PH (PyInt 16) (Some NaN) None world0 =
      (r, mkWorld (eos w') (axis w') (DeprecatedSatBounds :: lw) (updates w')) /\
    length lw = 1%nat.
Proof.
  assert (Hr : exists r w',
    _get_sat_bounds plot_PH (PyInt 16) (Some NaN) None world0 = (r, w') /\
    length (warned w') = 1%nat).
  { do 2 eexists. split; [vm_compute; reflexivity|reflexivity]. }
  destruct Hr as (r & w' & Hr & Hlen).
  destruct (deprecated_sat_bounds_alias plot_PH (PyInt 16) (Some NaN) None world0 w' r Hr)
    as (lw & Hw & E).
  exists r, w', lw. split; [exact Hr|]. split; [exact E|].
  rewrite Hw in Hlen. exact Hlen.
Defined.

Lemma get_axis_limits_settles_witness :
  exists (a b c d : float) (w' : World),
    get_axis_limits plot_PH None None world0 = (Ok [a; b; c; d], w') /\
    get_axis_limits plot_PH None None w' = (Ok [a; b; c; d], w').
Proof.
  assert (Hr : exists a b c d w',
    get_axis_limits plot_PH None None world0 = (Ok [a; b; c; d], w')).
  { do 5 eexists. vm_compute. reflexivity. }
  destruct Hr as (a & b & c & d & w' & Hr).
  exists a, b, c, d, w'. split; [exact Hr|].
  apply (get_axis_limits_settles plot_PH world0 w' a b c d Hr).
  - reflexivity.
  - reflexivity.
  - repeat split.
Defined.

Lemma constructed_bounds_below_critical_witness :
  exists (self : Base2DObject) (lo hi : float) (w' : World),
    Base2DObject__init__ BasePlot_cls (PyStr "H") (PyStr "P") None = Ok self /\
    _get_sat_bounds self (PyStr "T") None None world0 = (Ok (lo, hi), w') /\
    hi = Fin (Q2Qc (600 # 1) - Q2Qc (600 # 1) * default_small)%Qc /\
    (Q2Qc (600 # 1) - Q2Qc (600 # 1) * default_small <= Q2Qc (600 # 1))%Qc.
Proof.
  assert (Hi : Base2DObject__init__ BasePlot_cls (PyStr "H") (PyStr "P") None
               = Ok (base BasePlot_cls 30 17)) by reflexivity.
  assert (Hr : exists lo hi w',
    _get_sat_bounds (base BasePlot_cls 30 17) (PyStr "T") None None world0
      = (Ok (lo, hi), w')).
  { do 3 eexists. vm_compute. reflexivity. }
  destruct Hr as (lo & hi & w' & Hr).
  exists (base BasePlot_cls 30 17), lo, hi, w'. split; [exact Hi|]. split; [exact Hr|].
  destruct (constructed_bounds_below_critical BasePlot_cls (PyStr "H") (PyStr "P") None
              (base BasePlot_cls 30 17) (Q2Qc (600 # 1)) (Q2Qc (20000000 # 1)) default_small
              Hi eq_refl eq_refl eq_refl eq_refl eq_refl eq_refl
              (PyStr "T") world0 w' lo hi Hr) as [(Hk & _)|(_ & Hhi & Hlt)].
  - discriminate Hk.
  - split; assumption.
Defined.

Lemma get_axis_limits_leaves_plot_witness :
  exists (r : result (list float)) (w' : World),
    get_axis_limits plot_PH (Some 31) (Some 16) world0 = (r, w') /\
    warned w' = warned world0 /\ axis w' = axis world0.
Proof.
  assert (Hr : exists r w', get_axis_limits plot_PH (Some 31) (Some 16) world0 = (r, w')).
  { do 2 eexists. vm_compute. reflexivity. }
  destruct Hr as (r & w' & Hr).
  destruct (get_axis_limits_leaves_plot plot_PH (Some 31) (Some 16) world0 w' r Hr)
    as [Hw Hax].
  exists r, w'. split; [exact Hr|]. split; [exact Hw|].
  apply Hax; discriminate.
Defined.

End Concrete.
